(** * BouwBuddy: the update conversation and the report aggregator of [bot.py]

    A shallow embedding of the handlers of [src/bot.py] together with the
    part of the Python runtime and of python-telegram-bot they rely on, and
    the properties of the field collection state machine, the record store
    and the report aggregator proved on it.

    Conventions of the model:
    - a Python [str] is a Rocq [string]; a character is a code point below
      256, [String.length] is [len] and slicing counts characters;
    - a Python [float] is a binary64 value of [SpecFloat.spec_float];
    - a Python [dict] with string keys is a [gmap string _];
    - dictionaries are objects: they live in a heap and are passed around by
      reference, as [context.user_data["update_data"]] and the entries of
      [db["updates"]] are;
    - the clock ([datetime.now()]), the text service ([generate_content])
      and the rendering of a float ([repr]) are inputs of the model;
    - sending a message is recorded in an output trace and does not fail;
    - an update is a new message or an edited one of a chat and a user; the
      conversation handler keeps one state for each chat and user, the
      application one [user_data] for each user, and the store is shared. A
      handler sees the conversation of the key of its update and the
      [user_data] of the user of its update ([process_update]);
      [application_process_update] looks both up and writes them back. *)

From Stdlib Require Import ZArith String Ascii List Bool Lia SpecFloat.
From stdpp Require Import base option list strings gmap pretty.

Open Scope string_scope.

(** ** Python strings *)

Definition code (c : ascii) : nat := nat_of_ascii c.

Definition is_digit (c : ascii) : bool := (48 <=? code c)%nat && (code c <=? 57)%nat.

Definition digit_val (c : ascii) : Z := (Z.of_nat (code c) - 48)%Z.

(** [Py_ISSPACE]: blank, tab, line feed, vertical tab, form feed, return. *)
Definition py_isspace (c : ascii) : bool :=
  ((9 <=? code c)%nat && (code c <=? 13)%nat) || (code c =? 32)%nat.

(** [Py_UNICODE_ISSPACE] on the code points from 127 to 255: NEL and NBSP. *)
Definition unicode_isspace (c : ascii) : bool :=
  (code c =? 133)%nat || (code c =? 160)%nat.

Definition ascii_eqb (a b : ascii) : bool := (code a =? code b)%nat.

(** [c.lower()] on one ASCII letter. *)
Definition lower_char (c : ascii) : ascii :=
  if (65 <=? code c)%nat && (code c <=? 90)%nat then ascii_of_nat (code c + 32) else c.

(** [s.lower()], on the ASCII letters. *)
Fixpoint str_lower (s : string) : string :=
  match s with
  | EmptyString => EmptyString
  | String c s' => String (lower_char c) (str_lower s')
  end.

(** [s.replace(old, new)] for one-character [old] and [new]: every
    occurrence is replaced. *)
Fixpoint str_replace (old new : ascii) (s : string) : string :=
  match s with
  | EmptyString => EmptyString
  | String c s' =>
      String (if ascii_eqb c old then new else c) (str_replace old new s')
  end.

(** [s[:n]] *)
Fixpoint str_take (n : nat) (s : string) : string :=
  match n, s with
  | O, _ => EmptyString
  | _, EmptyString => EmptyString
  | S n', String c s' => String c (str_take n' s')
  end.

(** ** [float(str)]

    The steps of CPython's [PyFloat_FromString]: non-ASCII blanks become
    blanks, underscores between digits are dropped, blanks at both ends are
    stripped, and the rest must be, as a whole, a decimal literal or one of
    inf, infinity and nan. [None] stands for [ValueError]. *)

Definition is_ascii (s : list ascii) : bool := forallb (fun c => (code c <? 128)%nat) s.

Fixpoint transform_loop (s : list ascii) : list ascii :=
  match s with
  | [] => []
  | c :: s' =>
      if (code c <? 127)%nat then c :: transform_loop s'
      else if unicode_isspace c then " "%char :: transform_loop s'
      else ["?"%char]
  end.

Definition transform_decimal_and_space (s : list ascii) : list ascii :=
  if is_ascii s then s else transform_loop s.

Fixpoint copy_without_underscores (prev : ascii) (s : list ascii) : option (list ascii) :=
  match s with
  | [] => if ascii_eqb prev "_" then None else Some []
  | c :: s' =>
      if ascii_eqb c "_" then
        if is_digit prev then copy_without_underscores c s' else None
      else if ascii_eqb prev "_" && negb (is_digit c) then None
      else cons c <$> copy_without_underscores c s'
  end.

Definition string_to_number_with_underscores (s : list ascii) : option (list ascii) :=
  if existsb (fun c => ascii_eqb c "_") s
  then copy_without_underscores zero s
  else Some s.

Fixpoint lstrip (s : list ascii) : list ascii :=
  match s with
  | c :: s' => if py_isspace c then lstrip s' else s
  | [] => []
  end.

Definition strip (s : list ascii) : list ascii := rev (lstrip (rev (lstrip s))).

Fixpoint span_digits (s : list ascii) : list ascii * list ascii :=
  match s with
  | c :: s' =>
      if is_digit c then let '(ds, r) := span_digits s' in (c :: ds, r) else ([], s)
  | [] => ([], [])
  end.

Definition digits_value (ds : list ascii) : Z :=
  fold_left (fun acc c => (10 * acc + digit_val c)%Z) ds 0%Z.

Definition parse_sign (s : list ascii) : bool * list ascii :=
  match s with
  | c :: s' =>
      if ascii_eqb c "-" then (true, s')
      else if ascii_eqb c "+" then (false, s')
      else (false, s)
  | [] => (false, [])
  end.

(** The binary64 value nearest to [num / den] (ties to even), with the sign
    [neg]: every binary64 value is a multiple of [2^-1074], so the quotient
    by that unit and the position of the remainder decide the rounding. *)
Definition round_ratio (neg : bool) (num den : Z) : spec_float :=
  let '(q, r) := Z.div_eucl (num * 2 ^ 1074)%Z den in
  binary_round_aux 53 1024 neg q (-1074)%Z (new_location den r).

(** The value of the decimal literal with digits [m] and exponent [e10]. *)
Definition float_of_decimal (neg : bool) (m : Z) (e10 : Z) : spec_float :=
  if (0 <=? e10)%Z then round_ratio neg (m * 10 ^ e10)%Z 1%Z
  else round_ratio neg m (10 ^ (- e10))%Z.

(** The exponent part: consumed only when at least one digit follows. *)
Definition parse_exponent (s : list ascii) : Z * list ascii :=
  match s with
  | c :: s' =>
      if ascii_eqb (lower_char c) "e" then
        let '(eneg, s1) := parse_sign s' in
        let '(ds, r) := span_digits s1 in
        match ds with
        | [] => (0%Z, s)
        | _ => ((if eneg then - digits_value ds else digits_value ds)%Z, r)
        end
      else (0%Z, s)
  | [] => (0%Z, [])
  end.

(** [_Py_dg_strtod]: the value and the unread rest; [None] when no digit
    was found. *)
Definition dg_strtod (s : list ascii) : option (spec_float * list ascii) :=
  let '(neg, s0) := parse_sign s in
  let '(ip, s1) := span_digits s0 in
  let '(fp, s2) :=
    match s1 with
    | c :: s1' => if ascii_eqb c "." then span_digits s1' else ([], s1)
    | [] => ([], [])
    end in
  match (ip ++ fp)%list with
  | [] => None
  | ds =>
      let '(e, r) := parse_exponent s2 in
      Some (float_of_decimal neg (digits_value ds) (e - Z.of_nat (length fp))%Z, r)
  end.

Fixpoint case_insensitive_match (s : list ascii) (t : list ascii) : option (list ascii) :=
  match t, s with
  | [] , _ => Some s
  | b :: t', a :: s' =>
      if ascii_eqb (lower_char a) b then case_insensitive_match s' t' else None
  | _ :: _, [] => None
  end.

(** [_Py_parse_inf_or_nan] *)
Definition parse_inf_or_nan (s : list ascii) : option (spec_float * list ascii) :=
  let '(neg, s0) := parse_sign s in
  match case_insensitive_match s0 (list_ascii_of_string "inf") with
  | Some r =>
      match case_insensitive_match r (list_ascii_of_string "inity") with
      | Some r' => Some (S754_infinity neg, r')
      | None => Some (S754_infinity neg, r)
      end
  | None =>
      match case_insensitive_match s0 (list_ascii_of_string "nan") with
      | Some r => Some (S754_nan, r)
      | None => None
      end
  end.

Definition ascii_strtod (s : list ascii) : option (spec_float * list ascii) :=
  match dg_strtod s with
  | Some res => Some res
  | None => parse_inf_or_nan s
  end.

Definition float_from_string_inner (s : list ascii) : option spec_float :=
  match strip s with
  | [] => None
  | s' =>
      match ascii_strtod s' with
      | Some (x, []) => Some x
      | _ => None
      end
  end.

Definition py_float (s : string) : option spec_float :=
  string_to_number_with_underscores
    (transform_decimal_and_space (list_ascii_of_string s))
  ≫= float_from_string_inner.

(** ** Naive [datetime] values

    A naive datetime is a day of the proleptic Gregorian calendar, numbered
    from 1 for 0001-01-01 as [toordinal] does, and a number of microseconds
    since midnight. *)

Record datetime := DateTime { ordinal : Z; usec : Z }.

Definition MAXORDINAL : Z := 3652059.

Definition valid_datetime (t : datetime) : Prop :=
  (1 <= ordinal t <= MAXORDINAL)%Z /\ (0 <= usec t < 86400000000)%Z.

(** [t.date()] *)
Definition date (t : datetime) : Z := ordinal t.

(** [a <= b] on naive datetimes *)
Definition datetime_leb (a b : datetime) : bool :=
  (ordinal a <? ordinal b)%Z || ((ordinal a =? ordinal b)%Z && (usec a <=? usec b)%Z).

(** [t - timedelta(days=n)]; [None] stands for [OverflowError]. *)
Definition sub_days (t : datetime) (n : Z) : option datetime :=
  let d := (ordinal t - n)%Z in
  if (0 <? d)%Z && (d <=? MAXORDINAL)%Z then Some (DateTime d (usec t)) else None.

Definition is_leap (year : Z) : bool :=
  (year mod 4 =? 0)%Z && (negb (year mod 100 =? 0)%Z || (year mod 400 =? 0)%Z).

Definition days_before_year (year : Z) : Z :=
  let y := (year - 1)%Z in (y * 365 + y / 4 - y / 100 + y / 400)%Z.

Definition DAYS_IN_MONTH : list Z := [31; 28; 31; 30; 31; 30; 31; 31; 30; 31; 30; 31]%Z.
Definition DAYS_BEFORE_MONTH : list Z :=
  [0; 31; 59; 90; 120; 151; 181; 212; 243; 273; 304; 334]%Z.

(** The tables are read at [month - 1]. *)
Definition table (t : list Z) (month : Z) : Z := nth (Z.to_nat (month - 1)) t 0%Z.

Definition days_in_month (year month : Z) : Z :=
  if (month =? 2)%Z && is_leap year then 29%Z else table DAYS_IN_MONTH month.

Definition days_before_month (year month : Z) : Z :=
  (table DAYS_BEFORE_MONTH month + (if (2 <? month)%Z && is_leap year then 1 else 0))%Z.

Definition ymd2ord (year month day : Z) : Z :=
  (days_before_year year + days_before_month year month + day)%Z.

Definition ord2ymd (n0 : Z) : Z * Z * Z :=
  let n := (n0 - 1)%Z in
  let n400 := (n / 146097)%Z in
  let n := (n mod 146097)%Z in
  let n100 := (n / 36524)%Z in
  let n := (n mod 36524)%Z in
  let n4 := (n / 1461)%Z in
  let n := (n mod 1461)%Z in
  let n1 := (n / 365)%Z in
  let n := (n mod 365)%Z in
  let year := (n400 * 400 + 1 + n100 * 100 + n4 * 4 + n1)%Z in
  if (n1 =? 4)%Z || (n100 =? 4)%Z then ((year - 1)%Z, 12%Z, 31%Z)
  else
    let leapyear := (n1 =? 3)%Z && (negb (n4 =? 24)%Z || (n100 =? 3)%Z) in
    let month := Z.shiftr (n + 50) 5 in
    let preceding :=
      (table DAYS_BEFORE_MONTH month + (if (2 <? month)%Z && leapyear then 1 else 0))%Z in
    if (n <? preceding)%Z then
      let month := (month - 1)%Z in
      let preceding :=
        (preceding - (table DAYS_IN_MONTH month
                      + (if (month =? 2)%Z && leapyear then 1 else 0)))%Z in
      (year, month, (n - preceding + 1)%Z)
    else (year, month, (n - preceding + 1)%Z).

Definition digit_char (d : Z) : ascii := ascii_of_nat (48 + Z.to_nat d).

(** ["%0wd" % n] for [0 <= n < 10^w] *)
Fixpoint fmt_digits (w : nat) (n : Z) : list ascii :=
  match w with
  | O => []
  | S w' => (fmt_digits w' (n / 10) ++ [digit_char (n mod 10)])%list
  end.

(** [t.isoformat()]: [YYYY-MM-DDTHH:MM:SS], followed by [.ffffff] when the
    microseconds are not zero. *)
Definition isoformat_chars (t : datetime) : list ascii :=
  let '(y, m, d) := ord2ymd (ordinal t) in
  let secs := (usec t / 1000000)%Z in
  let us := (usec t mod 1000000)%Z in
  (fmt_digits 4 y ++ "-"%char :: fmt_digits 2 m ++ "-"%char :: fmt_digits 2 d
   ++ "T"%char :: fmt_digits 2 (secs / 3600) ++ ":"%char
   :: fmt_digits 2 (secs / 60 mod 60) ++ ":"%char :: fmt_digits 2 (secs mod 60)
   ++ (if (us =? 0)%Z then [] else "."%char :: fmt_digits 6 us))%list.

Definition isoformat (t : datetime) : string := string_of_list_ascii (isoformat_chars t).

Definition read_digits (w : nat) (s : list ascii) : option (Z * list ascii) :=
  let ds := take w s in
  if (length ds =? w)%nat && forallb is_digit ds
  then Some (digits_value ds, drop w s) else None.

Definition expect (c : ascii) (s : list ascii) : option (list ascii) :=
  match s with
  | a :: r => if ascii_eqb a c then Some r else None
  | [] => None
  end.

Definition check (b : bool) : option unit := if b then Some tt else None.

(** [datetime.fromisoformat(s)] on the two shapes that [isoformat] writes for
    a naive datetime; [None] stands for [ValueError]. The store only ever
    holds strings written by [isoformat]; the other ISO 8601 shapes that
    Python reads as well are not modelled. *)
Definition fromisoformat (s : string) : option datetime :=
  '(y, s) ← read_digits 4 (list_ascii_of_string s);
  s ← expect "-" s;
  '(m, s) ← read_digits 2 s;
  s ← expect "-" s;
  '(d, s) ← read_digits 2 s;
  s ← expect "T" s;
  '(hh, s) ← read_digits 2 s;
  s ← expect ":" s;
  '(mm, s) ← read_digits 2 s;
  s ← expect ":" s;
  '(ss, s) ← read_digits 2 s;
  us ← match s with
       | [] => Some 0%Z
       | _ => s ← expect "." s;
              '(us, s) ← read_digits 6 s;
              match s with [] => Some us | _ => None end
       end;
  _ ← check ((1 <=? y)%Z && (1 <=? m)%Z && (m <=? 12)%Z && (1 <=? d)%Z
             && (d <=? days_in_month y m)%Z
             && (hh <=? 23)%Z && (mm <=? 59)%Z && (ss <=? 59)%Z);
  Some (DateTime (ymd2ord y m d) (((hh * 60 + mm) * 60 + ss) * 1000000 + us)%Z).

(** ** Objects, the world and the handler monad *)

(** The values that the program stores in a dictionary or formats. *)
Inductive value :=
| VNone
| VStr (s : string)
| VFloat (x : spec_float).

(** [heap]: the dictionaries allocated so far, a reference is an index;
    [user_data]: [context.user_data], from keys to references;
    [updates]: [db["updates"]], a list of references. *)
Record world := World {
  heap : list (gmap string value);
  user_data : gmap string nat;
  updates : list nat
}.

Inductive exn :=
| KeyError (key : string)
| ValueError
| IndexError
| TypeError
| AttributeError
| OverflowError
| Exception (msg : string).

(** A constructed [InputMediaPhoto]. *)
Record input_media_photo := InputMedia { media : string; caption : value }.

(** What a handler sends out, in order. *)
Inductive event :=
| ReplyText (text : string)
| ReplyMarkdown (text : string)
| ReplyRemoveKeyboard (text : string)
| SendMediaGroup (items : list input_media_photo)
| GenerateContent (prompt : string)
| LogError (msg : string).

(** The answer of the text service to one request: the text of the response,
    or the exception that the call or reading [response.text] raises. *)
Inductive gen_result :=
| Generated (text : string)
| Failed (msg : string).

Record runtime := Runtime {
  now : datetime;
  generate_content : string -> gen_result;
  repr_float : spec_float -> string
}.

Inductive outcome (A : Type) :=
| Ret (a : A) (w : world) (out : list event)
| Raise (e : exn) (w : world) (out : list event).
Arguments Ret {A} a w out.
Arguments Raise {A} e w out.

Definition M (A : Type) : Type := runtime -> world -> outcome A.

(** The outcome [o], after [out] has been sent. *)
Definition after {A} (out : list event) (o : outcome A) : outcome A :=
  match o with
  | Ret a w out' => Ret a w (out ++ out')%list
  | Raise e w out' => Raise e w (out ++ out')%list
  end.

Definition ret {A} (a : A) : M A := fun _ w => Ret a w [].

Definition bind {A B} (m : M A) (f : A -> M B) : M B :=
  fun r w =>
    match m r w with
    | Ret a w' out => after out (f a r w')
    | Raise e w' out => Raise e w' out
    end.

Definition raise {A} (e : exn) : M A := fun _ w => Raise e w [].

(** [try: body except ...: handler]; [handler e] is [None] when no clause
    takes [e]. *)
Definition try_except {A} (body : M A) (handler : exn -> option (M A)) : M A :=
  fun r w =>
    match body r w with
    | Ret a w' out => Ret a w' out
    | Raise e w' out =>
        match handler e with
        | Some h => after out (h r w')
        | None => Raise e w' out
        end
    end.

#[export] Instance M_ret : MRet M := @ret.
#[export] Instance M_bind : MBind M := fun A B f m => bind m f.

Definition emit (e : event) : M unit := fun _ w => Ret tt w [e].

(** [message.reply_text(text)], plain and with [parse_mode="Markdown"], for
    a message that is there. *)
Definition reply_text (text : string) : M unit := emit (ReplyText text).
Definition reply_markdown (text : string) : M unit := emit (ReplyMarkdown text).

Definition datetime_now : M datetime := fun r w => Ret (now r) w [].

(** The dictionary behind a reference. Python has no dangling reference;
    in the model a reference that is not allocated reads as the empty
    dictionary and writing through it does nothing. The worlds that the bot
    reaches hold allocated references only ([reachable_invariant]). *)
Definition deref (w : world) (l : nat) : gmap string value := default ∅ (heap w !! l).

(** [{k: v}]: a new dictionary *)
Definition new_dict (d : gmap string value) : M nat :=
  fun _ w => Ret (length (heap w)) (World (heap w ++ [d]) (user_data w) (updates w)) [].

(** [d[k]] *)
Definition getitem (l : nat) (k : string) : M value :=
  fun _ w =>
    match deref w l !! k with
    | Some v => Ret v w []
    | None => Raise (KeyError k) w []
    end.

(** [d.get(k, dflt)] *)
Definition dict_get (l : nat) (k : string) (dflt : value) : M value :=
  fun _ w => Ret (default dflt (deref w l !! k)) w [].

(** [k in d] *)
Definition contains (l : nat) (k : string) : M bool :=
  fun _ w => Ret (bool_decide (is_Some (deref w l !! k))) w [].

(** [d[k] = v] *)
Definition setitem (l : nat) (k : string) (v : value) : M unit :=
  fun _ w => Ret tt (World (alter (insert k v) l (heap w)) (user_data w) (updates w)) [].

(** [context.user_data[k]] *)
Definition user_data_getitem (k : string) : M nat :=
  fun _ w =>
    match user_data w !! k with
    | Some l => Ret l w []
    | None => Raise (KeyError k) w []
    end.

(** [context.user_data[k] = l] *)
Definition user_data_setitem (k : string) (l : nat) : M unit :=
  fun _ w => Ret tt (World (heap w) (<[k := l]> (user_data w)) (updates w)) [].

(** [context.user_data.clear()] *)
Definition user_data_clear : M unit :=
  fun _ w => Ret tt (World (heap w) ∅ (updates w)) [].

(** [db["updates"]] *)
Definition db_updates : M (list nat) := fun _ w => Ret (updates w) w [].

(** [db["updates"].append(l)] *)
Definition db_append (l : nat) : M unit :=
  fun _ w => Ret tt (World (heap w) (user_data w) (updates w ++ [l])) [].

(** ** Incoming updates and filters *)

(** A message. [Text]: a text message that does not start with a bot
    command; [Command]: a text message that starts with the command [/name]
    sent to this bot; [Photo]: a photo message, with the file identifiers of
    its sizes, the largest last; [Other]: any other message. *)
Inductive message :=
| Text (text : string)
| Command (name : string)
| Photo (sizes : list string)
| Other.

(** An update: a new message, which is [update.message], or a message that
    its sender has edited, which is [update.edited_message] while
    [update.message] is [None]. The filters and the command handlers look at
    [update.effective_message], which is the one or the other, so that an
    edited message is handed to the same handler as a new one. The updates
    that carry neither (channel posts, queries and the like) are taken by no
    handler that [main] registers: the conversation handler ignores channel
    posts and a command handler takes messages and edited messages only. *)
Inductive update :=
| Message (message : message)
| EditedMessage (edited_message : message).

Coercion Message : message >-> update.

(** Pairs and lists are read from the type that is expected of them, so
    that a message in a list of updates is read as the update [Message]. *)
#[local] Arguments pair {A B} & _ _.
#[local] Arguments cons {A} & _ _.

(** [update.effective_message] *)
Definition effective_message (update : update) : message :=
  match update with
  | Message m | EditedMessage m => m
  end.

(** [update.message], to read an attribute of: on [None] that is an
    [AttributeError]. *)
Definition update_message (update : update) : M message :=
  match update with
  | Message m => mret m
  | EditedMessage _ => raise AttributeError
  end.

(** [message.text] *)
Definition message_text (m : message) : value :=
  match m with
  | Text t => VStr t
  | Command n => VStr ("/" ++ n)
  | Photo _ | Other => VNone
  end.

(** [message.photo] *)
Definition message_photo (m : message) : list string :=
  match m with
  | Photo sizes => sizes
  | _ => []
  end.

(** [update.message.reply_text(text)] *)
Definition message_reply_text (update : update) (text : string) : M unit :=
  _ ← update_message update;
  reply_text text.

Definition filters_TEXT (update : update) : bool :=
  match message_text (effective_message update) with
  | VStr t => negb (String.eqb t "")
  | _ => false
  end.

Definition filters_COMMAND (update : update) : bool :=
  match effective_message update with
  | Command _ => true
  | _ => false
  end.

Definition filters_PHOTO (update : update) : bool :=
  match message_photo (effective_message update) with
  | [] => false
  | _ => true
  end.

(** ** The conversation states *)

Inductive conv_state :=
| NAME | FUNCTION | COMPANY | LOCATION | HOURS_WORKED | UPDATE_TEXT | PLANNING | PHOTO
| END.

#[export] Instance conv_state_eq_dec : EqDecision conv_state.
Proof. solve_decision. Defined.

(** ** The handlers of the update conversation *)

(** In an assignment the right-hand side, which reads [update.message], is
    evaluated before the target. *)

Definition start_update (update : update) : M conv_state :=
  message_reply_text update "Let's log a new update. First, what is your full name?";;
  mret NAME.

Definition get_name (update : update) : M conv_state :=
  m ← update_message update;
  l ← new_dict {[ "name" := message_text m ]};
  user_data_setitem "update_data" l;;
  message_reply_text update
    "Got it. What is your function or role? (e.g., Electrician, Plumber)";;
  mret FUNCTION.

Definition get_function (update : update) : M conv_state :=
  m ← update_message update;
  l ← user_data_getitem "update_data";
  setitem l "function" (message_text m);;
  message_reply_text update "Great. What company do you work for?";;
  mret COMPANY.

Definition get_company (update : update) : M conv_state :=
  m ← update_message update;
  l ← user_data_getitem "update_data";
  setitem l "company" (message_text m);;
  message_reply_text update
    "Where on the site did you work today? (e.g., Second Floor, West Wing)";;
  mret LOCATION.

Definition get_location (update : update) : M conv_state :=
  m ← update_message update;
  l ← user_data_getitem "update_data";
  setitem l "location" (message_text m);;
  message_reply_text update "How many hours did you work?";;
  mret HOURS_WORKED.

(** [text.replace(',', '.')] *)
Definition replace_comma (text : value) : M string :=
  match text with
  | VStr s => mret (str_replace "," "." s)
  | _ => raise AttributeError
  end.

(** [float(s)] *)
Definition float (s : string) : M spec_float :=
  match py_float s with
  | Some x => mret x
  | None => raise ValueError
  end.

Definition except_ValueError {A} (h : M A) (e : exn) : option (M A) :=
  match e with
  | ValueError => Some h
  | _ => None
  end.

Definition get_hours (update : update) : M conv_state :=
  try_except
    (m ← update_message update;
     s ← replace_comma (message_text m);
     hours ← float s;
     l ← user_data_getitem "update_data";
     setitem l "hours_worked" (VFloat hours);;
     message_reply_text update "Thanks. Please describe the work you completed today.";;
     mret UPDATE_TEXT)
    (except_ValueError
       (message_reply_text update
          "That doesn't look like a valid number. Please enter the hours again.";;
        mret HOURS_WORKED)).

Definition get_update_text (update : update) : M conv_state :=
  m ← update_message update;
  l ← user_data_getitem "update_data";
  setitem l "update_text" (message_text m);;
  message_reply_text update
    "Any notes on planning? (e.g., 'Blocked by other team', 'Ready for inspection')";;
  mret PLANNING.

Definition get_planning (update : update) : M conv_state :=
  m ← update_message update;
  l ← user_data_getitem "update_data";
  setitem l "planning" (message_text m);;
  message_reply_text update "Perfect. Now, please send one photo of your work.";;
  mret PHOTO.

(** [update.message.photo[-1].get_file()]: the file identifier the transport
    resolves the largest size to. *)
Definition get_file (update : update) : M string :=
  m ← update_message update;
  match last (message_photo m) with
  | Some file_id => mret file_id
  | None => raise IndexError
  end.

Definition get_photo (update : update) : M conv_state :=
  photo_file ← get_file update;
  l ← user_data_getitem "update_data";
  setitem l "photo_id" (VStr photo_file);;
  t ← datetime_now;
  l ← user_data_getitem "update_data";
  setitem l "date" (VStr (isoformat t));;
  l ← user_data_getitem "update_data";
  db_append l;;
  message_reply_text update
    ("Thank you! Your update has been logged successfully. "
     ++ "Use /daily_report or /weekly_report to see the summary.");;
  user_data_clear;;
  mret END.

(** [user_data] is cleared before [update.message] is read. *)
Definition cancel (update : update) : M conv_state :=
  user_data_clear;;
  _ ← update_message update;
  emit (ReplyRemoveKeyboard "Update cancelled. You can start a new one with /update.");;
  mret END.

(** ** The report aggregator *)

Definition nl : string := String (ascii_of_nat 10) EmptyString.

(** [str(v)], as an f-string formats [v] *)
Definition format (v : value) : M string :=
  fun r w =>
    Ret match v with
        | VNone => "None"
        | VStr s => s
        | VFloat x => repr_float r x
        end w [].

(** The blocks that the loop of [build_prompt] appends, numbered from [i]. *)
Fixpoint prompt_blocks (i : nat) (updates_data : list nat) : M string :=
  match updates_data with
  | [] => mret ""
  | u :: rest =>
      name ← dict_get u "name" (VStr "N/A") ≫= format;
      function ← dict_get u "function" (VStr "N/A") ≫= format;
      company ← dict_get u "company" (VStr "N/A") ≫= format;
      location ← dict_get u "location" (VStr "N/A") ≫= format;
      hours_worked ← dict_get u "hours_worked" (VStr "N/A") ≫= format;
      update_text ← dict_get u "update_text" (VStr "N/A") ≫= format;
      planning ← dict_get u "planning" (VStr "N/A") ≫= format;
      photo_id ← dict_get u "photo_id" (VStr "N/A") ≫= format;
      blocks ← prompt_blocks (S i) rest;
      mret ("Update " ++ pretty i ++ ":" ++ nl
            ++ "- Name: " ++ name ++ nl
            ++ "- Function: " ++ function ++ nl
            ++ "- Company: " ++ company ++ nl
            ++ "- Location: " ++ location ++ nl
            ++ "- Hours Worked: " ++ hours_worked ++ nl
            ++ "- Task Description: " ++ update_text ++ nl
            ++ "- Planning Notes: " ++ planning ++ nl
            ++ "- A photo was submitted for this update (ID: " ++ photo_id ++ ")."
            ++ nl ++ nl ++ blocks)
  end.

Definition build_prompt (updates_data : list nat) (report_type : string) : M string :=
  blocks ← prompt_blocks 1 updates_data;
  mret ("You are BouwBuddy AI, an expert construction project manager. "
        ++ "You will be given a series of raw " ++ str_lower report_type
        ++ " progress updates from a construction team. "
        ++ "Your task is to analyze all the updates and generate three distinct, professional reports in English."
        ++ nl ++ nl
        ++ "Here are the raw updates:" ++ nl
        ++ "-------------------------" ++ nl
        ++ blocks
        ++ "-------------------------" ++ nl
        ++ "Based on ALL the information above, please generate the following reports. Be concise and professional."
        ++ nl ++ nl
        ++ "1.  **Hours by Company:** Calculate the total hours worked for each company and list them."
        ++ nl ++ nl
        ++ "2.  **Technical Supervisor's Report:** Synthesize all updates into a technical summary. Mention specific tasks, progress, locations, and any potential blockers or delays mentioned in the planning notes. Refer to photos as evidence where relevant (e.g., '...as documented in the photo from [Name]')."
        ++ nl ++ nl
        ++ "3.  **Non-Technical Client Update:** Create a friendly, high-level summary for the client. Avoid technical jargon. Focus on visible progress and milestones. Be positive and reassuring.").

(** [genai.GenerativeModel('gemini-pro').generate_content(prompt).text] *)
Definition model_generate_content (prompt : string) : M string :=
  fun r w =>
    match generate_content r prompt with
    | Generated text => Ret text w [GenerateContent prompt]
    | Failed msg => Raise (Exception msg) w [GenerateContent prompt]
    end.

(** [str(e)] *)
Definition exn_str (e : exn) : string :=
  match e with
  | KeyError key => "'" ++ key ++ "'"
  | Exception msg => msg
  | _ => ""
  end.

(** The parameters of [InputMediaPhoto.__init__] in python-telegram-bot: the
    file is passed as [media], which is required. *)
Definition InputMediaPhoto_parameters : list string :=
  ["media"; "caption"; "parse_mode"; "caption_entities"; "filename";
   "has_spoiler"; "show_caption_above_media"; "api_kwargs"].

Definition keyword (k : string) (kwargs : list (string * value)) : option value :=
  snd <$> find (fun kv => String.eqb (fst kv) k) kwargs.

(** A call of [InputMediaPhoto] with keyword arguments: a keyword that is
    not a parameter, or a missing [media], is a [TypeError]. *)
Definition InputMediaPhoto (kwargs : list (string * value)) : M input_media_photo :=
  if forallb (fun kv => bool_decide (fst kv ∈ InputMediaPhoto_parameters)) kwargs then
    match keyword "media" kwargs with
    | Some (VStr file_id) => mret (InputMedia file_id (default VNone (keyword "caption" kwargs)))
    | _ => raise TypeError
    end
  else raise TypeError.

(** The keyword arguments that the loop over [updates_data] passes to
    [InputMediaPhoto] for the record [u]. *)
Definition media_arguments (u : nat) : M (list (string * value)) :=
  name ← getitem u "name" ≫= format;
  company ← getitem u "company" ≫= format;
  update_text ← getitem u "update_text" ≫= format;
  let caption := name ++ " (" ++ company ++ ") - " ++ update_text in
  photo_id ← getitem u "photo_id";
  mret [("media_id", photo_id); ("caption", VStr (str_take 1024 caption))].

Fixpoint collect_media (updates_data : list nat) (media_group : list input_media_photo)
  : M (list input_media_photo) :=
  match updates_data with
  | [] => mret media_group
  | u :: rest =>
      has_photo ← contains u "photo_id";
      if has_photo : bool then
        item ← media_arguments u ≫= InputMediaPhoto;
        collect_media rest (media_group ++ [item])%list
      else collect_media rest media_group
  end.

(** [range(0, stop, step)] *)
Definition range_step (stop step : nat) : list nat :=
  (fun k => k * step) <$> seq 0 ((stop + step - 1) / step).

(** [l[i:j]] for [i <= j] *)
Definition slice {A} (l : list A) (i j : nat) : list A := take (j - i) (drop i l).

Fixpoint for_each {A} (l : list A) (body : A -> M unit) : M unit :=
  match l with
  | [] => mret tt
  | x :: l' => body x;; for_each l' body
  end.

(** [context.bot.send_media_group(chat_id=..., media=items)] *)
Definition send_media_group (items : list input_media_photo) : M unit :=
  emit (SendMediaGroup items).

(** The loop that sends the media group, ten items at a time. *)
Definition send_in_chunks (media_group : list input_media_photo) : M unit :=
  for_each (range_step (length media_group) 10)
    (fun i => send_media_group (slice media_group i (i + 10))).

(** The function is given the update and sends everything through
    [update.message], which is read by its first statement. The model gives
    it no update: it is the function on an update that has a message, and
    the two report handlers, which alone call it, read [update.message]
    first. *)
Definition generate_and_send_report (updates_data : list nat) (report_type : string) : M unit :=
  reply_text ("Generating the " ++ report_type
              ++ " Report... The AI is thinking, this may take a moment.");;
  failed ← try_except
    (prompt ← build_prompt updates_data report_type;
     ai_report ← model_generate_content prompt;
     reply_markdown ("--- *" ++ report_type ++ " Report* ---");;
     reply_markdown ai_report;;
     mret false)
    (fun e => Some (
       emit (LogError ("Error generating AI report: " ++ exn_str e));;
       reply_text "Sorry, there was an error while generating the AI report. Please try again later.";;
       mret true));
  if failed : bool then mret tt
  else
    match updates_data with
    | [] => mret tt
    | _ =>
        reply_markdown "*Submitted Photos for this period:*";;
        media_group ← collect_media updates_data [];
        match media_group with
        | [] => reply_text "No photos were submitted in this period."
        | _ => send_in_chunks media_group
        end
    end.

(** [datetime.fromisoformat(v)] *)
Definition parse_date (v : value) : M datetime :=
  match v with
  | VStr s =>
      match fromisoformat s with
      | Some t => mret t
      | None => raise ValueError
      end
  | _ => raise TypeError
  end.

(** [[u for u in us if cond(u)]] *)
Fixpoint comprehension (cond : nat -> M bool) (us : list nat) : M (list nat) :=
  match us with
  | [] => mret []
  | u :: us' =>
      keep ← cond u;
      rest ← comprehension cond us';
      mret (if keep : bool then u :: rest else rest)
  end.

Definition todays_updates : M (list nat) :=
  t ← datetime_now;
  let today := date t in
  us ← db_updates;
  comprehension
    (fun u => t ← getitem u "date" ≫= parse_date; mret (date t =? today)%Z) us.

Definition daily_report (update : update) : M unit :=
  todays_updates ← todays_updates;
  match todays_updates with
  | [] => message_reply_text update "No updates were logged today. Nothing to report."
  | _ => _ ← update_message update; generate_and_send_report todays_updates "Daily"
  end.

(** [datetime.now() - timedelta(days=7)] *)
Definition seven_days_ago : M datetime :=
  t ← datetime_now;
  match sub_days t 7 with
  | Some t' => mret t'
  | None => raise OverflowError
  end.

Definition weekly_updates : M (list nat) :=
  seven_days_ago ← seven_days_ago;
  us ← db_updates;
  comprehension
    (fun u => t ← getitem u "date" ≫= parse_date; mret (datetime_leb seven_days_ago t)) us.

Definition weekly_report (update : update) : M unit :=
  weekly_updates ← weekly_updates;
  match weekly_updates with
  | [] => message_reply_text update "No updates were logged in the last 7 days."
  | _ => _ ← update_message update; generate_and_send_report weekly_updates "Weekly"
  end.

Definition start (update : update) : M unit :=
  message_reply_text update
             ("Hi! I'm BouwBuddy AI. I'm here to help you log your daily construction progress."
              ++ nl ++ nl
              ++ "You can use the following commands:" ++ nl
              ++ "/update - Start logging a new progress update." ++ nl
              ++ "/daily_report - Generate a report for today's updates." ++ nl
              ++ "/weekly_report - Generate a report for the last 7 days." ++ nl
              ++ "/help - Show this message again.").

Definition help_command (update : update) : M unit := start update.

(** ** Dispatch: [ConversationHandler] and [Application] as [main] sets
    them up *)

Inductive handler (R : Type) :=
| MessageHandler (filter : update -> bool) (callback : update -> M R)
| CommandHandler (command : string) (callback : update -> M R).
Arguments MessageHandler {R} filter callback.
Arguments CommandHandler {R} command callback.

Definition check_update {R} (h : handler R) (m : update) : bool :=
  match h with
  | MessageHandler filter _ => filter m
  | CommandHandler command _ =>
      match effective_message m with
      | Command name => String.eqb (str_lower name) command
      | _ => false
      end
  end.

Definition callback {R} (h : handler R) : update -> M R :=
  match h with
  | MessageHandler _ cb | CommandHandler _ cb => cb
  end.

(** The first handler of the list that takes the update. *)
Definition first_match {R} (hs : list (handler R)) (m : update) : option (update -> M R) :=
  callback <$> find (fun h => check_update h m) hs.

Definition text_not_command (m : update) : bool := filters_TEXT m && negb (filters_COMMAND m).

Definition entry_points : list (handler conv_state) := [CommandHandler "update" start_update].

Definition states (s : conv_state) : list (handler conv_state) :=
  match s with
  | NAME => [MessageHandler text_not_command get_name]
  | FUNCTION => [MessageHandler text_not_command get_function]
  | COMPANY => [MessageHandler text_not_command get_company]
  | LOCATION => [MessageHandler text_not_command get_location]
  | HOURS_WORKED => [MessageHandler text_not_command get_hours]
  | UPDATE_TEXT => [MessageHandler text_not_command get_update_text]
  | PLANNING => [MessageHandler text_not_command get_planning]
  | PHOTO => [MessageHandler filters_PHOTO get_photo]
  | END => []
  end.

Definition fallbacks : list (handler conv_state) := [CommandHandler "cancel" cancel].

(** The conversation of a chat and a user: [None] when no conversation is
    running, [Some s] in state [s]. The handler that [ConversationHandler]
    picks: an entry point when no conversation is running, otherwise a
    handler of the current state and, failing that, a fallback. *)
Definition conv_check_update (c : option conv_state) (m : update)
  : option (update -> M conv_state) :=
  match c with
  | None => first_match entry_points m
  | Some s =>
      match first_match (states s) m with
      | Some cb => Some cb
      | None => first_match fallbacks m
      end
  end.

(** The state kept for the value a handler returns: [END] closes the
    conversation. *)
Definition update_state (s : conv_state) : option conv_state :=
  if decide (s = END) then None else Some s.

Definition command_handlers : list (handler unit) :=
  [CommandHandler "start" start; CommandHandler "help" help_command;
   CommandHandler "daily_report" daily_report; CommandHandler "weekly_report" weekly_report].

(** [Application.process_update] on an update [m], given the conversation
    [c] that the conversation handler holds for the chat and the user of [m]
    and the world [w] that the handlers see, with the [user_data] of that
    user: the conversation handler comes first, then the commands. An
    exception that leaves a handler is logged by the application; the
    conversation stays in its state and what the handler did before is
    kept. *)
Definition process_update (c : option conv_state) (m : update) (r : runtime) (w : world)
  : option conv_state * world * list event :=
  match conv_check_update c m with
  | Some cb =>
      match cb m r w with
      | Ret s w' out => (update_state s, w', out)
      | Raise _ w' out => (c, w', out)
      end
  | None =>
      match first_match command_handlers m with
      | Some cb =>
          match cb m r w with
          | Ret _ w' out | Raise _ w' out => (c, w', out)
          end
      | None => (c, w, [])
      end
  end.

(** A run of one chat and user: its updates are handled one after the
    other, each with the runtime of its moment, and no update of another
    chat or user comes in between. The result lists the conversation after
    each update. *)
Fixpoint run (c : option conv_state) (w : world) (ms : list (update * runtime))
  : list (option conv_state) * world * list event :=
  match ms with
  | [] => ([], w, [])
  | (m, r) :: ms' =>
      let '(c', w', out) := process_update c m r w in
      let '(cs, w'', out') := run c' w' ms' in
      (c' :: cs, w'', (out ++ out')%list)
  end.

Definition initial_world : world := World [] ∅ [].

(** ** The application: a conversation for each chat and user, a
    [user_data] for each user, one store *)

(** [app_heap]: the dictionaries allocated so far; [app_user_data]:
    [application.user_data], from users to their [user_data];
    [conversations]: the states that the conversation handler keeps, under
    the key (chat, user), with no entry where no conversation is running;
    [app_updates]: [db["updates"]]. *)
Record application := Application {
  app_heap : list (gmap string value);
  app_user_data : gmap nat (gmap string nat);
  conversations : gmap (nat * nat) conv_state;
  app_updates : list nat
}.

Definition initial_application : application := Application [] ∅ ∅ [].

(** The world that the handlers see in an update of [user]. *)
Definition world_of (a : application) (user : nat) : world :=
  World (app_heap a) (default ∅ (app_user_data a !! user)) (app_updates a).

Definition set_conversation (key : nat * nat) (c : option conv_state)
    (cs : gmap (nat * nat) conv_state) : gmap (nat * nat) conv_state :=
  match c with
  | Some s => <[key := s]> cs
  | None => delete key cs
  end.

(** The application after the handlers have left the conversation [c] and
    the world [w] for an update of [chat] and [user]. *)
Definition write_back (a : application) (chat user : nat) (c : option conv_state) (w : world)
  : application :=
  Application (heap w) (<[user := user_data w]> (app_user_data a))
    (set_conversation (chat, user) c (conversations a)) (updates w).

(** [Application.process_update] on an update of [chat] and [user]. *)
Definition application_process_update (a : application) (chat user : nat) (m : update)
    (r : runtime) : application * list event :=
  let '(c, w, out) := process_update (conversations a !! (chat, user)) m r (world_of a user) in
  (write_back a chat user c w, out).

(** The updates of a run of the application come with their chat, their
    user and the runtime of their moment. *)
Fixpoint application_run (a : application) (us : list (nat * nat * update * runtime))
  : application * list event :=
  match us with
  | [] => (a, [])
  | (chat, user, m, r) :: us' =>
      let '(a', out) := application_process_update a chat user m r in
      let '(a'', out') := application_run a' us' in
      (a'', (out ++ out')%list)
  end.

(** The applications that updates of the chats and users in [allowed] lead
    to, from the start of the bot. *)
Inductive reaches (allowed : nat -> nat -> Prop) : application -> Prop :=
| reaches_init : reaches allowed initial_application
| reaches_step a chat user m r a' out :
    reaches allowed a -> allowed chat user ->
    application_process_update a chat user m r = (a', out) -> reaches allowed a'.

Definition any_chat (chat user : nat) : Prop := True.

(** The situations that the bot can be in, as the handlers of an update see
    them: the conversation of some chat and user and the world of that
    user, in an application that any updates lead to. *)
Definition reachable (c : option conv_state) (w : world) : Prop :=
  exists a chat user,
    reaches any_chat a /\ conversations a !! (chat, user) = c /\ world_of a user = w.

(** The records of the store of the application, in order. *)
Definition app_records (a : application) : list (gmap string value) :=
  (fun u => default ∅ (app_heap a !! u)) <$> app_updates a.


(** ** Vocabulary of the statements *)

(** The world and the trace that a computation ends with. *)
Definition outcome_world {A} (o : outcome A) : world :=
  match o with
  | Ret _ w _ | Raise _ w _ => w
  end.

Definition outcome_out {A} (o : outcome A) : list event :=
  match o with
  | Ret _ _ out | Raise _ _ out => out
  end.

(** [m] leaves the world as it found it. *)
Definition reads_only {A} (m : M A) : Prop := forall r w, outcome_world (m r w) = w.

(** [m] leaves the world as it found it and sends nothing. *)
Definition silent {A} (m : M A) : Prop :=
  forall r w, outcome_world (m r w) = w /\ outcome_out (m r w) = [].

(** The chunks that [send_in_chunks] cuts a group into. *)
Definition chunks {A} (l : list A) : list (list A) :=
  (fun i => slice l i (i + 10)) <$> range_step (length l) 10.

(** The two windows of the aggregator, with the selection, the handler and
    the answer to an empty selection of each. *)
Inductive window := Daily | Weekly.

Definition window_updates (win : window) : M (list nat) :=
  match win with
  | Daily => todays_updates
  | Weekly => weekly_updates
  end.

Definition report (win : window) (m : message) : M unit :=
  match win with
  | Daily => daily_report m
  | Weekly => weekly_report m
  end.

Definition nothing_to_report (win : window) : string :=
  match win with
  | Daily => "No updates were logged today. Nothing to report."
  | Weekly => "No updates were logged in the last 7 days."
  end.

(** The event is a request to the text service. *)
Definition calls_service (e : event) : bool :=
  match e with
  | GenerateContent _ => true
  | _ => false
  end.

(** The event is a media group handed to the transport. *)
Definition sends_media (e : event) : bool :=
  match e with
  | SendMediaGroup _ => true
  | _ => false
  end.

(** [float(n)] and [x / y] on floats, to name binary64 values. *)
Definition float_of_Z (n : Z) : spec_float := binary_normalize 53 1024 n 0 false.
Definition float_div (x y : spec_float) : spec_float := SFdiv 53 1024 x y.

(** The states whose handler stores the text of the message: the key it
    is stored under and the state that follows. *)
Definition field_of (s : conv_state) : option (string * conv_state) :=
  match s with
  | FUNCTION => Some ("function", COMPANY)
  | COMPANY => Some ("company", LOCATION)
  | LOCATION => Some ("location", HOURS_WORKED)
  | UPDATE_TEXT => Some ("update_text", PLANNING)
  | PLANNING => Some ("planning", PHOTO)
  | _ => None
  end.

(** What handling the update [m] with the runtime [r] can do to the
    conversation and to the world. [step_clear] is the step of an edited
    command cancel: [cancel] has cleared [user_data] when it raises. *)
Inductive step : option conv_state -> world -> update -> runtime ->
                 option conv_state -> world -> Prop :=
| step_stay c w m r : step c w m r c w
| step_start w m r : step None w m r (Some NAME) w
| step_cancel s w m r : step (Some s) w m r None (World (heap w) ∅ (updates w))
| step_clear s w m r : step (Some s) w m r (Some s) (World (heap w) ∅ (updates w))
| step_name t w r :
    t ≠ "" ->
    step (Some NAME) w (Text t) r (Some FUNCTION)
      (World (heap w ++ [{[ "name" := VStr t ]}])%list
             (<["update_data" := length (heap w)]> (user_data w)) (updates w))
| step_field s key next t l w r :
    field_of s = Some (key, next) -> t ≠ "" ->
    user_data w !! "update_data" = Some l ->
    step (Some s) w (Text t) r (Some next)
      (World (alter (insert key (VStr t)) l (heap w)) (user_data w) (updates w))
| step_hours t hours l w r :
    py_float (str_replace "," "." t) = Some hours ->
    user_data w !! "update_data" = Some l ->
    step (Some HOURS_WORKED) w (Text t) r (Some UPDATE_TEXT)
      (World (alter (insert "hours_worked" (VFloat hours)) l (heap w))
             (user_data w) (updates w))
| step_photo (m : message) file_id l w r :
    last (message_photo m) = Some file_id ->
    user_data w !! "update_data" = Some l ->
    step (Some PHOTO) w m r None
      (World (alter (insert "date" (VStr (isoformat (now r))))
                    l (alter (insert "photo_id" (VStr file_id)) l (heap w)))
             ∅ (updates w ++ [l])%list).

(** [submittedAt] of the record behind [u]: its date, read back. *)
Definition submitted_at (w : world) (u : nat) : option datetime :=
  match deref w u !! "date" with
  | Some (VStr s) => fromisoformat s
  | _ => None
  end.

(** Every record of the store has a date that reads back. *)
Definition readable (w : world) : bool :=
  forallb (fun u => bool_decide (is_Some (submitted_at w u))) (updates w).

(** The records of the list whose [submittedAt] satisfies [p], in order. *)
Definition select (p : datetime -> bool) (w : world) (us : list nat) : list nat :=
  List.filter (fun u => match submitted_at w u with Some t => p t | None => false end) us.

(** The calendar date of [t] is that of [now]. *)
Definition same_day (now t : datetime) : bool := (date t =? date now)%Z.

(** A runtime and a session, to evaluate the handlers on: the clock shows
    2024-03-01 12:00:00.000001, the text service answers, and the session
    logs one update with 7,5 hours after a first answer that is no number. *)
Definition a_runtime : runtime :=
  Runtime (DateTime 738946 43200000001) (fun _ => Generated "ok") (fun _ => "7.5").

Definition a_session : list (update * runtime) :=
  (fun m : message => (Message m, a_runtime)) <$>
  [Command "update"; Text "Jan"; Text "Plumber"; Text "Acme"; Text "Roof"; Text "abc";
   Text "7,5"; Text "Pipes"; Text "None"; Photo ["s"; "m"; "l"]].

(** The world after [a_session]: one record in the store. *)
Definition one_record_world : world := snd (fst (run None initial_world a_session)).

(** The world of [a_session] when the hours are asked for. *)
Definition hours_world : world := snd (fst (run None initial_world (take 5 a_session))).

(** The conversation after a run that started in [c] and went through the
    conversations [cs]. *)
Definition final (c : option conv_state) (cs : list (option conv_state)) : option conv_state :=
  default c (last cs).

(** The text fields of a record. *)
Definition text_fields : list string :=
  ["name"; "function"; "company"; "location"; "update_text"; "planning"].

(** [d[k]] is a non-empty string; is a float; is a string. *)
Definition is_text (d : gmap string value) (k : string) : bool :=
  match d !! k with
  | Some (VStr t) => negb (String.eqb t "")
  | _ => false
  end.

Definition is_float (d : gmap string value) (k : string) : bool :=
  match d !! k with
  | Some (VFloat _) => true
  | _ => false
  end.

Definition is_str (d : gmap string value) (k : string) : bool :=
  match d !! k with
  | Some (VStr _) => true
  | _ => false
  end.


(** A record with all its fields: the six text fields are non-empty
    strings, the hours are a float, and there is one photo reference and
    one date, both strings. *)
Definition well_formed_record (d : gmap string value) : bool :=
  forallb (is_text d) text_fields && is_float d "hours_worked"
  && is_str d "photo_id" && is_str d "date".


(** The fields that have been collected when the conversation is in [s]. *)
Definition collected (s : conv_state) : list string :=
  match s with
  | NAME | END => []
  | FUNCTION => ["name"]
  | COMPANY => ["name"; "function"]
  | LOCATION => ["name"; "function"; "company"]
  | HOURS_WORKED => ["name"; "function"; "company"; "location"]
  | UPDATE_TEXT => ["name"; "function"; "company"; "location"; "hours_worked"]
  | PLANNING => ["name"; "function"; "company"; "location"; "hours_worked"; "update_text"]
  | PHOTO => ["name"; "function"; "company"; "location"; "hours_worked"; "update_text";
              "planning"]
  end.

Definition field_ok (d : gmap string value) (k : string) : bool :=
  if String.eqb k "hours_worked" then is_float d k else is_text d k.


(** The fields that the handlers after [get_name] store. *)
Definition later_fields : list string :=
  ["function"; "company"; "location"; "hours_worked"; "update_text"; "planning"].

(** [d] has no [k], or [d[k]] is what the handler of [k] stores. *)
Definition absent_or_ok (d : gmap string value) (k : string) : bool :=
  match d !! k with
  | Some _ => field_ok d k
  | None => true
  end.

(** A record in the making: the name is a non-empty string, and each of
    the later fields is missing or what its handler stores. *)
Definition pending_record (d : gmap string value) : bool :=
  is_text d "name" && forallb (absent_or_ok d) later_fields.

(** What the code guarantees of a committed record: a record in the making
    with one photo reference and one date, both strings. *)
Definition committed_record (d : gmap string value) : bool :=
  pending_record d && is_str d "photo_id" && is_str d "date".

(** Every reference of the store is allocated. *)
Definition wf (w : world) : Prop := Forall (fun u => u < length (heap w)) (updates w).

(** The records of the store are committed records. *)
Definition store_ok (w : world) : Prop :=
  Forall (fun u => committed_record (deref w u) = true) (updates w).

(** [user_data] has no other key than [update_data], which refers to a
    record in the making that is allocated and is not in the store; the
    conversation is never left in END. *)
Definition session_ok (c : option conv_state) (w : world) : Prop :=
  c ≠ Some END
  /\ forall k l, user_data w !! k = Some l ->
       k = "update_data" /\ l < length (heap w) /\ (l ∉ updates w)
       /\ pending_record (deref w l) = true.

Definition invariant (c : option conv_state) (w : world) : Prop :=
  wf w /\ store_ok w /\ session_ok c w.

(** The invariant of the application: that of every chat and user, and no
    two users share a record in the making. *)
Definition app_invariant (a : application) : Prop :=
  (forall chat user, invariant (conversations a !! (chat, user)) (world_of a user))
  /\ (forall user1 user2 l,
        user_data (world_of a user1) !! "update_data" = Some l ->
        user_data (world_of a user2) !! "update_data" = Some l -> user1 = user2).



(** The values that an update brings: its text, the float read from its
    text, the file of the largest size of its photo, and the time at which
    the photo is handled, as [isoformat] writes it. *)
Inductive supplied : update -> runtime -> value -> Prop :=
| supplied_text t r : supplied (Text t) r (VStr t)
| supplied_hours t r h :
    py_float (str_replace "," "." t) = Some h -> supplied (Text t) r (VFloat h)
| supplied_photo sizes r file_id :
    last sizes = Some file_id -> supplied (Photo sizes) r (VStr file_id)
| supplied_date sizes r : supplied (Photo sizes) r (VStr (isoformat (now r))).

(** Every value of the dictionary [d] was brought by one of the updates. *)
Definition from_inputs (ms : list (update * runtime)) (d : gmap string value) : Prop :=
  forall k v, d !! k = Some v -> exists m r, (m, r) ∈ ms /\ supplied m r v.

(** The state of a run that started in the world [w0] and has handled the
    updates [seen]: the store is the one of [w0], unchanged, followed by
    records made of values of [seen] only, and so is the partial record. *)
Definition run_invariant (w0 : world) (seen : list (update * runtime))
    (c : option conv_state) (w : world) : Prop :=
  wf w
  /\ (exists news, updates w = (updates w0 ++ news)%list
                   /\ Forall (fun u => from_inputs seen (deref w u)) news)
  /\ Forall (fun u => deref w u = deref w0 u) (updates w0)
  /\ match c with
     | Some s =>
         collected s ≠ [] ->
         forall l, user_data w !! "update_data" = Some l ->
                   l < length (heap w) /\ (l ∉ updates w) /\ from_inputs seen (deref w l)
     | None => True
     end.


(** A runtime whose text service fails. *)
Definition a_failing_runtime : runtime :=
  Runtime (DateTime 738946 43200000001) (fun _ => Failed "503 unavailable") (fun _ => "7.5").

(** A task description of 2000 characters and a world with the record of
    Jan of Acme who reports it. *)
Fixpoint str_repeat (c : ascii) (n : nat) : string :=
  match n with
  | O => EmptyString
  | S n' => String c (str_repeat c n')
  end.

Definition long_task : string := str_repeat "x" 2000.

Definition jan_world : world :=
  World [ <["photo_id" := VStr "p"]>
            (<["update_text" := VStr long_task]>
               (<["company" := VStr "Acme"]> {[ "name" := VStr "Jan" ]})) ] ∅ [0].

(** The updates of a second session, which is cancelled, and of a third. *)
Definition a_cancelled_session : list (update * runtime) :=
  (fun m : message => (Message m, a_runtime)) <$>
  [Text "Piet"; Text "Mason"; Other; Command "help"].

Definition another_session : list (update * runtime) :=
  (fun m : message => (Message m, a_runtime)) <$>
  [Command "update"; Text "Piet"; Text "Mason"; Text "Bouw"; Text "Cellar"; Text "8";
   Text "Walls"; Text "Ready"; Photo ["q"]].

(** ** Vocabulary of the further properties *)

(** The update is a new message with the command [/c], in any case of
    letters. *)
Definition is_command (c : string) (m : update) : bool :=
  match m with
  | Message (Command name) => String.eqb (str_lower name) c
  | _ => false
  end.

(** The kind of message that the state [s] takes: a non-empty text that is
    no command, or a photo in the state PHOTO. *)
Definition accepted_kind (s : conv_state) (m : update) : bool :=
  match s with
  | PHOTO => filters_PHOTO m
  | END => false
  | _ => text_not_command m
  end.

(** The handler that [main] registers for the state [s]. *)
Definition handler_of (s : conv_state) : update -> M conv_state :=
  match s with
  | NAME => get_name
  | FUNCTION => get_function
  | COMPANY => get_company
  | LOCATION => get_location
  | HOURS_WORKED => get_hours
  | UPDATE_TEXT => get_update_text
  | PLANNING => get_planning
  | PHOTO | END => get_photo
  end.

(** The conversation that follows the state [s] in the order of the
    prompts; after the photo the conversation is closed. *)
Definition following (s : conv_state) : option conv_state :=
  match s with
  | NAME => Some FUNCTION
  | FUNCTION => Some COMPANY
  | COMPANY => Some LOCATION
  | LOCATION => Some HOURS_WORKED
  | HOURS_WORKED => Some UPDATE_TEXT
  | UPDATE_TEXT => Some PLANNING
  | PLANNING => Some PHOTO
  | PHOTO | END => None
  end.

(** The prompt as a text. [shown r d k] is how the field [k] of the
    record [d] is shown, with N/A for a field that the record lacks;
    [record_block r i d] is the block of the record [d] under the number
    [i]; [record_blocks r w i us] puts the blocks of the records [us] one
    after the other, the record at position [k] under the number [i + k];
    the prompt is a head, which names the kind of report in lower case, the
    blocks numbered from 1, and a tail. *)
Definition shown (r : runtime) (d : gmap string value) (k : string) : string :=
  match d !! k with
  | None => "N/A"
  | Some VNone => "None"
  | Some (VStr s) => s
  | Some (VFloat x) => repr_float r x
  end.

Definition record_block (r : runtime) (i : nat) (d : gmap string value) : string :=
  "Update " ++ pretty i ++ ":" ++ nl
  ++ "- Name: " ++ shown r d "name" ++ nl
  ++ "- Function: " ++ shown r d "function" ++ nl
  ++ "- Company: " ++ shown r d "company" ++ nl
  ++ "- Location: " ++ shown r d "location" ++ nl
  ++ "- Hours Worked: " ++ shown r d "hours_worked" ++ nl
  ++ "- Task Description: " ++ shown r d "update_text" ++ nl
  ++ "- Planning Notes: " ++ shown r d "planning" ++ nl
  ++ "- A photo was submitted for this update (ID: " ++ shown r d "photo_id" ++ ")."
  ++ nl ++ nl.

Definition record_blocks (r : runtime) (w : world) (i : nat) (us : list nat) : string :=
  String.concat "" (imap (fun k u => record_block r (i + k) (deref w u)) us).

Definition prompt_head (report_type : string) : string :=
  "You are BouwBuddy AI, an expert construction project manager. "
  ++ "You will be given a series of raw " ++ str_lower report_type
  ++ " progress updates from a construction team. "
  ++ "Your task is to analyze all the updates and generate three distinct, professional reports in English."
  ++ nl ++ nl
  ++ "Here are the raw updates:" ++ nl
  ++ "-------------------------" ++ nl.

Definition prompt_tail : string :=
  "-------------------------" ++ nl
  ++ "Based on ALL the information above, please generate the following reports. Be concise and professional."
  ++ nl ++ nl
  ++ "1.  **Hours by Company:** Calculate the total hours worked for each company and list them."
  ++ nl ++ nl
  ++ "2.  **Technical Supervisor's Report:** Synthesize all updates into a technical summary. Mention specific tasks, progress, locations, and any potential blockers or delays mentioned in the planning notes. Refer to photos as evidence where relevant (e.g., '...as documented in the photo from [Name]')."
  ++ nl ++ nl
  ++ "3.  **Non-Technical Client Update:** Create a friendly, high-level summary for the client. Avoid technical jargon. Focus on visible progress and milestones. Be positive and reassuring.".

(** The update is an edited message. *)
Definition is_edited (m : update) : bool :=
  match m with
  | EditedMessage _ => true
  | Message _ => false
  end.

(** In the conversation [c] the update [m] goes to a handler that stores
    a field in the record in the making: in a state after NAME an update of
    the kind that the state takes, and for the hours one that [float]
    reads. *)
Definition stores_field (c : option conv_state) (m : update) : bool :=
  match c with
  | None | Some NAME | Some END => false
  | Some HOURS_WORKED =>
      accepted_kind HOURS_WORKED m
      && match message_text (effective_message m) with
         | VStr t => bool_decide (is_Some (py_float (str_replace "," "." t)))
         | _ => false
         end
  | Some s => accepted_kind s m
  end.

(** What [user_data] holds: nothing, or the one key [update_data], whose
    dictionary is allocated and is not a record of the store. *)
Definition session_data (w : world) : Prop :=
  user_data w = ∅
  \/ exists l, user_data w = {[ "update_data" := l ]}
               /\ l < length (heap w) /\ (l ∉ updates w).

(** The month and the day of the day [n] of a year, counted from 0, as the
    end of [ord2ymd] finds them. *)
Definition month_day (leapyear : bool) (n : Z) : Z * Z :=
  let month := Z.shiftr (n + 50) 5 in
  let preceding :=
    (table DAYS_BEFORE_MONTH month + (if (2 <? month)%Z && leapyear then 1 else 0))%Z in
  if (n <? preceding)%Z then
    let month := (month - 1)%Z in
    let preceding :=
      (preceding - (table DAYS_IN_MONTH month
                    + (if (month =? 2)%Z && leapyear then 1 else 0)))%Z in
    (month, (n - preceding + 1)%Z)
  else (month, (n - preceding + 1)%Z).

Definition month_day_ok (leapyear : bool) (n : Z) : bool :=
  let '(m, d) := month_day leapyear n in
  (1 <=? m)%Z && (m <=? 12)%Z && (1 <=? d)%Z
  && (d <=? (if (m =? 2)%Z && leapyear then 29 else table DAYS_IN_MONTH m))%Z
  && (table DAYS_BEFORE_MONTH m + (if (2 <? m)%Z && leapyear then 1 else 0) + d =? n + 1)%Z.

(** The clocks of the updates are valid datetimes. *)
Definition valid_clocks (ms : list (update * runtime)) : Prop :=
  Forall (fun mr => valid_datetime (now (snd mr))) ms.

(** The updates [ms] as updates of [user] in [chat]. *)
Definition in_chat (chat user : nat) (ms : list (update * runtime))
  : list (nat * nat * update * runtime) :=
  (fun mr => (chat, user, fst mr, snd mr)) <$> ms.

(** Every user talks to the bot in the private chat, whose identifier is
    that of the user. *)
Definition private_chat (chat user : nat) : Prop := chat = user.

(** The application after [a_session] of the user 7 in the private chat. *)
Definition an_application : application :=
  fst (application_run initial_application (in_chat 7 7 a_session)).

(** One user in two chats: the collection in chat 1 has come to the photo
    when the user starts another one in chat 2 and gives a name there; then
    the photo is sent in chat 1. *)
Definition two_chats : list (nat * nat * update * runtime) :=
  (in_chat 1 7 (take 9 a_session)
   ++ in_chat 2 7 [(Message (Command "update"), a_runtime); (Message (Text "Piet"), a_runtime)]
   ++ in_chat 1 7 [(Message (Photo ["s"; "m"; "l"]), a_runtime)])%list.

(** An edited command cancel in the middle of a collection, followed by the
    answer to the question that was open. *)
Definition an_edited_cancel : list (update * runtime) :=
  [(EditedMessage (Command "cancel"), a_runtime); (Message (Text "Acme"), a_runtime)].

(** A store with four dates as [isoformat] writes them, across a leap day:
    2024-03-01 00:01, the day before at 23:59, and six and eight days before
    the clock of [a_runtime]. *)
Definition dated_world : world :=
  World [ {[ "date" := VStr "2024-03-01T00:01:00" ]};
          {[ "date" := VStr "2024-02-29T23:59:00" ]};
          {[ "date" := VStr "2024-02-24T12:00:00.000001" ]};
          {[ "date" := VStr "2024-02-22T12:00:00.000001" ]} ] ∅ [0; 1; 2; 3].

(** The world of [a_session] when the photo is asked for, and a world whose
    one record has no photo reference. *)
Definition photo_world : world := snd (fst (run None initial_world (take 9 a_session))).

Definition no_photo_world : world := World [ {[ "name" := VStr "Jan" ]} ] ∅ [0].

(** * Properties *)

(** From here on [++] appends lists and [+:+] appends strings. *)
Open Scope list_scope.

(** ** Running handlers *)

Ltac unfold_monad :=
  unfold message_reply_text, update_message, mbind, M_bind, bind, mret, M_ret, ret, raise,
    try_except, emit, reply_text, reply_markdown, after in *.

Lemma run_bind {A B} (m : M A) (f : A -> M B) r w :
  (m ≫= f) r w =
    match m r w with
    | Ret a w' out => after out (f a r w')
    | Raise e w' out => Raise e w' out
    end.
Proof. reflexivity. Qed.

Lemma text_not_command_Text t : t ≠ "" -> text_not_command (Text t) = true.
Proof.
  intros Ht. unfold text_not_command, filters_TEXT. simpl.
  destruct (String.eqb_spec t ""); [contradiction | reflexivity].
Qed.

Lemma alter_last {A} (f : A -> A) (h : list A) (d : A) :
  alter f (length h) (h ++ [d]) = h ++ [f d].
Proof.
  replace (length h) with (length h + 0) by lia.
  rewrite alter_app_r. reflexivity.
Qed.

Lemma process_NAME t r w :
  t ≠ "" ->
  process_update (Some NAME) (Text t) r w =
    (Some FUNCTION,
     World (heap w ++ [{[ "name" := VStr t ]}])
           (<["update_data" := length (heap w)]> (user_data w)) (updates w),
     [ReplyText "Got it. What is your function or role? (e.g., Electrician, Plumber)"]).
Proof.
  intros Ht. unfold process_update, conv_check_update, first_match. simpl.
  rewrite (text_not_command_Text t Ht). reflexivity.
Qed.

(** A handler that stores the text of the message under [key]. *)
Lemma store_field key reply (next : conv_state) (m : message) r w l :
  user_data w !! "update_data" = Some l ->
  ((m' ← update_message m;
    l ← user_data_getitem "update_data";
    setitem l key (message_text m');;
    message_reply_text m reply;;
    mret next) : M conv_state) r w
  = Ret next (World (alter (insert key (message_text m)) l (heap w)) (user_data w) (updates w))
        [ReplyText reply].
Proof.
  intros Hl. unfold_monad. unfold user_data_getitem, setitem. rewrite Hl. reflexivity.
Qed.

Ltac step_text Ht Hl :=
  unfold process_update, conv_check_update, first_match; simpl;
  rewrite (text_not_command_Text _ Ht);
  simpl;
  match goal with
  | |- context [?h (Message (Text ?t)) ?r ?w] =>
      unfold h; rewrite (store_field _ _ _ (Text t) r w _ Hl)
  end;
  reflexivity.

Lemma process_FUNCTION t r w l :
  t ≠ "" -> user_data w !! "update_data" = Some l ->
  process_update (Some FUNCTION) (Text t) r w =
    (Some COMPANY,
     World (alter (insert "function" (VStr t)) l (heap w)) (user_data w) (updates w),
     [ReplyText "Great. What company do you work for?"]).
Proof. intros Ht Hl. step_text Ht Hl. Qed.

Lemma process_COMPANY t r w l :
  t ≠ "" -> user_data w !! "update_data" = Some l ->
  process_update (Some COMPANY) (Text t) r w =
    (Some LOCATION,
     World (alter (insert "company" (VStr t)) l (heap w)) (user_data w) (updates w),
     [ReplyText "Where on the site did you work today? (e.g., Second Floor, West Wing)"]).
Proof. intros Ht Hl. step_text Ht Hl. Qed.

Lemma process_LOCATION t r w l :
  t ≠ "" -> user_data w !! "update_data" = Some l ->
  process_update (Some LOCATION) (Text t) r w =
    (Some HOURS_WORKED,
     World (alter (insert "location" (VStr t)) l (heap w)) (user_data w) (updates w),
     [ReplyText "How many hours did you work?"]).
Proof. intros Ht Hl. step_text Ht Hl. Qed.

Lemma process_UPDATE_TEXT t r w l :
  t ≠ "" -> user_data w !! "update_data" = Some l ->
  process_update (Some UPDATE_TEXT) (Text t) r w =
    (Some PLANNING,
     World (alter (insert "update_text" (VStr t)) l (heap w)) (user_data w) (updates w),
     [ReplyText "Any notes on planning? (e.g., 'Blocked by other team', 'Ready for inspection')"]).
Proof. intros Ht Hl. step_text Ht Hl. Qed.

Lemma process_PLANNING t r w l :
  t ≠ "" -> user_data w !! "update_data" = Some l ->
  process_update (Some PLANNING) (Text t) r w =
    (Some PHOTO,
     World (alter (insert "planning" (VStr t)) l (heap w)) (user_data w) (updates w),
     [ReplyText "Perfect. Now, please send one photo of your work."]).
Proof. intros Ht Hl. step_text Ht Hl. Qed.

(** [get_hours] on a text: the two branches of the [try]. *)
Lemma get_hours_Text t r w :
  get_hours (Text t) r w =
    match py_float (str_replace "," "." t) with
    | Some hours =>
        match user_data w !! "update_data" with
        | Some l =>
            Ret UPDATE_TEXT
              (World (alter (insert "hours_worked" (VFloat hours)) l (heap w))
                     (user_data w) (updates w))
              [ReplyText "Thanks. Please describe the work you completed today."]
        | None => Raise (KeyError "update_data") w []
        end
    | None =>
        Ret HOURS_WORKED w
          [ReplyText "That doesn't look like a valid number. Please enter the hours again."]
    end.
Proof.
  unfold get_hours, replace_comma, float. simpl. unfold_monad. simpl.
  destruct (py_float _) as [hours|]; [|reflexivity].
  unfold user_data_getitem, setitem.
  destruct (user_data w !! "update_data"); reflexivity.
Qed.

Lemma process_HOURS_WORKED t r w :
  t ≠ "" ->
  process_update (Some HOURS_WORKED) (Text t) r w =
    match get_hours (Text t) r w with
    | Ret s w' out => (update_state s, w', out)
    | Raise _ w' out => (Some HOURS_WORKED, w', out)
    end.
Proof.
  intros Ht. unfold process_update, conv_check_update, first_match. simpl.
  rewrite (text_not_command_Text _ Ht). reflexivity.
Qed.

Lemma get_photo_Photo sizes file_id r w l :
  last sizes = Some file_id -> user_data w !! "update_data" = Some l ->
  get_photo (Photo sizes) r w =
    Ret END
      (World (alter (insert "date" (VStr (isoformat (now r))))
                    l (alter (insert "photo_id" (VStr file_id)) l (heap w)))
             ∅ (updates w ++ [l]))
      [ReplyText "Thank you! Your update has been logged successfully. Use /daily_report or /weekly_report to see the summary."].
Proof.
  intros Hlast Hl. unfold get_photo, get_file. unfold_monad. simpl. rewrite Hlast.
  unfold user_data_getitem, setitem, datetime_now, db_append, user_data_clear.
  simpl. repeat (rewrite Hl; simpl). reflexivity.
Qed.

Lemma filters_PHOTO_last sizes file_id :
  last sizes = Some file_id -> filters_PHOTO (Photo sizes) = true.
Proof. destruct sizes; [discriminate | reflexivity]. Qed.

Lemma process_PHOTO sizes file_id r w l :
  last sizes = Some file_id -> user_data w !! "update_data" = Some l ->
  process_update (Some PHOTO) (Photo sizes) r w =
    (None,
     World (alter (insert "date" (VStr (isoformat (now r))))
                  l (alter (insert "photo_id" (VStr file_id)) l (heap w)))
           ∅ (updates w ++ [l]),
     [ReplyText "Thank you! Your update has been logged successfully. Use /daily_report or /weekly_report to see the summary."]).
Proof.
  intros Hlast Hl. unfold process_update, conv_check_update, first_match. simpl.
  rewrite (filters_PHOTO_last _ _ Hlast). simpl.
  rewrite (get_photo_Photo _ _ _ _ _ Hlast Hl). reflexivity.
Qed.

(** ** The field collection state machine *)

(** C1. Eight inputs of the right kind, fed from the state NAME (seven
    non-empty texts, the fifth of which [float] reads, then a photo), take the
    conversation through every state in order and close it at the last input
    only; exactly one record is appended to the store, a new dictionary whose
    text fields are the inputs, whose hours are the value read, whose photo is
    the file of the largest size and whose date is the time of the commit. *)
Theorem collection_commits_one_record
    w name function company location hours h update_text planning sizes photo_id
    r1 r2 r3 r4 r5 r6 r7 r8 :
  name ≠ "" -> function ≠ "" -> company ≠ "" -> location ≠ "" ->
  py_float (str_replace "," "." hours) = Some h ->
  update_text ≠ "" -> planning ≠ "" ->
  last sizes = Some photo_id ->
  run (Some NAME) w
      [(Text name, r1); (Text function, r2); (Text company, r3); (Text location, r4);
       (Text hours, r5); (Text update_text, r6); (Text planning, r7); (Photo sizes, r8)]
  = ([Some FUNCTION; Some COMPANY; Some LOCATION; Some HOURS_WORKED; Some UPDATE_TEXT;
      Some PLANNING; Some PHOTO; None],
     World (heap w ++
            [<["date" := VStr (isoformat (now r8))]>
               (<["photo_id" := VStr photo_id]>
                  (<["planning" := VStr planning]>
                     (<["update_text" := VStr update_text]>
                        (<["hours_worked" := VFloat h]>
                           (<["location" := VStr location]>
                              (<["company" := VStr company]>
                                 (<["function" := VStr function]>
                                    {[ "name" := VStr name ]})))))))])
           ∅ (updates w ++ [length (heap w)]),
     [ReplyText "Got it. What is your function or role? (e.g., Electrician, Plumber)";
      ReplyText "Great. What company do you work for?";
      ReplyText "Where on the site did you work today? (e.g., Second Floor, West Wing)";
      ReplyText "How many hours did you work?";
      ReplyText "Thanks. Please describe the work you completed today.";
      ReplyText "Any notes on planning? (e.g., 'Blocked by other team', 'Ready for inspection')";
      ReplyText "Perfect. Now, please send one photo of your work.";
      ReplyText "Thank you! Your update has been logged successfully. Use /daily_report or /weekly_report to see the summary."]).
Proof.
  intros Hn Hf Hc Hl Hh Hu Hp Hs.
  assert (Hh' : hours ≠ "") by (intros ->; discriminate Hh).
  set (l := length (heap w)).
  assert (Hud : forall h', user_data (World h' (<["update_data" := l]> (user_data w)) (updates w))
                           !! "update_data" = Some l)
    by (intros; apply lookup_insert_eq).
  unfold run.
  rewrite (process_NAME _ _ _ Hn).
  rewrite (process_FUNCTION _ _ _ l Hf (Hud _)). simpl heap. simpl user_data. simpl updates.
  rewrite (process_COMPANY _ _ _ l Hc (Hud _)). simpl heap. simpl user_data. simpl updates.
  rewrite (process_LOCATION _ _ _ l Hl (Hud _)). simpl heap. simpl user_data. simpl updates.
  rewrite (process_HOURS_WORKED _ _ _ Hh'), get_hours_Text, Hh, (Hud _).
  simpl heap. simpl user_data. simpl updates.
  rewrite (process_UPDATE_TEXT _ _ _ l Hu (Hud _)). simpl heap. simpl user_data. simpl updates.
  rewrite (process_PLANNING _ _ _ l Hp (Hud _)). simpl heap. simpl user_data. simpl updates.
  rewrite (process_PHOTO _ _ _ _ l Hs (Hud _)). simpl heap. simpl user_data. simpl updates.
  subst l. rewrite !alter_last. reflexivity.
Qed.

(** ** Computations that only read the world *)

Create HintDb reads discriminated.

Lemma outcome_world_after {A} out (o : outcome A) :
  outcome_world (after out o) = outcome_world o.
Proof. destruct o; reflexivity. Qed.

Lemma outcome_out_after {A} out (o : outcome A) :
  outcome_out (after out o) = out ++ outcome_out o.
Proof. destruct o; reflexivity. Qed.

Lemma reads_only_bind {A B} (m : M A) (f : A -> M B) :
  reads_only m -> (forall a, reads_only (f a)) -> reads_only (m ≫= f).
Proof.
  intros Hm Hf r w. unfold mbind, M_bind, bind.
  specialize (Hm r w). destruct (m r w) as [a w' out|e w' out]; simpl in *; subst.
  - rewrite outcome_world_after. apply Hf.
  - reflexivity.
Qed.

Lemma reads_only_try {A} (m : M A) h :
  reads_only m -> (forall e k, h e = Some k -> reads_only k) -> reads_only (try_except m h).
Proof.
  intros Hm Hh r w. unfold try_except.
  specialize (Hm r w). destruct (m r w) as [a w' out|e w' out]; simpl in *; subst.
  - reflexivity.
  - destruct (h e) as [k|] eqn:He; [|reflexivity].
    rewrite outcome_world_after. eapply Hh; eassumption.
Qed.

Lemma silent_bind {A B} (m : M A) (f : A -> M B) :
  silent m -> (forall a, silent (f a)) -> silent (m ≫= f).
Proof.
  intros Hm Hf r w. unfold mbind, M_bind, bind.
  destruct (Hm r w) as [Hw Ho]. destruct (m r w) as [a w' out|e w' out]; simpl in *; subst.
  - rewrite outcome_world_after, outcome_out_after. apply Hf.
  - split; reflexivity.
Qed.

Lemma silent_reads_only {A} (m : M A) : silent m -> reads_only m.
Proof. intros H r w. apply H. Qed.

Lemma silent_ret {A} (a : A) : silent (mret a).
Proof. split; reflexivity. Qed.

Lemma silent_raise {A} e : silent (@raise A e).
Proof. split; reflexivity. Qed.

Lemma silent_getitem l k : silent (getitem l k).
Proof. intros r w. unfold getitem. destruct (deref w l !! k); split; reflexivity. Qed.

Lemma silent_dict_get l k d : silent (dict_get l k d).
Proof. split; reflexivity. Qed.

Lemma silent_contains l k : silent (contains l k).
Proof. split; reflexivity. Qed.

Lemma silent_format v : silent (format v).
Proof. split; reflexivity. Qed.

Lemma silent_datetime_now : silent datetime_now.
Proof. split; reflexivity. Qed.

Lemma silent_db_updates : silent db_updates.
Proof. split; reflexivity. Qed.

Lemma silent_parse_date v : silent (parse_date v).
Proof.
  intros r w. unfold parse_date. destruct v as [|s|]; try (split; reflexivity).
  destruct (fromisoformat s); split; reflexivity.
Qed.

Lemma silent_InputMediaPhoto kwargs : silent (InputMediaPhoto kwargs).
Proof.
  intros r w. unfold InputMediaPhoto.
  destruct (forallb _ kwargs); [|split; reflexivity].
  destruct (keyword "media" kwargs) as [[| |]|]; split; reflexivity.
Qed.

Lemma reads_only_emit e : reads_only (emit e).
Proof. intros r w. reflexivity. Qed.

Lemma silent_update_message m : silent (update_message m).
Proof. destruct m; split; reflexivity. Qed.

Lemma reads_only_message_reply_text m text : reads_only (message_reply_text m text).
Proof.
  unfold message_reply_text.
  apply reads_only_bind; [apply silent_reads_only, silent_update_message|].
  intros _. apply reads_only_emit.
Qed.

Lemma reads_only_model_generate_content p : reads_only (model_generate_content p).
Proof. intros r w. unfold model_generate_content. destruct (generate_content r p); reflexivity. Qed.

#[local] Hint Resolve silent_ret silent_raise silent_getitem silent_dict_get silent_contains
  silent_format silent_datetime_now silent_db_updates silent_parse_date
  silent_InputMediaPhoto : reads.
#[local] Hint Resolve reads_only_emit reads_only_model_generate_content : reads.
#[local] Hint Extern 1 (reads_only (reply_text _)) => apply reads_only_emit : reads.
#[local] Hint Extern 1 (reads_only (reply_markdown _)) => apply reads_only_emit : reads.
#[local] Hint Extern 1 (reads_only (send_media_group _)) => apply reads_only_emit : reads.
#[local] Hint Extern 1 (reads_only (mret _)) => apply silent_reads_only, silent_ret : reads.

Ltac silent_steps :=
  repeat first
    [ apply silent_bind; [| intros ?]
    | solve [auto with reads]
    | match goal with |- silent (if ?b then _ else _) => destruct b end
    | match goal with |- silent (match ?x with _ => _ end) => destruct x end ].

Ltac reads_steps :=
  repeat first
    [ apply reads_only_bind; [| intros ?]
    | solve [auto with reads]
    | apply silent_reads_only; solve [silent_steps]
    | match goal with |- reads_only (if ?b then _ else _) => destruct b end
    | match goal with |- reads_only (match ?x with _ => _ end) => destruct x end ].

Lemma silent_prompt_blocks us : forall i, silent (prompt_blocks i us).
Proof.
  induction us as [|u us IH]; intros i; simpl; [apply silent_ret|].
  silent_steps; apply IH.
Qed.

Lemma silent_build_prompt us rt : silent (build_prompt us rt).
Proof. unfold build_prompt. apply silent_bind; [apply silent_prompt_blocks | intros; apply silent_ret]. Qed.

Lemma silent_media_arguments u : silent (media_arguments u).
Proof. unfold media_arguments. silent_steps. Qed.

Lemma silent_collect_media us : forall mg, silent (collect_media us mg).
Proof.
  induction us as [|u us IH]; intros mg; simpl; [apply silent_ret|].
  apply silent_bind; [apply silent_contains|]. intros [|]; [|apply IH].
  apply silent_bind; [|intros; apply IH].
  apply silent_bind; [apply silent_media_arguments | apply silent_InputMediaPhoto].
Qed.

Lemma silent_comprehension cond us :
  (forall u, silent (cond u)) -> silent (comprehension cond us).
Proof.
  intros Hc. induction us as [|u us IH]; simpl; [apply silent_ret|].
  apply silent_bind; [apply Hc|]. intros keep.
  apply silent_bind; [apply IH|]. intros rest. apply silent_ret.
Qed.

Lemma silent_todays_updates : silent todays_updates.
Proof.
  unfold todays_updates. apply silent_bind; [apply silent_datetime_now|]. intros t.
  apply silent_bind; [apply silent_db_updates|]. intros us.
  apply silent_comprehension. intros u. silent_steps.
Qed.

Lemma silent_seven_days_ago : silent seven_days_ago.
Proof. unfold seven_days_ago. silent_steps. Qed.

Lemma silent_weekly_updates : silent weekly_updates.
Proof.
  unfold weekly_updates. apply silent_bind; [apply silent_seven_days_ago|]. intros t.
  apply silent_bind; [apply silent_db_updates|]. intros us.
  apply silent_comprehension. intros u. silent_steps.
Qed.

Lemma reads_only_for_each {A} (l : list A) body :
  (forall x, reads_only (body x)) -> reads_only (for_each l body).
Proof.
  intros Hb. induction l as [|x l IH]; simpl; [apply silent_reads_only, silent_ret|].
  apply reads_only_bind; [apply Hb | intros; apply IH].
Qed.

Lemma reads_only_generate_and_send_report us rt : reads_only (generate_and_send_report us rt).
Proof.
  unfold generate_and_send_report.
  apply reads_only_bind; [apply reads_only_emit|]. intros _.
  apply reads_only_bind.
  - apply reads_only_try.
    + apply reads_only_bind; [apply silent_reads_only, silent_build_prompt|]. intros p.
      reads_steps.
    + intros e k [= <-]. reads_steps.
  - intros [|]; [apply silent_reads_only, silent_ret|].
    destruct us as [|u us]; [apply silent_reads_only, silent_ret|].
    apply reads_only_bind; [apply reads_only_emit|]. intros _.
    apply reads_only_bind; [apply silent_reads_only, silent_collect_media|]. intros mg.
    destruct mg as [|item mg]; [apply reads_only_emit|].
    apply reads_only_for_each. intros k. apply reads_only_emit.
Qed.

Lemma reads_only_daily_report m : reads_only (daily_report m).
Proof.
  unfold daily_report. apply reads_only_bind; [apply silent_reads_only, silent_todays_updates|].
  intros [|u us]; [apply reads_only_message_reply_text|].
  apply reads_only_bind; [apply silent_reads_only, silent_update_message|].
  intros _. apply reads_only_generate_and_send_report.
Qed.

Lemma reads_only_weekly_report m : reads_only (weekly_report m).
Proof.
  unfold weekly_report. apply reads_only_bind; [apply silent_reads_only, silent_weekly_updates|].
  intros [|u us]; [apply reads_only_message_reply_text|].
  apply reads_only_bind; [apply silent_reads_only, silent_update_message|].
  intros _. apply reads_only_generate_and_send_report.
Qed.

(** A silent computation that returns: the world and the trace are known. *)
Lemma silent_Ret {A} (m : M A) r w a w' out :
  silent m -> m r w = Ret a w' out -> w' = w /\ out = [].
Proof. intros Hm H. destruct (Hm r w) as [Hw Ho]. rewrite H in Hw, Ho. auto. Qed.

(** ** The report aggregator: empty window and failure of the text service *)

(** C4. When the selection of a window, daily or weekly, comes out empty,
    the report handler answers that there is nothing to report and does
    nothing else: the world is unchanged, the text service is not called and
    no media group is sent. *)
Theorem empty_window_short_circuit win m r w w' out :
  window_updates win r w = Ret [] w' out ->
  report win m r w = Ret tt w [ReplyText (nothing_to_report win)]
  /\ existsb calls_service (outcome_out (report win m r w)) = false
  /\ existsb sends_media (outcome_out (report win m r w)) = false.
Proof.
  intros Hsel.
  assert (Hrun : report win m r w = Ret tt w [ReplyText (nothing_to_report win)]).
  { destruct win; simpl in *.
    - destruct (silent_Ret _ _ _ _ _ _ silent_todays_updates Hsel) as [-> ->].
      unfold daily_report. unfold_monad. rewrite Hsel. reflexivity.
    - destruct (silent_Ret _ _ _ _ _ _ silent_weekly_updates Hsel) as [-> ->].
      unfold weekly_report. unfold_monad. rewrite Hsel. reflexivity. }
  rewrite Hrun. auto.
Qed.

Lemma prompt_blocks_returns us r w : forall i, exists blocks, prompt_blocks i us r w = Ret blocks w [].
Proof.
  induction us as [|u us IH]; intros i; simpl.
  - eexists. reflexivity.
  - destruct (IH (S i)) as [blocks Hb].
    unfold_monad. unfold dict_get, format. simpl. rewrite Hb. simpl. eexists. reflexivity.
Qed.

(** [build_prompt] always returns, reads only and sends nothing. *)
Lemma build_prompt_returns us rt r w : exists prompt, build_prompt us rt r w = Ret prompt w [].
Proof.
  unfold build_prompt. destruct (prompt_blocks_returns us r w 1) as [blocks Hb].
  unfold_monad. rewrite Hb. eexists. reflexivity.
Qed.

(** C5. When the text service fails on the prompt of the report, the user
    gets the notice that the report is being generated and then one message
    that the generation failed; the error itself goes to the log only, no
    part of a report and no media group is sent, and the world, the store
    included, is unchanged. *)
Theorem generation_failure_is_reported updates_data report_type r w prompt msg :
  build_prompt updates_data report_type r w = Ret prompt w [] ->
  generate_content r prompt = Failed msg ->
  generate_and_send_report updates_data report_type r w =
    Ret tt w
      [ReplyText ("Generating the " +:+ report_type
                  +:+ " Report... The AI is thinking, this may take a moment.");
       GenerateContent prompt;
       LogError ("Error generating AI report: " +:+ msg);
       ReplyText "Sorry, there was an error while generating the AI report. Please try again later."]
  /\ existsb sends_media
       (outcome_out (generate_and_send_report updates_data report_type r w)) = false.
Proof.
  intros Hp Hg.
  assert (Hrun : generate_and_send_report updates_data report_type r w =
    Ret tt w
      [ReplyText ("Generating the " +:+ report_type
                  +:+ " Report... The AI is thinking, this may take a moment.");
       GenerateContent prompt;
       LogError ("Error generating AI report: " +:+ msg);
       ReplyText "Sorry, there was an error while generating the AI report. Please try again later."]).
  { unfold generate_and_send_report. unfold_monad. simpl. rewrite Hp.
    unfold model_generate_content. rewrite Hg. reflexivity. }
  rewrite Hrun. auto.
Qed.

(** ** Captions *)

Lemma length_str_take n s : String.length (str_take n s) = min n (String.length s).
Proof.
  revert s. induction n as [|n IH]; intros [|c s]; simpl; try reflexivity.
  rewrite IH. reflexivity.
Qed.

Lemma str_take_app n s t :
  n = String.length s -> str_take n (s +:+ t) = s.
Proof.
  intros ->. induction s as [|c s IH]; simpl.
  - destruct t; reflexivity.
  - rewrite IH. reflexivity.
Qed.

Lemma str_take_take n k s : n <= k -> str_take n (str_take k s) = str_take n s.
Proof.
  revert k s. induction n as [|n IH]; intros [|k] [|c s] Hnk; simpl; try reflexivity; try lia.
  rewrite IH by lia. reflexivity.
Qed.

Lemma length_append s t : String.length (s +:+ t) = String.length s + String.length t.
Proof. induction s as [|c s IH]; simpl; [reflexivity | rewrite IH; reflexivity]. Qed.

(** C7. For a record with a photo reference whose name, company and task
    description are strings, the caption that the loop passes to
    [InputMediaPhoto] is the text [name (company) - task] cut after 1024
    characters. With the name Jan, the company Acme and a task description
    of 2000 characters, the caption has exactly 1024 characters and starts
    with [Jan (Acme) - ]. *)
Theorem caption_is_truncated u r w name company task photo_id :
  deref w u !! "name" = Some (VStr name) ->
  deref w u !! "company" = Some (VStr company) ->
  deref w u !! "update_text" = Some (VStr task) ->
  deref w u !! "photo_id" = Some photo_id ->
  let caption := name +:+ " (" +:+ company +:+ ") - " +:+ task in
  media_arguments u r w =
    Ret [("media_id", photo_id); ("caption", VStr (str_take 1024 caption))] w []
  /\ String.length (str_take 1024 caption) = min 1024 (String.length caption)
  /\ (name = "Jan" -> company = "Acme" -> String.length task = 2000 ->
      String.length (str_take 1024 caption) = 1024
      /\ str_take 13 (str_take 1024 caption) = "Jan (Acme) - ").
Proof.
  intros Hn Hc Ht Hp caption. split; [|split].
  - unfold media_arguments. unfold_monad. unfold getitem, format.
    rewrite Hn. simpl. rewrite Hc. simpl. rewrite Ht. simpl. rewrite Hp. reflexivity.
  - apply length_str_take.
  - intros -> -> Hlen. split.
    + rewrite length_str_take. subst caption.
      change ("Jan" +:+ " (" +:+ "Acme" +:+ ") - " +:+ task) with ("Jan (Acme) - " +:+ task).
      rewrite length_append, Hlen. reflexivity.
    + rewrite str_take_take by lia. subst caption.
      change ("Jan" +:+ " (" +:+ "Acme" +:+ ") - " +:+ task) with ("Jan (Acme) - " +:+ task).
      apply str_take_app. reflexivity.
Qed.

(** ** The media group *)

Lemma for_each_emit {A} (l : list A) (f : A -> event) r w :
  for_each l (fun x => emit (f x)) r w = Ret tt w (f <$> l).
Proof.
  induction l as [|x l IH]; simpl; [reflexivity|].
  unfold_monad. rewrite IH. reflexivity.
Qed.

Lemma chunks_from {A} k : forall l : list A,
  length l <= 10 * k ->
  concat ((fun j => take 10 (drop (j * 10) l)) <$> seq 0 k) = l.
Proof.
  induction k as [|k IH]; intros l Hl.
  - destruct l; [reflexivity | simpl in Hl; lia].
  - rewrite <- cons_seq, <- fmap_S_seq. rewrite fmap_cons, <- list_fmap_compose.
    simpl concat. rewrite drop_0.
    transitivity (take 10 l ++ drop 10 l); [|apply take_drop].
    f_equal.
    transitivity (concat ((fun j => take 10 (drop (j * 10) (drop 10 l))) <$> seq 0 k)).
    + f_equal. apply list_fmap_ext. intros _ j _. simpl.
      rewrite drop_drop. reflexivity.
    + apply IH. rewrite length_drop. lia.
Qed.

(** The loop of [generate_and_send_report] that sends a media group cuts it
    well: one send per chunk, in order, [ceil(n/10)] chunks of at most ten
    items, which put together give the group back. *)
Lemma send_in_chunks_sends_chunks (media_group : list input_media_photo) r w :
  send_in_chunks media_group r w = Ret tt w (SendMediaGroup <$> chunks media_group)
  /\ concat (chunks media_group) = media_group
  /\ length (chunks media_group) = (length media_group + 9) / 10
  /\ Forall (fun c => length c <= 10) (chunks media_group).
Proof.
  unfold send_in_chunks, send_media_group, chunks, range_step.
  split; [|split; [|split]].
  - rewrite (for_each_emit _ (fun i => SendMediaGroup (slice media_group i (i + 10)))).
    rewrite <- !list_fmap_compose. reflexivity.
  - rewrite <- list_fmap_compose.
    transitivity (concat ((fun j => take 10 (drop (j * 10) media_group))
                            <$> seq 0 ((length media_group + 10 - 1) / 10))).
    + f_equal. apply list_fmap_ext. intros _ j _. simpl. unfold slice.
      f_equal. lia.
    + apply chunks_from.
      pose proof (Nat.div_mod_eq (length media_group + 10 - 1) 10) as Hd.
      pose proof (Nat.mod_upper_bound (length media_group + 10 - 1) 10). lia.
  - rewrite !length_fmap, length_seq. f_equal. lia.
  - rewrite Forall_fmap. apply Forall_forall. intros i _. simpl. unfold slice.
    rewrite length_take. lia.
Qed.

Lemma InputMediaPhoto_rejects_media_id photo_id caption r w :
  InputMediaPhoto [("media_id", photo_id); ("caption", caption)] r w = Raise TypeError w [].
Proof. reflexivity. Qed.

Lemma media_item_raises u r w :
  exists e, (media_arguments u ≫= InputMediaPhoto) r w = Raise e w [].
Proof.
  unfold media_arguments. unfold_monad. unfold getitem, format.
  repeat match goal with
         | |- context [deref w u !! ?k] => destruct (deref w u !! k); simpl; eauto
         end.
Qed.

(** No item ever joins the media group: building it raises. *)
Lemma collect_media_collects_nothing us : forall mg r w mg' w' out,
  collect_media us mg r w = Ret mg' w' out -> mg' = mg.
Proof.
  induction us as [|u us IH]; intros mg r w mg' w' out; simpl.
  - intros [= <- _ _]. reflexivity.
  - rewrite run_bind. unfold contains at 1.
    destruct (bool_decide _); simpl.
    + rewrite run_bind.
      destruct (media_item_raises u r w) as [e ->]. discriminate.
    + destruct (collect_media us mg r w) eqn:Hc; [|discriminate].
      simpl. intros [= <- _ _]. eapply IH. eassumption.
Qed.

(** Whatever the records and the answer of the text service,
    [generate_and_send_report] hands no media group to the transport. *)
Lemma media_group_is_never_sent updates_data report_type r w :
  existsb sends_media
    (outcome_out (generate_and_send_report updates_data report_type r w)) = false.
Proof.
  unfold generate_and_send_report. unfold_monad. simpl.
  destruct (build_prompt_returns updates_data report_type r w) as [p ->]. simpl.
  unfold model_generate_content. destruct (generate_content r p); [|reflexivity].
  simpl. destruct updates_data as [|u us]; [reflexivity|].
  remember (collect_media (u :: us) []) as collect eqn:Hcollect. simpl.
  destruct (collect r w) as [mg w' out|e w' out] eqn:Hc; subst collect.
  - destruct (silent_Ret _ _ _ _ _ _ (silent_collect_media _ _) Hc) as [-> ->].
    apply collect_media_collects_nothing in Hc as ->. reflexivity.
  - destruct (silent_collect_media (u :: us) [] r w) as [_ Ho]. rewrite Hc in Ho.
    simpl in Ho. subst out. reflexivity.
Qed.

(** C6, on the code as it is. With one record in the store, logged by the
    conversation with a photo, and a text service that answers, the daily
    report sends the text of the report and the heading of the photos, and
    then stops with a [TypeError] at [InputMediaPhoto(media_id=...)]: the
    media group stays empty and nothing is handed to [send_media_group]. *)
Theorem photos_of_a_report_are_not_sent :
  exists prompt,
    daily_report (Command "daily_report") a_runtime one_record_world =
      Raise TypeError one_record_world
        [ReplyText "Generating the Daily Report... The AI is thinking, this may take a moment.";
         GenerateContent prompt;
         ReplyMarkdown "--- *Daily Report* ---";
         ReplyMarkdown "ok";
         ReplyMarkdown "*Submitted Photos for this period:*"].
Proof. eexists. vm_compute. reflexivity. Qed.

(** ** The windows *)

Lemma comprehension_select (p : datetime -> bool) r w : forall us,
  forallb (fun u => bool_decide (is_Some (submitted_at w u))) us = true ->
  comprehension (fun u => t ← getitem u "date" ≫= parse_date; mret (p t)) us r w
  = Ret (select p w us) w [].
Proof.
  induction us as [|u us IH]; intros Hr; [reflexivity|].
  simpl in Hr. apply andb_prop in Hr as [Hu Hus].
  apply bool_decide_eq_true in Hu as [t Ht].
  simpl. rewrite Ht. rewrite run_bind.
  assert (Hcond : (t ← getitem u "date" ≫= parse_date; mret (p t)) r w = Ret (p t) w []).
  { unfold submitted_at in Ht. unfold_monad. unfold getitem, parse_date.
    destruct (deref w u !! "date") as [[|s|]|]; try discriminate.
    simpl. rewrite Ht. reflexivity. }
  rewrite Hcond. simpl. rewrite run_bind, (IH Hus). reflexivity.
Qed.

Lemma elem_of_select p w us u :
  u ∈ select p w us <-> u ∈ us /\ exists t, submitted_at w u = Some t /\ p t = true.
Proof.
  unfold select. rewrite !list_elem_of_In, filter_In. split.
  - intros [Hu Hp]. split; [assumption|].
    destruct (submitted_at w u) as [t|]; [eauto | discriminate].
  - intros [Hu (t & Ht & Hp)]. split; [assumption|]. rewrite Ht. assumption.
Qed.

(** C8. On a store whose dates read back and with a valid clock, the daily
    window selects exactly the records whose [submittedAt] has the calendar
    date of the clock, and the weekly window exactly those whose
    [submittedAt] is at or after the clock minus seven days, that is the
    same time of day seven days before, both in the order of the store; on
    one of the first seven days of the calendar the subtraction overflows
    and the weekly selection raises. So a record of today 00:01 is in the
    daily window and one of yesterday 23:59 is not; a record of exactly six
    days ago is in the weekly window and one of eight days ago is not. *)
Theorem windows_select_by_date r w :
  readable w = true ->
  valid_datetime (now r) ->
  let t7 := DateTime (ordinal (now r) - 7) (usec (now r)) in
  todays_updates r w = Ret (select (same_day (now r)) w (updates w)) w []
  /\ (forall u, u ∈ select (same_day (now r)) w (updates w) <->
        u ∈ updates w
        /\ exists t, submitted_at w u = Some t /\ ordinal t = ordinal (now r))
  /\ ((7 < ordinal (now r))%Z ->
      weekly_updates r w = Ret (select (datetime_leb t7) w (updates w)) w [])
  /\ ((ordinal (now r) <= 7)%Z -> weekly_updates r w = Raise OverflowError w [])
  /\ (forall u, u ∈ select (datetime_leb t7) w (updates w) <->
        u ∈ updates w
        /\ exists t, submitted_at w u = Some t
                     /\ ((ordinal (now r) - 7 < ordinal t)%Z
                         \/ (ordinal t = ordinal (now r) - 7 /\ usec (now r) <= usec t)%Z))
  /\ (forall u, u ∈ updates w ->
        (submitted_at w u = Some (DateTime (ordinal (now r)) 60000000) ->
           u ∈ select (same_day (now r)) w (updates w))
        /\ (submitted_at w u = Some (DateTime (ordinal (now r) - 1) 86340000000) ->
           u ∉ select (same_day (now r)) w (updates w))
        /\ (submitted_at w u = Some (DateTime (ordinal (now r) - 6) (usec (now r))) ->
           u ∈ select (datetime_leb t7) w (updates w))
        /\ (submitted_at w u = Some (DateTime (ordinal (now r) - 8) (usec (now r))) ->
           u ∉ select (datetime_leb t7) w (updates w))).
Proof.
  intros Hr [[Hlo Hhi] _] t7. unfold MAXORDINAL in Hhi.
  split; [|split; [|split; [|split; [|split]]]].
  - unfold todays_updates. rewrite run_bind. simpl. rewrite run_bind. simpl.
    pose proof (comprehension_select (same_day (now r)) r w _ Hr) as Hc.
    unfold same_day in Hc at 1. rewrite Hc. reflexivity.
  - intros u. rewrite elem_of_select. unfold same_day, date.
    split; intros [Hu (t & Ht & Hp)]; (split; [assumption|]); exists t; (split; [assumption|]).
    + apply Z.eqb_eq. assumption.
    + apply Z.eqb_eq. assumption.
  - intros H7. unfold weekly_updates, seven_days_ago.
    rewrite !run_bind. simpl. unfold sub_days, MAXORDINAL.
    destruct (Z.ltb_spec 0 (ordinal (now r) - 7)); [|lia].
    destruct (Z.leb_spec (ordinal (now r) - 7) 3652059); [|lia].
    simpl. rewrite run_bind. simpl. fold t7.
    rewrite (comprehension_select (datetime_leb t7) r w _ Hr). reflexivity.
  - intros H7. unfold weekly_updates, seven_days_ago.
    rewrite !run_bind. simpl. unfold sub_days.
    destruct (Z.ltb_spec 0 (ordinal (now r) - 7)); [lia|]. reflexivity.
  - intros u. rewrite elem_of_select. unfold datetime_leb. subst t7. simpl.
    split; intros [Hu (t & Ht & Hp)]; (split; [assumption|]); exists t; (split; [assumption|]).
    + apply orb_true_iff in Hp as [Hp|Hp]; [left; apply Z.ltb_lt; assumption|].
      apply andb_true_iff in Hp as [Hp1 Hp2]. right.
      apply Z.eqb_eq in Hp1. apply Z.leb_le in Hp2. lia.
    + apply orb_true_iff. destruct Hp as [Hp|[Hp1 Hp2]].
      * left. apply Z.ltb_lt. assumption.
      * right. apply andb_true_iff. split; [apply Z.eqb_eq | apply Z.leb_le]; lia.
  - intros u Hu. rewrite !elem_of_select. unfold same_day, datetime_leb, date. subst t7.
    split; [|split; [|split]]; intros Ht.
    + split; [assumption|]. eexists. split; [exact Ht|]. simpl. lia.
    + intros [_ (t & Ht' & Hp)]. rewrite Ht in Ht'. injection Ht' as <-. simpl in Hp. lia.
    + split; [assumption|]. eexists. split; [exact Ht|]. simpl. lia.
    + intros [_ (t & Ht' & Hp)]. rewrite Ht in Ht'. injection Ht' as <-. simpl in Hp. lia.
Qed.

(** The windows on dates as [isoformat] writes them, across a leap day: at
    2024-03-01 12:00:00.000001 the daily window takes the record of 00:01
    and leaves the one of the day before at 23:59; the weekly window also
    takes the one of six days before and leaves the one of eight days
    before. *)
Example windows_on_iso_dates :
  let w := World [ {[ "date" := VStr "2024-03-01T00:01:00" ]};
                   {[ "date" := VStr "2024-02-29T23:59:00" ]};
                   {[ "date" := VStr "2024-02-24T12:00:00.000001" ]};
                   {[ "date" := VStr "2024-02-22T12:00:00.000001" ]} ] ∅ [0; 1; 2; 3] in
  todays_updates a_runtime w = Ret [0] w []
  /\ weekly_updates a_runtime w = Ret [0; 1; 2] w [].
Proof. vm_compute. split; reflexivity. Qed.

(** ** Every update is one step *)

Lemma command_handlers_read_only m cb :
  first_match command_handlers m = Some cb -> reads_only (cb m).
Proof.
  unfold first_match, command_handlers. simpl.
  destruct (effective_message m) as [t|name|sizes|]; try discriminate.
  repeat match goal with
         | |- context [String.eqb ?a ?b] => destruct (String.eqb a b); simpl
         end;
    intros [= <-]; try discriminate.
  - apply reads_only_message_reply_text.
  - apply reads_only_message_reply_text.
  - apply reads_only_daily_report.
  - apply reads_only_weekly_report.
Qed.

(** An update that the conversation handler does not take changes nothing. *)
Lemma process_update_unhandled c m r w :
  conv_check_update c m = None -> exists out, process_update c m r w = (c, w, out).
Proof.
  intros Hc. unfold process_update. rewrite Hc.
  destruct (first_match command_handlers m) as [cb|] eqn:Hcb; [|eauto].
  pose proof (command_handlers_read_only m cb Hcb r w) as Hw.
  destruct (cb m r w); simpl in Hw; subst; eauto.
Qed.

Lemma text_not_command_inv m :
  text_not_command m = true -> exists t, effective_message m = Text t /\ t ≠ "".
Proof.
  unfold text_not_command, filters_TEXT, filters_COMMAND.
  destruct (effective_message m) as [t|name|sizes|]; simpl; try discriminate.
  destruct (String.eqb_spec t ""); [discriminate|]. eauto.
Qed.

(** The handlers of the states read [update.message] before anything
    else: on an edited message they raise and have done nothing. *)
Lemma handler_of_edited s m r w : handler_of s (EditedMessage m) r w = Raise AttributeError w [].
Proof. destruct s; reflexivity. Qed.

Lemma start_update_edited m r w : start_update (EditedMessage m) r w = Raise AttributeError w [].
Proof. reflexivity. Qed.

(** [cancel] on an edited message has cleared [user_data] when it raises. *)
Lemma cancel_edited m r w :
  cancel (EditedMessage m) r w = Raise AttributeError (World (heap w) ∅ (updates w)) [].
Proof. reflexivity. Qed.

Lemma store_field_any key reply (next : conv_state) (m : message) r w :
  ((m' ← update_message m;
    l ← user_data_getitem "update_data";
    setitem l key (message_text m');;
    message_reply_text m reply;;
    mret next) : M conv_state) r w
  = match user_data w !! "update_data" with
    | Some l =>
        Ret next (World (alter (insert key (message_text m)) l (heap w)) (user_data w)
                        (updates w))
          [ReplyText reply]
    | None => Raise (KeyError "update_data") w []
    end.
Proof.
  unfold_monad. unfold user_data_getitem, setitem.
  destruct (user_data w !! "update_data"); reflexivity.
Qed.

Lemma get_photo_any (m : message) r w :
  get_photo m r w =
    match last (message_photo m) with
    | Some file_id =>
        match user_data w !! "update_data" with
        | Some l =>
            Ret END
              (World (alter (insert "date" (VStr (isoformat (now r))))
                            l (alter (insert "photo_id" (VStr file_id)) l (heap w)))
                     ∅ (updates w ++ [l]))
              [ReplyText "Thank you! Your update has been logged successfully. Use /daily_report or /weekly_report to see the summary."]
        | None => Raise (KeyError "update_data") w []
        end
    | None => Raise IndexError w []
    end.
Proof.
  unfold get_photo, get_file. unfold_monad. simpl.
  destruct (last (message_photo m)) as [file_id|]; [|reflexivity].
  unfold user_data_getitem, setitem, datetime_now, db_append, user_data_clear.
  simpl. destruct (user_data w !! "update_data") as [l|] eqn:Hl; [|reflexivity].
  simpl. repeat (rewrite Hl; simpl). reflexivity.
Qed.

(** The handler that the conversation handler picks in a running
    conversation is the handler of the state, on an update of the kind the
    state takes, or [cancel], on the command cancel. *)
Lemma conv_check_update_running s m cb :
  conv_check_update (Some s) m = Some cb ->
  (accepted_kind s m = true /\ cb = handler_of s)
  \/ (accepted_kind s m = false
      /\ (exists name, effective_message m = Command name
                       /\ String.eqb (str_lower name) "cancel" = true)
      /\ cb = cancel).
Proof.
  unfold conv_check_update, first_match, fallbacks, check_update.
  destruct s; simpl;
    repeat match goal with
           | |- context [if ?b then _ else _] => destruct b eqn:?
           end;
    simpl; intros [= <-]; auto;
    destruct (effective_message m) as [t|name|sizes|]; simpl in *; try discriminate;
    right; eauto.
Qed.

Lemma conv_check_update_idle m cb :
  conv_check_update None m = Some cb ->
  (exists name, effective_message m = Command name
                /\ String.eqb (str_lower name) "update" = true)
  /\ cb = start_update.
Proof.
  unfold conv_check_update, first_match, entry_points. simpl.
  destruct (effective_message m) as [t|name|sizes|]; simpl; try discriminate.
  destruct (String.eqb _ _) eqn:Hn; simpl; [|discriminate]. intros [= <-]. eauto.
Qed.

Ltac step_field_case Hl :=
  match goal with
  | |- context [?h (Message (Text ?t)) ?r ?w] =>
      unfold h; rewrite (store_field_any _ _ _ (Text t) r w)
  end;
  simpl message_text;
  match goal with
  | |- context [user_data ?w !! "update_data"] =>
      destruct (user_data w !! "update_data") as [l|] eqn:Hl
  end;
  intros [= <- <- _];
  [ eapply step_field; [reflexivity | assumption | eassumption] | apply step_stay ].

(** Handling an update is a step of the relation. *)
Lemma process_update_step c m r w c' w' out :
  process_update c m r w = (c', w', out) -> step c w m r c' w'.
Proof.
  destruct (conv_check_update c m) as [cb|] eqn:Hcheck.
  2:{ destruct (process_update_unhandled c m r w Hcheck) as [out' ->].
      intros [= <- <- _]. apply step_stay. }
  unfold process_update. rewrite Hcheck.
  destruct c as [s|].
  - apply conv_check_update_running in Hcheck as [[Hk ->]|(_ & (name & Hm & _) & ->)].
    + (* the handler of the state *)
      destruct m as [m|m].
      2:{ rewrite handler_of_edited. intros [= <- <- _]. apply step_stay. }
      destruct s; simpl in Hk; try discriminate;
        try (apply text_not_command_inv in Hk as (t & Hm & Ht); simpl in Hm; subst m);
        simpl handler_of.
      * (* NAME *)
        intros [= <- <- _]. apply (step_name t w r Ht).
      * step_field_case Hl.
      * step_field_case Hl.
      * step_field_case Hl.
      * (* HOURS_WORKED *)
        rewrite get_hours_Text.
        destruct (py_float _) as [hours|] eqn:Hh.
        -- destruct (user_data w !! "update_data") as [l|] eqn:Hl;
             intros [= <- <- _]; [eapply step_hours; eassumption | apply step_stay].
        -- intros [= <- <- _]. apply step_stay.
      * step_field_case Hl.
      * step_field_case Hl.
      * (* PHOTO *)
        rewrite get_photo_any.
        destruct (last (message_photo m)) as [file_id|] eqn:Hlast.
        -- destruct (user_data w !! "update_data") as [l|] eqn:Hl;
             intros [= <- <- _]; [apply (step_photo m file_id); assumption | apply step_stay].
        -- intros [= <- <- _]. apply step_stay.
    + (* the fallback *)
      destruct m as [m|m]; simpl in Hm; subst m.
      * intros [= <- <- _]. apply step_cancel.
      * rewrite cancel_edited. intros [= <- <- _]. apply step_clear.
  - (* the entry point *)
    apply conv_check_update_idle in Hcheck as [(name & Hm & _) ->].
    destruct m as [m|m]; simpl in Hm; subst m.
    + intros [= <- <- _]. apply step_start.
    + intros [= <- <- _]. apply step_stay.
Qed.

(** ** The hours *)



(** In the state HOURS_WORKED of [a_session] the answer abc is refused and
    the answer 7,5 that follows is stored as 15/2. *)
Example abc_then_seven_and_a_half :
  let '(cs, w, out) :=
    run (Some HOURS_WORKED) hours_world [(Text "abc", a_runtime); (Text "7,5", a_runtime)] in
  cs = [Some HOURS_WORKED; Some UPDATE_TEXT]
  /\ deref w 0 !! "hours_worked" = Some (VFloat (float_div (float_of_Z 15) (float_of_Z 2)))
  /\ out = [ReplyText "That doesn't look like a valid number. Please enter the hours again.";
            ReplyText "Thanks. Please describe the work you completed today."].
Proof. vm_compute. repeat split; reflexivity. Qed.

(** ** The application and what the handlers see of it *)

Lemma world_of_write_back a chat user c w : world_of (write_back a chat user c w) user = w.
Proof. unfold world_of, write_back. simpl. rewrite lookup_insert_eq. destruct w; reflexivity. Qed.

Lemma world_of_write_back_ne a chat user c w user' :
  user ≠ user' ->
  world_of (write_back a chat user c w) user'
  = World (heap w) (user_data (world_of a user')) (updates w).
Proof.
  intros Hne. unfold world_of, write_back. simpl.
  rewrite lookup_insert_ne by assumption. reflexivity.
Qed.

Lemma conversation_write_back a chat user c w :
  conversations (write_back a chat user c w) !! (chat, user) = c.
Proof.
  unfold write_back, set_conversation. simpl.
  destruct c; [apply lookup_insert_eq | apply lookup_delete_eq].
Qed.

Lemma conversation_write_back_ne a chat user c w key :
  key ≠ (chat, user) ->
  conversations (write_back a chat user c w) !! key = conversations a !! key.
Proof.
  intros Hne. unfold write_back, set_conversation. simpl.
  destruct c; [apply lookup_insert_ne | apply lookup_delete_ne]; congruence.
Qed.

Lemma application_process_update_eq a chat user m r :
  application_process_update a chat user m r =
    let '(c, w, out) := process_update (conversations a !! (chat, user)) m r (world_of a user) in
    (write_back a chat user c w, out).
Proof. reflexivity. Qed.

(** The situations that the bot can be in: the start, and what handling an
    update makes of one of them. *)
Lemma reachable_init : reachable None initial_world.
Proof. exists initial_application, 0, 0. split; [constructor|]. split; reflexivity. Qed.

Lemma reachable_step c w m r c' w' out :
  reachable c w -> process_update c m r w = (c', w', out) -> reachable c' w'.
Proof.
  intros (a & chat & user & Ha & <- & <-) Hstep.
  exists (write_back a chat user c' w'), chat, user. split; [|split].
  - eapply (reaches_step any_chat a chat user m r); [exact Ha | exact I |].
    rewrite application_process_update_eq, Hstep. reflexivity.
  - apply conversation_write_back.
  - apply world_of_write_back.
Qed.

(** ** Runs *)

Lemma run_cons c w m r ms :
  run c w ((m, r) :: ms) =
    let '(c', w', out) := process_update c m r w in
    let '(cs, w'', out') := run c' w' ms in
    (c' :: cs, w'', out ++ out').
Proof. reflexivity. Qed.

Lemma final_cons c c' cs : final c (c' :: cs) = final c' cs.
Proof. unfold final. rewrite last_cons. destruct (last cs); reflexivity. Qed.

Lemma run_app ms1 : forall c w ms2,
  run c w (ms1 ++ ms2) =
    let '(cs1, w1, out1) := run c w ms1 in
    let '(cs2, w2, out2) := run (final c cs1) w1 ms2 in
    (cs1 ++ cs2, w2, out1 ++ out2).
Proof.
  induction ms1 as [|[m r] ms1 IH]; intros c w ms2.
  - simpl. unfold final. simpl. destruct (run c w ms2) as [[cs2 w2] out2]. reflexivity.
  - rewrite <- app_comm_cons, !run_cons.
    destruct (process_update c m r w) as [[c' w'] out].
    rewrite IH. destruct (run c' w' ms1) as [[cs1 w1] out1].
    rewrite final_cons.
    destruct (run (final c' cs1) w1 ms2) as [[cs2 w2] out2].
    rewrite app_assoc. reflexivity.
Qed.

Lemma run_reachable ms : forall c w cs w' out,
  reachable c w -> run c w ms = (cs, w', out) -> reachable (final c cs) w'.
Proof.
  induction ms as [|[m r] ms IH]; intros c w cs w' out Hr.
  - intros [= <- <- _]. exact Hr.
  - rewrite run_cons.
    destruct (process_update c m r w) as [[c1 w1] out1] eqn:Hstep.
    destruct (run c1 w1 ms) as [[cs1 w2] out2] eqn:Hrun.
    intros [= <- <- _].
    rewrite final_cons.
    eapply IH; [|eassumption]. eapply reachable_step; eassumption.
Qed.

Lemma run_reaches c w ms :
  reachable c w ->
  reachable (final c (fst (fst (run c w ms)))) (snd (fst (run c w ms))).
Proof.
  intros Hr. destruct (run c w ms) as [[cs w'] out] eqn:Hrun. simpl.
  eapply run_reachable; eassumption.
Qed.

(** ** Cancelling *)

(** A step that leaves the conversation open leaves the store as it was. *)
Lemma open_step_keeps_store c w m r c' w' :
  step c w m r c' w' -> is_Some c' -> updates w' = updates w.
Proof. intros Hstep [s Hs]. destruct Hstep; try reflexivity; discriminate. Qed.

Lemma open_run_keeps_store ms : forall c w cs w' out,
  run c w ms = (cs, w', out) -> Forall is_Some cs -> updates w' = updates w.
Proof.
  induction ms as [|[m r] ms IH]; intros c w cs w' out.
  - intros [= <- <- _] _. reflexivity.
  - rewrite run_cons.
    destruct (process_update c m r w) as [[c1 w1] out1] eqn:Hstep.
    destruct (run c1 w1 ms) as [[cs1 w2] out2] eqn:Hrun.
    intros [= <- <- _] Hopen. apply Forall_cons in Hopen as [Hc1 Hcs1].
    rewrite (IH _ _ _ _ _ Hrun Hcs1).
    eapply open_step_keeps_store; [eapply process_update_step; eassumption | assumption].
Qed.

Lemma process_cancel s r w :
  process_update (Some s) (Command "cancel") r w =
    (None, World (heap w) ∅ (updates w),
     [ReplyRemoveKeyboard "Update cancelled. You can start a new one with /update."]).
Proof. destruct s; reflexivity. Qed.

(** C3. From every state of a running conversation and whatever the
    partial record, through any updates that leave the conversation open,
    the command cancel closes the conversation, empties [user_data], so that
    the partial record is dropped, and acknowledges; the store is the one
    the session started with: nothing was appended. *)
Theorem cancelled_session_commits_nothing s w ms r cs w' out :
  run (Some s) w ms = (cs, w', out) ->
  Forall is_Some cs ->
  run (Some s) w (ms ++ [(Command "cancel", r)]) =
    (cs ++ [None],
     World (heap w') ∅ (updates w),
     out ++ [ReplyRemoveKeyboard "Update cancelled. You can start a new one with /update."]).
Proof.
  intros Hrun Hopen. rewrite run_app, Hrun.
  assert (Hfinal : exists s', final (Some s) cs = Some s').
  { unfold final. destruct (last cs) as [c|] eqn:Hlast; simpl; [|eauto].
    apply last_Some_elem_of in Hlast.
    rewrite Forall_forall in Hopen. destruct (Hopen _ Hlast) as [s' ->]. eauto. }
  destruct Hfinal as [s' ->].
  rewrite run_cons, process_cancel. simpl.
  rewrite (open_run_keeps_store _ _ _ _ _ _ Hrun Hopen). reflexivity.
Qed.

(** ** The invariant of the store *)

Lemma deref_alter_eq f l w w' :
  heap w' = alter f l (heap w) -> l < length (heap w) -> deref w' l = f (deref w l).
Proof.
  intros Hh Hl. unfold deref. rewrite Hh, list_lookup_alter_eq.
  destruct (lookup_lt_is_Some_2 (heap w) l Hl) as [d ->]. reflexivity.
Qed.

Lemma deref_alter_ne f l u w w' :
  heap w' = alter f l (heap w) -> l ≠ u -> deref w' u = deref w u.
Proof. intros Hh Hl. unfold deref. rewrite Hh, list_lookup_alter_ne by assumption. reflexivity. Qed.

Lemma deref_app_l x u w w' :
  heap w' = heap w ++ x -> u < length (heap w) -> deref w' u = deref w u.
Proof. intros Hh Hu. unfold deref. rewrite Hh, lookup_app_l by assumption. reflexivity. Qed.

Lemma deref_new d w w' :
  heap w' = heap w ++ [d] -> deref w' (length (heap w)) = d.
Proof. intros Hh. unfold deref. rewrite Hh, list_lookup_middle by reflexivity. reflexivity. Qed.

Lemma field_ok_insert_ne d k k' v : k ≠ k' -> field_ok (<[k := v]> d) k' = field_ok d k'.
Proof.
  intros Hk. unfold field_ok, is_float, is_text.
  rewrite lookup_insert_ne by assumption. reflexivity.
Qed.

Lemma field_ok_insert_text d k t :
  t ≠ "" -> String.eqb k "hours_worked" = false -> field_ok (<[k := VStr t]> d) k = true.
Proof.
  intros Ht Hk. unfold field_ok, is_text. rewrite Hk, lookup_insert_eq.
  destruct (String.eqb_spec t ""); [contradiction | reflexivity].
Qed.

Lemma field_ok_insert_hours d h :
  field_ok (<["hours_worked" := VFloat h]> d) "hours_worked" = true.
Proof. unfold field_ok, is_float. simpl. rewrite lookup_insert_eq. reflexivity. Qed.

Ltac split_andb :=
  repeat match goal with
         | H : _ && _ = true |- _ => apply andb_prop in H as [? ?]
         end.


Lemma is_text_insert_ne d k k' v : k ≠ k' -> is_text (<[k := v]> d) k' = is_text d k'.
Proof. intros Hk. unfold is_text. rewrite lookup_insert_ne by assumption. reflexivity. Qed.

Lemma is_text_insert_eq d k t : t ≠ "" -> is_text (<[k := VStr t]> d) k = true.
Proof.
  intros Ht. unfold is_text. rewrite lookup_insert_eq.
  destruct (String.eqb_spec t ""); [contradiction | reflexivity].
Qed.

Lemma is_str_insert_ne d k k' v : k ≠ k' -> is_str (<[k := v]> d) k' = is_str d k'.
Proof. intros Hk. unfold is_str. rewrite lookup_insert_ne by assumption. reflexivity. Qed.

Lemma is_str_insert_eq d k t : is_str (<[k := VStr t]> d) k = true.
Proof. unfold is_str. rewrite lookup_insert_eq. reflexivity. Qed.

Lemma absent_or_ok_insert_ne d k k' v :
  k ≠ k' -> absent_or_ok (<[k := v]> d) k' = absent_or_ok d k'.
Proof.
  intros Hk. unfold absent_or_ok.
  rewrite lookup_insert_ne, field_ok_insert_ne by assumption. reflexivity.
Qed.

Lemma absent_or_ok_insert_text d k t :
  t ≠ "" -> String.eqb k "hours_worked" = false -> absent_or_ok (<[k := VStr t]> d) k = true.
Proof.
  intros Ht Hk. unfold absent_or_ok. rewrite lookup_insert_eq.
  apply field_ok_insert_text; assumption.
Qed.

Lemma absent_or_ok_insert_hours d h :
  absent_or_ok (<["hours_worked" := VFloat h]> d) "hours_worked" = true.
Proof. unfold absent_or_ok. rewrite lookup_insert_eq. apply field_ok_insert_hours. Qed.

Lemma pending_record_new t : t ≠ "" -> pending_record {[ "name" := VStr t ]} = true.
Proof.
  intros Ht. unfold pending_record. rewrite <- insert_empty.
  rewrite is_text_insert_eq by assumption. simpl.
  rewrite !absent_or_ok_insert_ne by discriminate. reflexivity.
Qed.

Ltac pending_step Ht :=
  unfold pending_record in *; simpl in *; split_andb;
  rewrite ?is_text_insert_ne by discriminate;
  rewrite ?absent_or_ok_insert_hours;
  rewrite ?(absent_or_ok_insert_text _ _ _ Ht) by reflexivity;
  rewrite ?absent_or_ok_insert_ne by discriminate;
  repeat match goal with
         | H : ?b = true |- context [?b] => rewrite H
         end;
  reflexivity.

Lemma pending_record_insert_text d key t :
  t ≠ "" -> key ∈ ["function"; "company"; "location"; "update_text"; "planning"] ->
  pending_record d = true -> pending_record (<[key := VStr t]> d) = true.
Proof.
  intros Ht Hkey Hd.
  repeat (apply elem_of_cons in Hkey as [->|Hkey]; [pending_step Ht|]).
  inversion Hkey.
Qed.

Lemma pending_record_insert_hours d h :
  pending_record d = true -> pending_record (<["hours_worked" := VFloat h]> d) = true.
Proof. intros Hd. pending_step Hd. Qed.

Lemma committed_record_commit d file_id date_ :
  pending_record d = true ->
  committed_record (<["date" := VStr date_]> (<["photo_id" := VStr file_id]> d)) = true.
Proof.
  intros Hd. unfold committed_record.
  rewrite is_str_insert_eq, is_str_insert_ne, is_str_insert_eq by discriminate.
  rewrite !andb_true_r.
  unfold pending_record in *. simpl in *. split_andb.
  rewrite !is_text_insert_ne by discriminate.
  rewrite !absent_or_ok_insert_ne by discriminate.
  repeat match goal with
         | H : ?b = true |- context [?b] => rewrite H
         end.
  reflexivity.
Qed.

Lemma field_of_key s key next :
  field_of s = Some (key, next) ->
  key ∈ ["function"; "company"; "location"; "update_text"; "planning"] /\ next ≠ END.
Proof.
  destruct s; intros [= <- <-]; (split; [|discriminate]);
    repeat first [apply list_elem_of_here | apply list_elem_of_further].
Qed.

(** A step keeps the invariant of the chat and user of the update. *)
Lemma step_preserves_invariant c w m r c' w' :
  step c w m r c' w' -> invariant c w -> invariant c' w'.
Proof.
  intros Hstep (Hwf & Hstore & Hend & Hud).
  destruct Hstep as [c w m r | w m r | s w m r | s w m r | t w r Ht
                     | s key next t l w r Hf Ht Hl
                     | t hours l w r Hh Hl | m file_id l w r Hlast Hl].
  - split; [assumption|]. split; [assumption|]. split; assumption.
  - split; [assumption|]. split; [assumption|]. split; [discriminate | assumption].
  - split; [assumption|]. split; [assumption|]. split; [discriminate|].
    intros k l. simpl. rewrite lookup_empty. discriminate.
  - split; [assumption|]. split; [assumption|]. split; [assumption|].
    intros k l. simpl. rewrite lookup_empty. discriminate.
  - (* a new dictionary *)
    unfold invariant, wf, store_ok, session_ok in *. simpl. split; [|split; [|split]].
    + rewrite length_app. simpl. eapply Forall_impl; [exact Hwf|]. simpl. intros. lia.
    + rewrite Forall_forall in *. intros u Hu.
      erewrite (deref_app_l _ u w); [|reflexivity|]; auto.
    + discriminate.
    + intros k l. destruct (decide (k = "update_data")) as [->|Hk].
      * rewrite lookup_insert_eq. intros [= <-]. rewrite length_app. simpl.
        split; [reflexivity|]. split; [lia|]. split.
        -- intros Hin. rewrite Forall_forall in Hwf. specialize (Hwf _ Hin). lia.
        -- erewrite (deref_new _ w); [|reflexivity]. apply pending_record_new. assumption.
      * rewrite lookup_insert_ne by congruence. intros Hkl.
        destruct (Hud k l Hkl) as [-> _]. contradiction.
  - (* a text field *)
    destruct (Hud _ _ Hl) as (_ & Hlen & Hnotin & Hpending).
    destruct (field_of_key _ _ _ Hf) as [Hkey Hnext].
    unfold invariant, wf, store_ok, session_ok in *. simpl. split; [|split; [|split]].
    + rewrite length_alter. assumption.
    + rewrite Forall_forall in *. intros u Hu.
      erewrite (deref_alter_ne _ l u w); [|reflexivity|intros ->; contradiction].
      auto.
    + congruence.
    + intros k l' Hkl. destruct (Hud k l' Hkl) as (-> & _).
      rewrite Hl in Hkl. injection Hkl as <-. rewrite length_alter.
      repeat (split; [assumption || reflexivity|]).
      erewrite (deref_alter_eq _ l w); [|reflexivity|assumption].
      apply pending_record_insert_text; assumption.
  - (* the hours *)
    destruct (Hud _ _ Hl) as (_ & Hlen & Hnotin & Hpending).
    unfold invariant, wf, store_ok, session_ok in *. simpl. split; [|split; [|split]].
    + rewrite length_alter. assumption.
    + rewrite Forall_forall in *. intros u Hu.
      erewrite (deref_alter_ne _ l u w); [|reflexivity|intros ->; contradiction].
      auto.
    + discriminate.
    + intros k l' Hkl. destruct (Hud k l' Hkl) as (-> & _).
      rewrite Hl in Hkl. injection Hkl as <-. rewrite length_alter.
      repeat (split; [assumption || reflexivity|]).
      erewrite (deref_alter_eq _ l w); [|reflexivity|assumption].
      apply pending_record_insert_hours. assumption.
  - (* the commit *)
    destruct (Hud _ _ Hl) as (_ & Hlen & Hnotin & Hpending).
    set (w1 := World (alter (insert "photo_id" (VStr file_id)) l (heap w))
                     (user_data w) (updates w)).
    unfold invariant, wf, store_ok, session_ok in *. simpl. split; [|split; [|split]].
    + rewrite !length_alter. apply Forall_app. split; [assumption|].
      apply Forall_singleton. assumption.
    + apply Forall_app. split.
      * rewrite Forall_forall in *. intros u Hu.
        erewrite (deref_alter_ne _ l u w1); [|reflexivity|intros ->; contradiction].
        erewrite (deref_alter_ne _ l u w w1); [|reflexivity|intros ->; contradiction].
        auto.
      * apply Forall_singleton.
        erewrite (deref_alter_eq _ l w1);
          [|reflexivity|subst w1; simpl; rewrite length_alter; assumption].
        erewrite (deref_alter_eq _ l w w1); [|reflexivity|assumption].
        apply committed_record_commit. assumption.
    + discriminate.
    + intros k l'. rewrite lookup_empty. discriminate.
Qed.

(** What a step does to the rest of the world: the heap does not shrink,
    a dictionary other than the record in the making of the user is left as
    it was, a new record of the store was the record in the making, and a
    new record in the making is a new dictionary. *)
Lemma step_frame c w m r c' w' :
  step c w m r c' w' -> invariant c w ->
  length (heap w) <= length (heap w')
  /\ (forall l, l < length (heap w) -> user_data w !! "update_data" ≠ Some l ->
        deref w' l = deref w l)
  /\ (forall u, u ∈ updates w' -> u ∈ updates w \/ user_data w !! "update_data" = Some u)
  /\ (forall l, user_data w' !! "update_data" = Some l ->
        user_data w !! "update_data" = Some l \/ l = length (heap w)).
Proof.
  intros Hstep (Hwf & Hstore & Hend & Hud).
  destruct Hstep as [c w m r | w m r | s w m r | s w m r | t w r Ht
                     | s key next t l w r Hf Ht Hl
                     | t hours l w r Hh Hl | m file_id l w r Hlast Hl]; simpl.
  - repeat split; auto.
  - repeat split; auto.
  - repeat split; auto. intros l. rewrite lookup_empty. discriminate.
  - repeat split; auto. intros l. rewrite lookup_empty. discriminate.
  - rewrite length_app. simpl. split; [lia|]. split; [|split; [auto|]].
    + intros l Hl _. erewrite (deref_app_l _ l w); [|reflexivity|]; auto.
    + intros l. rewrite lookup_insert_eq. intros [= <-]. auto.
  - rewrite length_alter. split; [lia|]. split; [|split; auto].
    intros l' Hl' Hne. erewrite (deref_alter_ne _ l l' w); [|reflexivity|congruence].
    reflexivity.
  - rewrite length_alter. split; [lia|]. split; [|split; auto].
    intros l' Hl' Hne. erewrite (deref_alter_ne _ l l' w); [|reflexivity|congruence].
    reflexivity.
  - rewrite !length_alter. split; [lia|]. split; [|split].
    + intros l' Hl' Hne.
      set (w1 := World (alter (insert "photo_id" (VStr file_id)) l (heap w))
                       (user_data w) (updates w)).
      erewrite (deref_alter_ne _ l l' w1); [|reflexivity|congruence].
      erewrite (deref_alter_ne _ l l' w w1); [|reflexivity|congruence].
      reflexivity.
    + intros u Hu. apply elem_of_app in Hu as [Hu|Hu]; [auto|].
      apply list_elem_of_singleton in Hu as ->. auto.
    + intros l'. rewrite lookup_empty. discriminate.
Qed.

(** The invariant depends on the heap, the store and [user_data] only. *)
Lemma deref_heap w w' l : heap w' = heap w -> deref w' l = deref w l.
Proof. unfold deref. intros ->. reflexivity. Qed.

(** Handling an update keeps the invariant of the application. *)
Lemma application_process_update_invariant a chat user m r a' out :
  app_invariant a -> application_process_update a chat user m r = (a', out) ->
  app_invariant a'.
Proof.
  intros [Hinv Hdistinct]. rewrite application_process_update_eq.
  destruct (process_update _ m r (world_of a user)) as [[c' w'] out'] eqn:Hprocess.
  intros [= <- _].
  pose proof (process_update_step _ _ _ _ _ _ _ Hprocess) as Hstep.
  pose proof (step_preserves_invariant _ _ _ _ _ _ Hstep (Hinv chat user))
    as (Hwf' & Hstore' & Hend' & Hud').
  destruct (step_frame _ _ _ _ _ _ Hstep (Hinv chat user))
    as (Hlen & Hkept & Hnew & Hfresh).
  split.
  - intros chat2 user2. destruct (decide (user2 = user)) as [->|Huser].
    + rewrite world_of_write_back.
      destruct (decide (chat2 = chat)) as [->|Hchat].
      * rewrite conversation_write_back.
        split; [assumption|]. split; [assumption|]. split; assumption.
      * rewrite conversation_write_back_ne by congruence.
        destruct (Hinv chat2 user) as (_ & _ & Hend2 & _).
        split; [assumption|]. split; [assumption|]. split; assumption.
    + rewrite world_of_write_back_ne, conversation_write_back_ne by congruence.
      destruct (Hinv chat2 user2) as (Hwf2 & Hstore2 & Hend2 & Hud2).
      split; [exact Hwf'|]. split; [exact Hstore'|]. split; [assumption|].
      intros k l Hkl. simpl in Hkl. destruct (Hud2 k l Hkl) as (-> & Hl & Hnotin & Hpending).
      simpl in Hl.
      assert (Hother : user_data (world_of a user) !! "update_data" ≠ Some l).
      { intros Hsame. apply Huser. exact (Hdistinct user2 user l Hkl Hsame). }
      split; [reflexivity|]. split; [simpl in *; lia|]. split.
      * simpl. intros Hin. destruct (Hnew l Hin) as [Hold|Hsame]; [|contradiction].
        apply Hnotin. exact Hold.
      * rewrite (deref_heap w' _ l) by reflexivity.
        rewrite (Hkept l Hl Hother).
        rewrite (deref_heap (world_of a user2) (world_of a user) l) by reflexivity.
        exact Hpending.
  - intros user1 user2 l.
    destruct (decide (user1 = user)) as [->|H1]; destruct (decide (user2 = user)) as [->|H2];
      try reflexivity.
    + rewrite world_of_write_back, world_of_write_back_ne by congruence. simpl user_data.
      intros Hl1 Hl2. destruct (Hfresh l Hl1) as [Hold| ->].
      * exact (Hdistinct user user2 l Hold Hl2).
      * destruct (Hinv chat user2) as (_ & _ & _ & Hud2).
        destruct (Hud2 _ _ Hl2) as (_ & Hlt & _). simpl in Hlt. lia.
    + rewrite world_of_write_back, world_of_write_back_ne by congruence. simpl user_data.
      intros Hl1 Hl2. destruct (Hfresh l Hl2) as [Hold| ->].
      * exact (Hdistinct user1 user l Hl1 Hold).
      * destruct (Hinv chat user1) as (_ & _ & _ & Hud1).
        destruct (Hud1 _ _ Hl1) as (_ & Hlt & _). simpl in Hlt. lia.
    + rewrite !world_of_write_back_ne by congruence. simpl user_data.
      apply Hdistinct.
Qed.

Lemma initial_application_invariant : app_invariant initial_application.
Proof.
  split.
  - intros chat user. split; [constructor|]. split; [constructor|].
    split; [discriminate|]. intros k l.
    unfold world_of, initial_application. simpl. rewrite lookup_empty. simpl.
    rewrite lookup_empty. discriminate.
  - intros user1 user2 l.
    unfold world_of, initial_application. simpl. rewrite lookup_empty. simpl.
    rewrite lookup_empty. discriminate.
Qed.

Lemma reaches_invariant allowed a : reaches allowed a -> app_invariant a.
Proof.
  induction 1 as [|a chat user m r a' out Ha IH Hallowed Hstep].
  - apply initial_application_invariant.
  - eapply application_process_update_invariant; eassumption.
Qed.

Lemma application_run_reaches allowed us : forall a,
  reaches allowed a ->
  Forall (fun u => allowed (fst (fst (fst u))) (snd (fst (fst u)))) us ->
  reaches allowed (fst (application_run a us)).
Proof.
  induction us as [|[[[chat user] m] r] us IH]; intros a Ha Hus; [exact Ha|].
  apply Forall_cons in Hus as [Hu Hus]. simpl in Hu. simpl.
  destruct (application_process_update a chat user m r) as [a' out] eqn:Hstep.
  specialize (IH a' (reaches_step allowed a chat user m r a' out Ha Hu Hstep) Hus).
  destruct (application_run a' us) as [a'' out']. exact IH.
Qed.

Lemma reachable_invariant c w : reachable c w -> invariant c w.
Proof.
  intros (a & chat & user & Ha & <- & <-). apply (reaches_invariant any_chat a Ha).
Qed.







(** One user in two chats. The store that [two_chats] leads to holds one
    record, committed by the photo of chat 1 from the dictionary that the
    name given in chat 2 has put in the [user_data] of the user: it has the
    name Piet, the photo and the date and none of the other fields. *)
Example one_user_in_two_chats_commits_a_partial_record :
  let a := fst (application_run initial_application two_chats) in
  reaches any_chat a
  /\ conversations a !! (2, 7) = Some FUNCTION
  /\ exists d,
       app_records a = [d]
       /\ d !! "name" = Some (VStr "Piet")
       /\ d !! "photo_id" = Some (VStr "l")
       /\ d !! "date" = Some (VStr (isoformat (now a_runtime)))
       /\ Forall (fun k => d !! k = None) later_fields
       /\ committed_record d = true
       /\ well_formed_record d = false.
Proof.
  split; [|split; [vm_compute; reflexivity|]].
  - apply application_run_reaches; [constructor|].
    apply Forall_forall. intros u _. exact I.
  - eexists. split; [vm_compute; reflexivity|].
    repeat split; try (vm_compute; reflexivity).
    repeat constructor.
Qed.

(** An edited command cancel. In the state COMPANY of [a_session] it
    empties [user_data] and leaves the conversation where it is; the answer
    that follows finds no record in the making, is not acknowledged and
    changes nothing. *)
Example an_edited_cancel_loses_the_record :
  let w := snd (fst (run None initial_world (take 3 a_session))) in
  run (Some COMPANY) w an_edited_cancel
  = ([Some COMPANY; Some COMPANY], World (heap w) ∅ (updates w), [])
  /\ reachable (Some COMPANY) (World (heap w) ∅ (updates w)).
Proof.
  assert (Hrun :
    run None initial_world (take 3 a_session ++ an_edited_cancel)
    = ([Some NAME; Some FUNCTION; Some COMPANY; Some COMPANY; Some COMPANY],
       World (heap (snd (fst (run None initial_world (take 3 a_session))))) ∅
             (updates (snd (fst (run None initial_world (take 3 a_session))))),
       snd (run None initial_world (take 3 a_session))))
    by (vm_compute; reflexivity).
  split; [vm_compute; reflexivity|].
  pose proof (run_reaches None initial_world (take 3 a_session ++ an_edited_cancel)
                reachable_init) as H.
  rewrite Hrun in H. exact H.
Qed.

(** ** A new collection starts from nothing *)

Lemma from_inputs_mono seen x d : from_inputs seen d -> from_inputs (seen ++ [x]) d.
Proof.
  intros H k v Hk. destruct (H k v Hk) as (m & r & Hin & Hs).
  exists m, r. split; [|assumption]. apply elem_of_app. auto.
Qed.

Lemma from_inputs_insert seen m r k v d :
  from_inputs seen d -> supplied m r v -> from_inputs (seen ++ [(m, r)]) (<[k := v]> d).
Proof.
  intros H Hs k' v' Hk'. destruct (decide (k = k')) as [<-|Hne].
  - rewrite lookup_insert_eq in Hk'. injection Hk' as <-.
    exists m, r. split; [|assumption]. apply elem_of_app. right. apply list_elem_of_here.
  - rewrite lookup_insert_ne in Hk' by assumption.
    apply (from_inputs_mono seen (m, r) d H k' v' Hk').
Qed.

Lemma from_inputs_empty seen : from_inputs seen ∅.
Proof. intros k v Hk. rewrite lookup_empty in Hk. discriminate. Qed.

Lemma step_preserves_run_invariant w0 seen c w m r c' w' :
  step c w m r c' w' -> run_invariant w0 seen c w ->
  run_invariant w0 (seen ++ [(m, r)]) c' w'.
Proof.
  intros Hstep (Hwf & (news & Hnews & Hfrom) & Hold & Hsession).
  assert (Hfrom' : Forall (fun u => from_inputs (seen ++ [(m, r)]) (deref w u)) news).
  { eapply Forall_impl; [exact Hfrom|]. intros u. apply from_inputs_mono. }
  assert (Hin0 : forall u, u ∈ updates w0 -> u ∈ updates w).
  { intros u Hu. rewrite Hnews. apply elem_of_app. auto. }
  assert (Hinn : forall u, u ∈ news -> u ∈ updates w).
  { intros u Hu. rewrite Hnews. apply elem_of_app. auto. }
  destruct Hstep as [c w m r | w m r | s w m r | s w m r | t w r Ht
                     | s key next t l w r Hf Ht Hl
                     | t hours l w r Hh Hl | m file_id l w r Hlast Hl].
  - split; [assumption|]. split; [eauto|]. split; [assumption|].
    destruct c as [s|]; [|exact I]. intros Hs l Hl.
    destruct (Hsession Hs l Hl) as (? & ? & ?).
    repeat (split; [assumption|]). apply from_inputs_mono. assumption.
  - split; [assumption|]. split; [eauto|]. split; [assumption|]. intros []. reflexivity.
  - split; [assumption|]. split; [eauto|]. split; [assumption|]. exact I.
  - split; [assumption|]. split; [eauto|]. split; [assumption|].
    intros _ l. simpl. rewrite lookup_empty. discriminate.
  - (* a new dictionary *)
    unfold run_invariant, wf in *. simpl. rewrite Forall_forall in Hwf.
    split; [|split; [|split]].
    + rewrite length_app. simpl. apply Forall_forall. intros u Hu.
      specialize (Hwf u Hu). lia.
    + exists news. split; [assumption|]. rewrite Forall_forall in *. intros u Hu.
      erewrite (deref_app_l _ u w); [|reflexivity|]; auto.
    + rewrite Forall_forall in *. intros u Hu.
      erewrite (deref_app_l _ u w); [|reflexivity|]; auto.
    + intros _ l. rewrite lookup_insert_eq. intros [= <-]. rewrite length_app. simpl.
      split; [lia|]. split.
      * intros Hin. specialize (Hwf _ Hin). lia.
      * erewrite (deref_new _ w); [|reflexivity]. rewrite <- insert_empty.
        apply from_inputs_insert; [apply from_inputs_empty | apply supplied_text].
  - (* a text field *)
    assert (Hs : collected s ≠ []) by (destruct s; discriminate).
    destruct (Hsession Hs l Hl) as (Hlen & Hnotin & Hpartial).
    unfold run_invariant, wf in *. simpl. split; [|split; [|split]].
    + rewrite length_alter. assumption.
    + exists news. split; [assumption|]. rewrite Forall_forall in *. intros u Hu.
      erewrite (deref_alter_ne _ l u w); [|reflexivity|intros ->; auto]. auto.
    + rewrite Forall_forall in *. intros u Hu.
      erewrite (deref_alter_ne _ l u w); [|reflexivity|intros ->; auto]. auto.
    + intros _ l' Hl'. rewrite Hl in Hl'. injection Hl' as <-. rewrite length_alter.
      repeat (split; [assumption|]).
      erewrite (deref_alter_eq _ l w); [|reflexivity|assumption].
      apply from_inputs_insert; [assumption | apply supplied_text].
  - (* the hours *)
    destruct (Hsession ltac:(discriminate) l Hl) as (Hlen & Hnotin & Hpartial).
    unfold run_invariant, wf in *. simpl. split; [|split; [|split]].
    + rewrite length_alter. assumption.
    + exists news. split; [assumption|]. rewrite Forall_forall in *. intros u Hu.
      erewrite (deref_alter_ne _ l u w); [|reflexivity|intros ->; auto]. auto.
    + rewrite Forall_forall in *. intros u Hu.
      erewrite (deref_alter_ne _ l u w); [|reflexivity|intros ->; auto]. auto.
    + intros _ l' Hl'. rewrite Hl in Hl'. injection Hl' as <-. rewrite length_alter.
      repeat (split; [assumption|]).
      erewrite (deref_alter_eq _ l w); [|reflexivity|assumption].
      apply from_inputs_insert; [assumption | apply supplied_hours; assumption].
  - (* the commit *)
    destruct (Hsession ltac:(discriminate) l Hl) as (Hlen & Hnotin & Hpartial).
    destruct m as [t|name|sizes|]; try discriminate. simpl in Hlast.
    set (w1 := World (alter (insert "photo_id" (VStr file_id)) l (heap w))
                     (user_data w) (updates w)).
    assert (Hkeep : forall u, u ∈ updates w ->
              deref (World (alter (insert "date" (VStr (isoformat (now r)))) l (heap w1))
                           ∅ (updates w ++ [l])) u = deref w u).
    { intros u Hu.
      erewrite (deref_alter_ne _ l u w1); [|reflexivity|intros ->; contradiction].
      erewrite (deref_alter_ne _ l u w w1); [|reflexivity|intros ->; contradiction].
      reflexivity. }
    unfold run_invariant, wf in *. simpl. split; [|split; [|split; [|exact I]]].
    + rewrite !length_alter. apply Forall_app. split; [assumption|].
      apply Forall_singleton. assumption.
    + exists (news ++ [l]). split; [rewrite Hnews, app_assoc; reflexivity|].
      apply Forall_app. split.
      * rewrite Forall_forall in *. intros u Hu. rewrite Hkeep by auto. auto.
      * apply Forall_singleton.
        erewrite (deref_alter_eq _ l w1);
          [|reflexivity|subst w1; simpl; rewrite length_alter; assumption].
        erewrite (deref_alter_eq _ l w w1); [|reflexivity|assumption].
        intros k v Hk.
        destruct (decide ("date" = k)) as [<-|Hd].
        { rewrite lookup_insert_eq in Hk. injection Hk as <-.
          exists (Message (Photo sizes)), r. split; [|apply supplied_date].
          apply elem_of_app. right. apply list_elem_of_here. }
        rewrite lookup_insert_ne in Hk by assumption.
        clear Hd. revert k v Hk.
        apply from_inputs_insert; [assumption | apply supplied_photo; assumption].
    + rewrite Forall_forall in *. intros u Hu. rewrite Hkeep by auto. auto.
Qed.

Lemma run_preserves_run_invariant w0 ms : forall seen c w cs w' out,
  run c w ms = (cs, w', out) -> run_invariant w0 seen c w ->
  run_invariant w0 (seen ++ ms) (final c cs) w'.
Proof.
  induction ms as [|[m r] ms IH]; intros seen c w cs w' out.
  - intros [= <- <- _]. rewrite app_nil_r. auto.
  - rewrite run_cons.
    destruct (process_update c m r w) as [[c1 w1] out1] eqn:Hstep.
    destruct (run c1 w1 ms) as [[cs1 w2] out2] eqn:Hrun.
    intros [= <- <- _] Hinv. rewrite final_cons.
    replace (seen ++ (m, r) :: ms) with ((seen ++ [(m, r)]) ++ ms)
      by (rewrite <- app_assoc; reflexivity).
    eapply IH; [eassumption|].
    eapply step_preserves_run_invariant; [|exact Hinv].
    eapply process_update_step. eassumption.
Qed.

(** C10. In the state NAME a non-empty text starts the partial record
    anew: [user_data] is made to refer to a dictionary that has just been
    allocated and holds the name only, whatever it referred to before, and
    no dictionary that existed is changed. And in a run that starts with no
    conversation or in the state NAME, in any world that the bot can reach,
    the records of the store are left as they were, and every value of every
    record that the run appends was brought by an update of the run. *)
Theorem new_collection_starts_from_nothing c0 w0 ms cs w' out :
  reachable c0 w0 ->
  c0 = None \/ c0 = Some NAME ->
  run c0 w0 ms = (cs, w', out) ->
  (forall t r, t ≠ "" ->
     process_update (Some NAME) (Text t) r w0 =
       (Some FUNCTION,
        World (heap w0 ++ [{[ "name" := VStr t ]}])
              (<["update_data" := length (heap w0)]> (user_data w0)) (updates w0),
        [ReplyText "Got it. What is your function or role? (e.g., Electrician, Plumber)"]))
  /\ exists news,
       updates w' = updates w0 ++ news
       /\ Forall (fun u => from_inputs ms (deref w' u)) news
       /\ Forall (fun u => deref w' u = deref w0 u) (updates w0).
Proof.
  intros Hr Hc Hrun. split; [intros t r Ht; apply process_NAME; assumption|].
  destruct (reachable_invariant c0 w0 Hr) as (Hwf & _ & _).
  assert (Hinv : run_invariant w0 [] c0 w0).
  { split; [assumption|]. split.
    - exists []. rewrite app_nil_r. split; [reflexivity | constructor].
    - split; [apply Forall_forall; reflexivity|].
      destruct Hc as [-> | ->]; [exact I|]. intros []. reflexivity. }
  destruct (run_preserves_run_invariant w0 ms [] c0 w0 cs w' out Hrun Hinv)
    as (_ & (news & Hnews & Hfrom) & Hold & _).
  exists news. auto.
Qed.

(** ** The statements at concrete inputs *)

Lemma a_runtime_valid : valid_datetime (now a_runtime).
Proof. unfold valid_datetime, MAXORDINAL. cbn [now a_runtime ordinal usec]. lia. Qed.

Lemma one_record_world_reachable : reachable None one_record_world.
Proof.
  unfold one_record_world.
  pose proof (run_reaches None initial_world a_session reachable_init) as H.
  assert (Hc : final None (fst (fst (run None initial_world a_session))) = None)
    by (vm_compute; reflexivity).
  rewrite Hc in H. exact H.
Qed.

Lemma collection_commits_one_record_witness :
  py_float (str_replace "," "." "7,5") = Some (float_div (float_of_Z 15) (float_of_Z 2))
  /\ run (Some NAME) initial_world
       [(Text "Jan", a_runtime); (Text "Plumber", a_runtime); (Text "Acme", a_runtime);
        (Text "Roof", a_runtime); (Text "7,5", a_runtime); (Text "Pipes", a_runtime);
        (Text "None", a_runtime); (Photo ["s"; "m"; "l"], a_runtime)]
     = ([Some FUNCTION; Some COMPANY; Some LOCATION; Some HOURS_WORKED; Some UPDATE_TEXT;
         Some PLANNING; Some PHOTO; None],
        World [<["date" := VStr (isoformat (now a_runtime))]>
                 (<["photo_id" := VStr "l"]>
                    (<["planning" := VStr "None"]>
                       (<["update_text" := VStr "Pipes"]>
                          (<["hours_worked" := VFloat (float_div (float_of_Z 15) (float_of_Z 2))]>
                             (<["location" := VStr "Roof"]>
                                (<["company" := VStr "Acme"]>
                                   (<["function" := VStr "Plumber"]>
                                      {[ "name" := VStr "Jan" ]})))))))]
              ∅ [0],
        [ReplyText "Got it. What is your function or role? (e.g., Electrician, Plumber)";
         ReplyText "Great. What company do you work for?";
         ReplyText "Where on the site did you work today? (e.g., Second Floor, West Wing)";
         ReplyText "How many hours did you work?";
         ReplyText "Thanks. Please describe the work you completed today.";
         ReplyText "Any notes on planning? (e.g., 'Blocked by other team', 'Ready for inspection')";
         ReplyText "Perfect. Now, please send one photo of your work.";
         ReplyText "Thank you! Your update has been logged successfully. Use /daily_report or /weekly_report to see the summary."]).
Proof.
  split; [vm_compute; reflexivity|].
  apply (collection_commits_one_record initial_world "Jan" "Plumber" "Acme" "Roof" "7,5"
           (float_div (float_of_Z 15) (float_of_Z 2)) "Pipes" "None" ["s"; "m"; "l"] "l");
    try discriminate; vm_compute; reflexivity.
Defined.


Lemma cancelled_session_commits_nothing_witness :
  run (Some NAME) one_record_world (a_cancelled_session ++ [(Command "cancel", a_runtime)])
  = ([Some FUNCTION; Some COMPANY; Some COMPANY; Some COMPANY; None],
     World (heap (snd (fst (run (Some NAME) one_record_world a_cancelled_session))))
           ∅ (updates one_record_world),
     snd (run (Some NAME) one_record_world a_cancelled_session)
     ++ [ReplyRemoveKeyboard "Update cancelled. You can start a new one with /update."]).
Proof.
  apply (cancelled_session_commits_nothing NAME one_record_world a_cancelled_session a_runtime
           [Some FUNCTION; Some COMPANY; Some COMPANY; Some COMPANY]).
  - vm_compute. reflexivity.
  - repeat constructor; eexists; reflexivity.
Defined.

Lemma empty_window_short_circuit_witness :
  report Daily (Command "daily_report") a_runtime initial_world
  = Ret tt initial_world [ReplyText "No updates were logged today. Nothing to report."].
Proof.
  apply (empty_window_short_circuit Daily (Command "daily_report") a_runtime initial_world
           initial_world []).
  vm_compute. reflexivity.
Defined.

Lemma generation_failure_is_reported_witness :
  exists prompt,
    generate_and_send_report [0] "Daily" a_failing_runtime one_record_world =
      Ret tt one_record_world
        [ReplyText "Generating the Daily Report... The AI is thinking, this may take a moment.";
         GenerateContent prompt;
         LogError "Error generating AI report: 503 unavailable";
         ReplyText "Sorry, there was an error while generating the AI report. Please try again later."].
Proof.
  destruct (build_prompt_returns [0] "Daily" a_failing_runtime one_record_world)
    as [prompt Hp].
  exists prompt.
  apply (generation_failure_is_reported [0] "Daily" a_failing_runtime one_record_world
           prompt "503 unavailable" Hp).
  reflexivity.
Defined.

Lemma caption_is_truncated_witness :
  media_arguments 0 a_runtime jan_world =
    Ret [("media_id", VStr "p");
         ("caption", VStr (str_take 1024 ("Jan (Acme) - " +:+ long_task)))] jan_world []
  /\ String.length (str_take 1024 ("Jan (Acme) - " +:+ long_task)) = 1024.
Proof.
  assert (Hn : deref jan_world 0 !! "name" = Some (VStr "Jan")) by (vm_compute; reflexivity).
  assert (Hc : deref jan_world 0 !! "company" = Some (VStr "Acme"))
    by (vm_compute; reflexivity).
  assert (Ht : deref jan_world 0 !! "update_text" = Some (VStr long_task))
    by (vm_compute; reflexivity).
  assert (Hp : deref jan_world 0 !! "photo_id" = Some (VStr "p")) by (vm_compute; reflexivity).
  destruct (caption_is_truncated 0 a_runtime jan_world "Jan" "Acme" long_task (VStr "p")
              Hn Hc Ht Hp) as (Hargs & _ & Hjan).
  split; [exact Hargs|].
  apply Hjan; reflexivity.
Defined.

Lemma windows_select_by_date_witness :
  todays_updates a_runtime dated_world = Ret [0] dated_world []
  /\ weekly_updates a_runtime dated_world = Ret [0; 1; 2] dated_world [].
Proof.
  assert (Hr : readable dated_world = true) by (vm_compute; reflexivity).
  destruct (windows_select_by_date a_runtime dated_world Hr a_runtime_valid)
    as (Hd & _ & Hw & _).
  split.
  - rewrite Hd. vm_compute. reflexivity.
  - rewrite Hw by (cbn [now a_runtime ordinal]; lia). vm_compute. reflexivity.
Defined.


Lemma new_collection_starts_from_nothing_witness :
  exists news,
    updates (snd (fst (run None one_record_world another_session)))
    = updates one_record_world ++ news
    /\ Forall (fun u => from_inputs another_session
                          (deref (snd (fst (run None one_record_world another_session))) u))
         news
    /\ Forall (fun u => deref (snd (fst (run None one_record_world another_session))) u
                        = deref one_record_world u)
         (updates one_record_world).
Proof.
  destruct (run None one_record_world another_session) as [[cs w'] out] eqn:Hrun.
  apply (new_collection_starts_from_nothing None one_record_world another_session cs w' out).
  - exact one_record_world_reachable.
  - left. reflexivity.
  - exact Hrun.
Defined.

(** * Further properties of the code *)

(** ** The dispatch that [main] sets up *)

Lemma conv_check_update_not_taken s m :
  accepted_kind s m = false ->
  (forall name, effective_message m = Command name ->
                String.eqb (str_lower name) "cancel" = false) ->
  conv_check_update (Some s) m = None.
Proof.
  intros Hk Hc. destruct (conv_check_update (Some s) m) as [cb|] eqn:H; [|reflexivity].
  apply conv_check_update_running in H as [[H _]|(_ & (name & Hm & Hn) & _)];
    [congruence|]. rewrite (Hc name Hm) in Hn. discriminate.
Qed.

(** X1. With no conversation running, handling an update never changes the
    world, and the conversation starts, in the state NAME and with the
    question for the name, exactly when the update is the command update;
    after anything else, the command cancel included, there is still no
    conversation. *)
Theorem only_update_starts_a_conversation m r w :
  exists out,
    process_update None m r w
    = (if is_command "update" m then Some NAME else None, w, out)
    /\ (is_command "update" m = true ->
        out = [ReplyText "Let's log a new update. First, what is your full name?"]).
Proof.
  destruct (conv_check_update None m) as [cb|] eqn:Hcheck.
  - destruct (conv_check_update_idle m cb Hcheck) as [(name & Hm & Hn) ->].
    unfold process_update. rewrite Hcheck.
    destruct m as [m|m]; simpl in Hm; subst m.
    + simpl. rewrite Hn. eexists. split; reflexivity.
    + rewrite start_update_edited. eexists. split; [reflexivity | discriminate].
  - destruct (process_update_unhandled None m r w Hcheck) as [out Hout].
    exists out. rewrite Hout.
    assert (Hm : is_command "update" m = false).
    { destruct m as [[t|name|sizes|]|m]; try reflexivity.
      unfold conv_check_update, first_match, entry_points in Hcheck. simpl in *.
      destruct (String.eqb _ _); [discriminate | reflexivity]. }
    rewrite Hm. split; [reflexivity | discriminate].
Qed.

(** X2. In a running conversation the command update does nothing: the
    conversation is not started again, it stays in its state, the partial
    record and the rest of the world are kept, and nothing is sent. *)
Theorem update_does_not_restart_a_conversation s name r w :
  is_command "update" (Command name) = true ->
  process_update (Some s) (Command name) r w = (Some s, w, []).
Proof.
  simpl. intros Hn. apply String.eqb_eq in Hn.
  unfold process_update, conv_check_update, first_match.
  destruct s; simpl; rewrite Hn; reflexivity.
Qed.

(** X3. A message of the wrong kind is ignored: in a state that asks for a
    text, a photo, an empty text or any message that is neither text nor
    command, and in the state PHOTO anything that is neither a photo nor a
    command, leaves the conversation in its state and the world as it was,
    and nothing is sent. In particular no text gets past the photo. *)
Theorem wrong_kind_of_input_is_ignored s m r w :
  accepted_kind s m = false ->
  filters_COMMAND m = false ->
  process_update (Some s) m r w = (Some s, w, []).
Proof.
  intros Hk Hc. unfold filters_COMMAND in Hc.
  unfold process_update. rewrite (conv_check_update_not_taken s m Hk).
  - unfold first_match, command_handlers. simpl.
    destruct (effective_message m); try discriminate; reflexivity.
  - intros name Hm. rewrite Hm in Hc. discriminate.
Qed.

(** X4. The commands start, help, daily_report and weekly_report are taken
    in every state of the conversation and outside of it; they leave the
    conversation where it is and the world as it was, also when the handler
    of a report raises, and what is sent is what the handler sends. *)
Theorem commands_leave_conversation_and_world c name r w :
  (is_command "start" (Command name) = true ->
   process_update c (Command name) r w
   = (c, w, outcome_out (start (Command name) r w)))
  /\ (is_command "help" (Command name) = true ->
      process_update c (Command name) r w
      = (c, w, outcome_out (help_command (Command name) r w)))
  /\ (is_command "daily_report" (Command name) = true ->
      process_update c (Command name) r w
      = (c, w, outcome_out (daily_report (Command name) r w)))
  /\ (is_command "weekly_report" (Command name) = true ->
      process_update c (Command name) r w
      = (c, w, outcome_out (weekly_report (Command name) r w))).
Proof.
  assert (Hgen : forall cb : update -> M unit,
            String.eqb (str_lower name) "cancel" = false ->
            String.eqb (str_lower name) "update" = false ->
            first_match command_handlers (Command name) = Some cb ->
            reads_only (cb (Command name)) ->
            process_update c (Command name) r w
            = (c, w, outcome_out (cb (Command name) r w))).
  { intros cb Hcancel Hupdate Hcb Hread.
    assert (Hcheck : conv_check_update c (Command name) = None).
    { destruct c as [s|].
      - apply conv_check_update_not_taken; [destruct s; reflexivity|].
        intros name' [= <-]. exact Hcancel.
      - unfold conv_check_update, first_match, entry_points. simpl. rewrite Hupdate.
        reflexivity. }
    unfold process_update. rewrite Hcheck, Hcb.
    specialize (Hread r w). destruct (cb (Command name) r w); simpl in *; subst; reflexivity. }
  unfold is_command. repeat split; intros Hn; apply String.eqb_eq in Hn.
  - apply (Hgen start); try (rewrite Hn; reflexivity).
    + unfold first_match, command_handlers. simpl. rewrite Hn. reflexivity.
    + apply reads_only_message_reply_text.
  - apply (Hgen help_command); try (rewrite Hn; reflexivity).
    + unfold first_match, command_handlers. simpl. rewrite Hn. reflexivity.
    + apply reads_only_message_reply_text.
  - apply (Hgen daily_report); try (rewrite Hn; reflexivity).
    + unfold first_match, command_handlers. simpl. rewrite Hn. reflexivity.
    + apply reads_only_daily_report.
  - apply (Hgen weekly_report); try (rewrite Hn; reflexivity).
    + unfold first_match, command_handlers. simpl. rewrite Hn. reflexivity.
    + apply reads_only_weekly_report.
Qed.

(** X5. The conversation moves one prompt at a time: handling an update in
    the state [s] leaves the conversation in [s], or takes it to the state
    that follows [s] when the message is of the kind that [s] takes, or
    closes it on the command cancel. No state is skipped and none comes
    back. *)
Theorem states_advance_one_at_a_time s m r w c' w' out :
  process_update (Some s) m r w = (c', w', out) ->
  c' = Some s
  \/ (c' = following s /\ accepted_kind s m = true)
  \/ (c' = None /\ is_command "cancel" m = true).
Proof.
  destruct (conv_check_update (Some s) m) as [cb|] eqn:Hcheck.
  2:{ destruct (process_update_unhandled (Some s) m r w Hcheck) as [out' ->].
      intros [= <- _ _]. auto. }
  unfold process_update. rewrite Hcheck.
  apply conv_check_update_running in Hcheck as [[Hk ->]|(_ & (name & Hm & Hn) & ->)].
  - assert (Hdone : forall c'' : option conv_state,
              c'' = Some s \/ c'' = following s ->
              c'' = Some s
              \/ (c'' = following s /\ accepted_kind s m = true)
              \/ (c'' = None /\ is_command "cancel" m = true))
      by (intros c'' [H|H]; auto).
    clear Hk. destruct m as [m|m].
    2:{ rewrite handler_of_edited. intros [= <- _ _]. apply Hdone. auto. }
    destruct s; simpl handler_of.
    + intros [= <- _ _]. apply Hdone. auto.
    + unfold get_function. rewrite store_field_any.
      destruct (user_data w !! "update_data"); intros [= <- _ _]; apply Hdone; auto.
    + unfold get_company. rewrite store_field_any.
      destruct (user_data w !! "update_data"); intros [= <- _ _]; apply Hdone; auto.
    + unfold get_location. rewrite store_field_any.
      destruct (user_data w !! "update_data"); intros [= <- _ _]; apply Hdone; auto.
    + unfold get_hours, replace_comma, float. unfold_monad. simpl.
      destruct (message_text m) as [|t|]; try (intros [= <- _ _]; apply Hdone; auto).
      simpl. destruct (py_float _); simpl; [|intros [= <- _ _]; apply Hdone; auto].
      unfold user_data_getitem.
      destruct (user_data w !! "update_data"); simpl; intros [= <- _ _]; apply Hdone; auto.
    + unfold get_update_text. rewrite store_field_any.
      destruct (user_data w !! "update_data"); intros [= <- _ _]; apply Hdone; auto.
    + unfold get_planning. rewrite store_field_any.
      destruct (user_data w !! "update_data"); intros [= <- _ _]; apply Hdone; auto.
    + rewrite get_photo_any. destruct (last (message_photo m)).
      * destruct (user_data w !! "update_data"); intros [= <- _ _]; apply Hdone; auto.
      * intros [= <- _ _]. apply Hdone. auto.
    + rewrite get_photo_any. destruct (last (message_photo m)).
      * destruct (user_data w !! "update_data"); intros [= <- _ _]; apply Hdone; auto.
      * intros [= <- _ _]. apply Hdone. auto.
  - destruct m as [m|m]; simpl in Hm; subst m.
    + intros [= <- _ _]. right. right. split; [reflexivity | exact Hn].
    + rewrite cancel_edited. intros [= <- _ _]. auto.
Qed.

(** ** Invariants of the conversation *)

Lemma session_ok_session_data c w : session_ok c w -> session_data w.
Proof.
  intros [_ Hud]. unfold session_data.
  destruct (user_data w !! "update_data") as [l|] eqn:Hl.
  - right. exists l. destruct (Hud _ _ Hl) as (_ & Hlen & Hnotin & _).
    split; [|auto]. apply map_eq. intros k.
    destruct (decide (k = "update_data")) as [->|Hk].
    + rewrite lookup_singleton_eq. exact Hl.
    + rewrite lookup_singleton_ne by congruence.
      destruct (user_data w !! k) as [l'|] eqn:Hk'; [|reflexivity].
      destruct (Hud _ _ Hk') as [-> _]. contradiction.
  - left. apply map_eq. intros k. rewrite lookup_empty.
    destruct (user_data w !! k) as [l'|] eqn:Hk'; [|reflexivity].
    destruct (Hud _ _ Hk') as [-> _]. congruence.
Qed.

(** X6. In every application that the bot can reach, whatever the chats
    and the users and also after edited messages, no conversation is left
    in END, the [user_data] of a user is empty or holds the one key
    [update_data], which refers to an allocated dictionary that is not a
    record of the store, and no two users share that dictionary: what a
    handler writes to the record in the making reaches neither the store
    nor the record of another user. *)
Theorem user_data_holds_one_fresh_record allowed a :
  reaches allowed a ->
  (forall chat user,
     conversations a !! (chat, user) ≠ Some END /\ session_data (world_of a user))
  /\ (forall user1 user2 l,
        user_data (world_of a user1) !! "update_data" = Some l ->
        user_data (world_of a user2) !! "update_data" = Some l -> user1 = user2).
Proof.
  intros Ha. destruct (reaches_invariant allowed a Ha) as [Hinv Hdistinct].
  split; [|exact Hdistinct].
  intros chat user. destruct (Hinv chat user) as (_ & _ & Hsession).
  split; [apply Hsession | eapply session_ok_session_data; exact Hsession].
Qed.

(** X7. The exceptions of the handlers of the conversation. Whatever the
    world, the handler that the conversation handler picks for an update
    raises [AttributeError] on an edited message; on a new message it raises
    [KeyError] when it is to store a field and [user_data] has no
    [update_data], leaving the world as it was and sending nothing; and
    otherwise it returns a state: the [IndexError] of [photo[-1]] and the
    [ValueError] of [float] never leave a handler. *)
Theorem conversation_handlers_raise_on_edits_and_lost_records c w m r cb :
  conv_check_update c m = Some cb ->
  (is_edited m = true -> exists w', cb m r w = Raise AttributeError w' [])
  /\ (is_edited m = false -> stores_field c m = true ->
      user_data w !! "update_data" = None ->
      cb m r w = Raise (KeyError "update_data") w [])
  /\ (is_edited m = false ->
      stores_field c m = false \/ is_Some (user_data w !! "update_data") ->
      exists s' w' out, cb m r w = Ret s' w' out).
Proof.
  intros Hcheck. destruct m as [m|m].
  2:{ split; [|split; discriminate]. intros _.
      destruct c as [s|].
      - apply conv_check_update_running in Hcheck as [[_ ->]|(_ & _ & ->)].
        + rewrite handler_of_edited. eauto.
        + rewrite cancel_edited. eauto.
      - apply conv_check_update_idle in Hcheck as [_ ->]. rewrite start_update_edited. eauto. }
  split; [discriminate|].
  destruct c as [s|].
  2:{ apply conv_check_update_idle in Hcheck as [_ ->].
      split; [discriminate|]. intros _ _. repeat eexists. }
  apply conv_check_update_running in Hcheck as [[Hk ->]|(Hk & _ & ->)].
  2:{ split; [|intros _ _; repeat eexists].
      intros _ Hs. exfalso. destruct s; simpl in Hs, Hk; try discriminate; try congruence.
      apply andb_prop in Hs as [Hs _]. congruence. }
  assert (Hfield : forall t key reply (next : conv_state), t ≠ "" ->
            (user_data w !! "update_data" = None ->
             match user_data w !! "update_data" with
             | Some l =>
                 Ret next (World (alter (insert key (message_text (Text t))) l (heap w))
                                 (user_data w) (updates w)) [ReplyText reply]
             | None => Raise (KeyError "update_data") w []
             end = Raise (KeyError "update_data") w [])
            /\ (text_not_command (Text t) = false \/ is_Some (user_data w !! "update_data") ->
                exists s' w' out,
                  match user_data w !! "update_data" with
                  | Some l =>
                      Ret next (World (alter (insert key (message_text (Text t))) l (heap w))
                                      (user_data w) (updates w)) [ReplyText reply]
                  | None => Raise (KeyError "update_data") w []
                  end = Ret s' w' out)).
  { intros t key reply next Ht. split; [intros ->; reflexivity|].
    intros [Hno|[l ->]]; [|repeat eexists].
    rewrite (text_not_command_Text t Ht) in Hno. discriminate. }
  destruct s; try discriminate; simpl in Hk;
    try (apply text_not_command_inv in Hk as (t & Hm & Ht); simpl in Hm; subst m);
    simpl handler_of.
  - split; [discriminate|]. intros _ _. repeat eexists.
  - unfold get_function. rewrite store_field_any. simpl stores_field.
    destruct (Hfield t "function" "Great. What company do you work for?" COMPANY Ht).
    split; auto.
  - unfold get_company. rewrite store_field_any. simpl stores_field.
    destruct (Hfield t "company"
                "Where on the site did you work today? (e.g., Second Floor, West Wing)"
                LOCATION Ht).
    split; auto.
  - unfold get_location. rewrite store_field_any. simpl stores_field.
    destruct (Hfield t "location" "How many hours did you work?" HOURS_WORKED Ht).
    split; auto.
  - rewrite get_hours_Text. unfold stores_field, accepted_kind.
    rewrite (text_not_command_Text t Ht). simpl.
    destruct (py_float _) as [hours|].
    + split; [intros _ _ ->; reflexivity|].
      intros _ [Hno|[l ->]]; [|repeat eexists].
      apply bool_decide_eq_false in Hno. destruct Hno. eauto.
    + split; [|intros _ _; repeat eexists].
      intros _ Hyes. apply bool_decide_eq_true in Hyes as [x Hx]. discriminate.
  - unfold get_update_text. rewrite store_field_any. simpl stores_field.
    destruct (Hfield t "update_text"
                "Any notes on planning? (e.g., 'Blocked by other team', 'Ready for inspection')"
                PLANNING Ht).
    split; auto.
  - unfold get_planning. rewrite store_field_any. simpl stores_field.
    destruct (Hfield t "planning" "Perfect. Now, please send one photo of your work."
                PHOTO Ht).
    split; auto.
  - rewrite get_photo_any. unfold stores_field, accepted_kind, filters_PHOTO.
    simpl effective_message. unfold filters_PHOTO in Hk. simpl in Hk.
    destruct (last (message_photo m)) as [file_id|] eqn:Hlast.
    + split; [intros _ _ ->; reflexivity|].
      intros _ [Hno|[l ->]]; [|repeat eexists].
      rewrite Hno in Hk. discriminate.
    + apply last_None in Hlast. rewrite Hlast in Hk. discriminate.
Qed.

(** One step appends at most one record and leaves the records of the
    store as they were. *)
Lemma step_appends c w m r c' w' :
  step c w m r c' w' -> invariant c w ->
  exists news, updates w' = updates w ++ news
               /\ length news <= 1
               /\ Forall (fun u => deref w' u = deref w u) (updates w).
Proof.
  intros Hstep (Hwf & Hstore & Hend & Hud).
  unfold wf in Hwf. rewrite Forall_forall in Hwf.
  destruct Hstep as [c w m r | w m r | s w m r | s w m r | t w r Ht
                     | s key next t l w r Hf Ht Hl
                     | t hours l w r Hh Hl | m file_id l w r Hlast Hl]; simpl.
  - exists []. rewrite app_nil_r. repeat split; auto. apply Forall_forall. reflexivity.
  - exists []. rewrite app_nil_r. repeat split; auto. apply Forall_forall. reflexivity.
  - exists []. rewrite app_nil_r. repeat split; auto. apply Forall_forall. reflexivity.
  - exists []. rewrite app_nil_r. repeat split; auto. apply Forall_forall. reflexivity.
  - exists []. rewrite app_nil_r. repeat split; auto. apply Forall_forall. intros u Hu.
    erewrite (deref_app_l _ u w); [|reflexivity|]; auto.
  - destruct (Hud _ _ Hl) as (_ & Hlen & Hnotin & _).
    exists []. rewrite app_nil_r. repeat split; auto. apply Forall_forall. intros u Hu.
    erewrite (deref_alter_ne _ l u w); [|reflexivity|intros ->; contradiction]. reflexivity.
  - destruct (Hud _ _ Hl) as (_ & Hlen & Hnotin & _).
    exists []. rewrite app_nil_r. repeat split; auto. apply Forall_forall. intros u Hu.
    erewrite (deref_alter_ne _ l u w); [|reflexivity|intros ->; contradiction]. reflexivity.
  - destruct (Hud _ _ Hl) as (_ & Hlen & Hnotin & _).
    set (w1 := World (alter (insert "photo_id" (VStr file_id)) l (heap w))
                     (user_data w) (updates w)).
    exists [l]. repeat split; auto. apply Forall_forall. intros u Hu.
    erewrite (deref_alter_ne _ l u w1); [|reflexivity|intros ->; contradiction].
    erewrite (deref_alter_ne _ l u w w1); [|reflexivity|intros ->; contradiction].
    reflexivity.
Qed.

Lemma run_appends ms : forall c w cs w' out,
  reachable c w -> run c w ms = (cs, w', out) ->
  exists news, updates w' = updates w ++ news
               /\ length news <= length ms
               /\ Forall (fun u => deref w' u = deref w u) (updates w).
Proof.
  induction ms as [|[m r] ms IH]; intros c w cs w' out Hr.
  - intros [= <- <- _]. exists []. rewrite app_nil_r.
    repeat split; auto. apply Forall_forall. reflexivity.
  - rewrite run_cons.
    destruct (process_update c m r w) as [[c1 w1] out1] eqn:Hstep.
    destruct (run c1 w1 ms) as [[cs1 w2] out2] eqn:Hrun.
    intros [= <- <- _].
    destruct (step_appends c w m r c1 w1 (process_update_step _ _ _ _ _ _ _ Hstep)
                (reachable_invariant c w Hr)) as (n1 & Hn1 & Hlen1 & Hold1).
    destruct (IH c1 w1 cs1 w2 out2 (reachable_step _ _ _ _ _ _ _ Hr Hstep) Hrun)
      as (n2 & Hn2 & Hlen2 & Hold2).
    exists (n1 ++ n2). rewrite Hn2, Hn1, app_assoc, length_app. simpl.
    split; [reflexivity|]. split; [lia|].
    rewrite Forall_forall in *. intros u Hu.
    rewrite Hold2 by (rewrite Hn1; apply elem_of_app; auto). auto.
Qed.

(** X8. The store is append-only. Over any run from any situation that the
    bot can reach, in the middle of a session or not, the store afterwards
    is the store before followed by the new records, at most one for each
    update, and every record that was in the store reads as before: no
    record is ever removed, moved or changed. *)
Theorem store_is_append_only c w ms cs w' out :
  reachable c w ->
  run c w ms = (cs, w', out) ->
  exists news, updates w' = updates w ++ news
               /\ length news <= length ms
               /\ Forall (fun u => deref w' u = deref w u) (updates w).
Proof. intros Hr Hrun. eapply run_appends; eassumption. Qed.

(** X9. The hours can be asked again any number of times: texts that
    [float] does not read keep the conversation in HOURS_WORKED and the
    world as it was, and each of them is answered by the request to enter
    the hours again. *)
Theorem invalid_hours_can_be_retried w (trs : list (string * runtime)) :
  Forall (fun tr => fst tr ≠ "" /\ py_float (str_replace "," "." (fst tr)) = None) trs ->
  run (Some HOURS_WORKED) w ((fun tr => (Message (Text (fst tr)), snd tr)) <$> trs)
  = (replicate (length trs) (Some HOURS_WORKED), w,
     replicate (length trs)
       (ReplyText "That doesn't look like a valid number. Please enter the hours again.")).
Proof.
  induction 1 as [|[t r] trs [Ht Hf] _ IH]; [reflexivity|].
  simpl in Ht, Hf. rewrite fmap_cons, run_cons. simpl fst. simpl snd.
  rewrite (process_HOURS_WORKED _ _ _ Ht), get_hours_Text, Hf.
  change (update_state HOURS_WORKED) with (Some HOURS_WORKED). cbv beta iota.
  rewrite IH. reflexivity.
Qed.

(** ** The prompt and the outcome of a report *)

Lemma str_app_assoc (s1 s2 s3 : string) : (s1 +:+ s2) +:+ s3 = s1 +:+ (s2 +:+ s3).
Proof.
  induction s1 as [|c s1 IH]; [reflexivity|].
  change (String c ((s1 +:+ s2) +:+ s3) = String c (s1 +:+ (s2 +:+ s3))).
  f_equal. exact IH.
Qed.

Lemma str_app_nil_r (s : string) : s +:+ "" = s.
Proof.
  induction s as [|c s IH]; [reflexivity|].
  change (String c (s +:+ "") = String c s). f_equal. exact IH.
Qed.

Lemma concat_cons (s : string) (l : list string) :
  String.concat "" (s :: l) = s +:+ String.concat "" l.
Proof.
  destruct l as [|t l]; [|reflexivity].
  change (s = s +:+ ""). symmetry. apply str_app_nil_r.
Qed.

Lemma prompt_blocks_spec us : forall i r w,
  prompt_blocks i us r w = Ret (record_blocks r w i us) w [].
Proof.
  induction us as [|u us IH]; intros i r w; [reflexivity|].
  unfold record_blocks. rewrite imap_cons, concat_cons.
  rewrite (imap_ext _ (fun k u => record_block r (S i + k) (deref w u)))
    by (intros k x _; simpl; f_equal; lia).
  fold (record_blocks r w (S i) us).
  change (prompt_blocks i (u :: us)) with
    (name ← dict_get u "name" (VStr "N/A") ≫= format;
     function ← dict_get u "function" (VStr "N/A") ≫= format;
     company ← dict_get u "company" (VStr "N/A") ≫= format;
     location ← dict_get u "location" (VStr "N/A") ≫= format;
     hours_worked ← dict_get u "hours_worked" (VStr "N/A") ≫= format;
     update_text ← dict_get u "update_text" (VStr "N/A") ≫= format;
     planning ← dict_get u "planning" (VStr "N/A") ≫= format;
     photo_id ← dict_get u "photo_id" (VStr "N/A") ≫= format;
     blocks ← prompt_blocks (S i) us;
     mret ("Update " +:+ pretty i +:+ ":" +:+ nl
           +:+ "- Name: " +:+ name +:+ nl
           +:+ "- Function: " +:+ function +:+ nl
           +:+ "- Company: " +:+ company +:+ nl
           +:+ "- Location: " +:+ location +:+ nl
           +:+ "- Hours Worked: " +:+ hours_worked +:+ nl
           +:+ "- Task Description: " +:+ update_text +:+ nl
           +:+ "- Planning Notes: " +:+ planning +:+ nl
           +:+ "- A photo was submitted for this update (ID: " +:+ photo_id +:+ ")."
           +:+ nl +:+ nl +:+ blocks)).
  assert (Hget : forall k, (dict_get u k (VStr "N/A") ≫= format) r w
                           = Ret (shown r (deref w u) k) w []).
  { intros k. unfold shown. unfold_monad. unfold dict_get, format.
    destruct (deref w u !! k) as [[|t|x]|]; reflexivity. }
  repeat (rewrite run_bind, Hget; cbv beta iota; unfold after at 1; cbv beta iota).
  rewrite run_bind, IH. cbv beta iota. unfold after at 1.
  unfold record_block. rewrite Nat.add_0_r.
  rewrite !str_app_assoc. reflexivity.
Qed.

(** X10. The prompt follows the records. [build_prompt] never raises,
    whatever the records hold, reads only and sends nothing, and the prompt
    is the head, which names the kind of report in lower case, the blocks of
    the records in their order, numbered 1, 2, 3 and so on, and the tail. The
    block of a record shows its eight fields, each as [str] gives it and N/A
    for a field that the record lacks. *)
Theorem prompt_follows_the_records us report_type r w :
  (forall i, prompt_blocks i us r w = Ret (record_blocks r w i us) w [])
  /\ build_prompt us report_type r w =
       Ret (prompt_head report_type +:+ record_blocks r w 1 us +:+ prompt_tail) w [].
Proof.
  split; [intros i; apply prompt_blocks_spec|].
  unfold build_prompt. rewrite run_bind, prompt_blocks_spec. cbv beta iota.
  unfold prompt_head, prompt_tail. rewrite !str_app_assoc. reflexivity.
Qed.

Lemma collect_media_without_photos us : forall mg r w,
  Forall (fun u => deref w u !! "photo_id" = None) us ->
  collect_media us mg r w = Ret mg w [].
Proof.
  induction us as [|u us IH]; intros mg r w Hus; [reflexivity|].
  apply Forall_cons in Hus as [Hu Hus].
  simpl. rewrite run_bind. unfold contains at 1. rewrite Hu. simpl.
  rewrite (IH mg r w Hus). reflexivity.
Qed.

Lemma collect_media_with_a_photo us : forall mg r w,
  Exists (fun u => is_Some (deref w u !! "photo_id")) us ->
  exists e, collect_media us mg r w = Raise e w [].
Proof.
  induction us as [|u us IH]; intros mg r w Hus; [inversion Hus|].
  simpl. rewrite run_bind. unfold contains at 1.
  destruct (deref w u !! "photo_id") as [v|] eqn:Hu; simpl.
  - rewrite run_bind. destruct (media_item_raises u r w) as [e ->]. eauto.
  - apply Exists_cons in Hus as [[v Hv]|Hus]; [congruence|].
    destruct (IH mg r w Hus) as [e ->]. eauto.
Qed.

(** X11. When the text service answers and no record has a photo
    reference, the report is sent in full: the notice, the title and the
    text of the report, and then, unless there is no record at all, the
    heading of the photos and the message that no photos were submitted.
    The world is unchanged. *)
Theorem report_without_photo_references updates_data report_type r w prompt text :
  build_prompt updates_data report_type r w = Ret prompt w [] ->
  generate_content r prompt = Generated text ->
  Forall (fun u => deref w u !! "photo_id" = None) updates_data ->
  generate_and_send_report updates_data report_type r w =
    Ret tt w
      ([ReplyText ("Generating the " +:+ report_type
                   +:+ " Report... The AI is thinking, this may take a moment.");
        GenerateContent prompt;
        ReplyMarkdown ("--- *" +:+ report_type +:+ " Report* ---");
        ReplyMarkdown text]
       ++ match updates_data with
          | [] => []
          | _ => [ReplyMarkdown "*Submitted Photos for this period:*";
                  ReplyText "No photos were submitted in this period."]
          end).
Proof.
  intros Hp Hg Hus. unfold generate_and_send_report. unfold_monad. simpl. rewrite Hp.
  unfold model_generate_content. rewrite Hg. simpl.
  destruct updates_data as [|u us]; [reflexivity|].
  remember (collect_media (u :: us) []) as collect eqn:Hcollect. simpl.
  subst collect. rewrite (collect_media_without_photos _ _ _ _ Hus). reflexivity.
Qed.

(** X12. When the text service answers and some record has a photo
    reference, the handler sends the notice, the title and the text of the
    report and the heading of the photos, and then raises: the records up to
    the first one with a photo reference are passed over, and the item of
    that one cannot be built. Nothing follows the heading, and the world is
    unchanged. *)
Theorem report_with_a_photo_reference_raises updates_data report_type r w prompt text :
  build_prompt updates_data report_type r w = Ret prompt w [] ->
  generate_content r prompt = Generated text ->
  Exists (fun u => is_Some (deref w u !! "photo_id")) updates_data ->
  exists e,
    generate_and_send_report updates_data report_type r w =
      Raise e w
        [ReplyText ("Generating the " +:+ report_type
                    +:+ " Report... The AI is thinking, this may take a moment.");
         GenerateContent prompt;
         ReplyMarkdown ("--- *" +:+ report_type +:+ " Report* ---");
         ReplyMarkdown text;
         ReplyMarkdown "*Submitted Photos for this period:*"].
Proof.
  intros Hp Hg Hus. unfold generate_and_send_report. unfold_monad. simpl. rewrite Hp.
  unfold model_generate_content. rewrite Hg. simpl.
  destruct updates_data as [|u us]; [inversion Hus|].
  remember (collect_media (u :: us) []) as collect eqn:Hcollect. simpl.
  subst collect. destruct (collect_media_with_a_photo _ [] r w Hus) as [e ->].
  exists e. reflexivity.
Qed.

(** X13. Whatever is in the daily report is in the weekly report: on a
    store whose dates read back and with a clock past the first week of
    the calendar, both selections return, and every record that the daily
    window selects is selected by the weekly window. *)
Theorem daily_window_is_within_weekly_window r w t7 :
  readable w = true ->
  sub_days (now r) 7 = Some t7 ->
  exists today week,
    todays_updates r w = Ret today w []
    /\ weekly_updates r w = Ret week w []
    /\ forall u, u ∈ today -> u ∈ week.
Proof.
  intros Hr H7.
  exists (select (same_day (now r)) w (updates w)), (select (datetime_leb t7) w (updates w)).
  split; [|split].
  - unfold todays_updates. rewrite run_bind. simpl. rewrite run_bind. simpl.
    pose proof (comprehension_select (same_day (now r)) r w _ Hr) as Hc.
    unfold same_day in Hc at 1. rewrite Hc. reflexivity.
  - unfold weekly_updates, seven_days_ago.
    rewrite !run_bind. simpl. rewrite H7. simpl. rewrite run_bind. simpl.
    rewrite (comprehension_select (datetime_leb t7) r w _ Hr). reflexivity.
  - intros u. unfold select. rewrite !list_elem_of_In, !filter_In.
    intros [Hin Hsel]. split; [assumption|].
    destruct (submitted_at w u) as [t|]; [|discriminate].
    unfold sub_days in H7. destruct (_ && _) in H7; [|discriminate]. injection H7 as <-.
    unfold same_day, date in Hsel. unfold datetime_leb. simpl. lia.
Qed.

(** ** Dates: what [isoformat] writes, [fromisoformat] reads *)

Lemma digit_char_spec d :
  (0 <= d < 10)%Z -> is_digit (digit_char d) = true /\ digit_val (digit_char d) = d.
Proof.
  intros Hd.
  assert (H : (d = 0 \/ d = 1 \/ d = 2 \/ d = 3 \/ d = 4 \/ d = 5 \/ d = 6 \/ d = 7
               \/ d = 8 \/ d = 9)%Z) by lia.
  repeat destruct H as [->|H]; try subst d; split; reflexivity.
Qed.

Lemma length_fmt_digits w : forall n, length (fmt_digits w n) = w.
Proof.
  induction w as [|w IH]; intros n; simpl; [reflexivity|].
  rewrite length_app, IH. simpl. lia.
Qed.

Lemma digits_value_snoc l c : digits_value (l ++ [c]) = (10 * digits_value l + digit_val c)%Z.
Proof. unfold digits_value. rewrite fold_left_app. reflexivity. Qed.

Lemma fmt_digits_spec w : forall n,
  (0 <= n < 10 ^ Z.of_nat w)%Z ->
  forallb is_digit (fmt_digits w n) = true /\ digits_value (fmt_digits w n) = n.
Proof.
  induction w as [|w IH]; intros n Hn.
  - simpl in *. split; [reflexivity|]. unfold digits_value. simpl. lia.
  - rewrite Nat2Z.inj_succ, Z.pow_succ_r in Hn by apply Nat2Z.is_nonneg.
    assert (Hq : (0 <= n / 10 < 10 ^ Z.of_nat w)%Z).
    { split; [apply Z.div_pos; lia | apply Z.div_lt_upper_bound; lia]. }
    assert (Hr : (0 <= n mod 10 < 10)%Z) by (apply Z.mod_pos_bound; lia).
    destruct (IH _ Hq) as [Hd Hv]. destruct (digit_char_spec _ Hr) as [Hd' Hv'].
    change (fmt_digits (S w) n) with (fmt_digits w (n / 10) ++ [digit_char (n mod 10)]).
    rewrite forallb_app, Hd.
    change (forallb is_digit [digit_char (n mod 10)])
      with (is_digit (digit_char (n mod 10)) && true).
    rewrite Hd'. split; [reflexivity|].
    rewrite digits_value_snoc, Hv, Hv'.
    pose proof (Z.div_mod n 10). lia.
Qed.

Lemma read_digits_fmt w n rest :
  (0 <= n < 10 ^ Z.of_nat w)%Z ->
  read_digits w (fmt_digits w n ++ rest) = Some (n, rest).
Proof.
  intros Hn. destruct (fmt_digits_spec w n Hn) as [Hd Hv].
  unfold read_digits.
  rewrite (take_app_length' _ _ w) by (rewrite length_fmt_digits; reflexivity).
  rewrite (drop_app_length' _ _ w) by (rewrite length_fmt_digits; reflexivity).
  rewrite length_fmt_digits, Nat.eqb_refl, Hd, Hv. reflexivity.
Qed.

Lemma month_day_ok_all leapyear n : (0 <= n < 365)%Z -> month_day_ok leapyear n = true.
Proof.
  intros Hn.
  assert (Hall : forallb (fun k => month_day_ok leapyear (Z.of_nat k)) (seq 0 365) = true)
    by (destruct leapyear; vm_compute; reflexivity).
  rewrite forallb_forall in Hall.
  rewrite <- (Z2Nat.id n) by lia. apply Hall. apply in_seq. lia.
Qed.

Lemma ord2ymd_month_day n0 :
  ord2ymd n0 =
    let n := (n0 - 1)%Z in
    let n400 := (n / 146097)%Z in
    let n := (n mod 146097)%Z in
    let n100 := (n / 36524)%Z in
    let n := (n mod 36524)%Z in
    let n4 := (n / 1461)%Z in
    let n := (n mod 1461)%Z in
    let n1 := (n / 365)%Z in
    let n := (n mod 365)%Z in
    let year := (n400 * 400 + 1 + n100 * 100 + n4 * 4 + n1)%Z in
    if (n1 =? 4)%Z || (n100 =? 4)%Z then ((year - 1)%Z, 12%Z, 31%Z)
    else
      let '(m, d) := month_day ((n1 =? 3)%Z && (negb (n4 =? 24)%Z || (n100 =? 3)%Z)) n in
      (year, m, d).
Proof.
  unfold ord2ymd, month_day. cbv zeta.
  destruct (_ || _); [reflexivity|].
  destruct (_ <? _)%Z; reflexivity.
Qed.

Lemma year_arith n400 n100 n4 n1 :
  (0 <= n400)%Z -> (0 <= n100 <= 3)%Z -> (0 <= n4 <= 24)%Z -> (0 <= n1 <= 3)%Z ->
  let year := (n400 * 400 + 1 + n100 * 100 + n4 * 4 + n1)%Z in
  days_before_year year = (146097 * n400 + 36524 * n100 + 1461 * n4 + 365 * n1)%Z
  /\ is_leap year = (n1 =? 3)%Z && (negb (n4 =? 24)%Z || (n100 =? 3)%Z).
Proof.
  intros H400 H100 H4 H1 year. subst year. split.
  - unfold days_before_year. cbv zeta. Z.div_mod_to_equations. lia.
  - unfold is_leap. apply Bool.eq_iff_eq_true.
    rewrite !andb_true_iff, !orb_true_iff, !negb_true_iff, !Z.eqb_eq, !Z.eqb_neq.
    Z.div_mod_to_equations. lia.
Qed.

Lemma table_days_in_month_12 : table DAYS_IN_MONTH 12 = 31%Z.
Proof. reflexivity. Qed.

Lemma ord2ymd_spec n :
  (1 <= n <= MAXORDINAL)%Z ->
  exists y m d,
    ord2ymd n = (y, m, d)
    /\ (1 <= y <= 9999)%Z /\ (1 <= m <= 12)%Z /\ (1 <= d <= days_in_month y m)%Z
    /\ ymd2ord y m d = n.
Proof.
  unfold MAXORDINAL. intros Hn. rewrite ord2ymd_month_day. cbv zeta.
  pose proof (Z.div_mod (n - 1) 146097 ltac:(lia)) as E400.
  pose proof (Z.mod_pos_bound (n - 1) 146097 ltac:(lia)) as B400.
  assert (P400 : (0 <= (n - 1) / 146097)%Z) by (apply Z.div_pos; lia).
  set (n400 := ((n - 1) / 146097)%Z) in *. set (r400 := ((n - 1) mod 146097)%Z) in *.
  pose proof (Z.div_mod r400 36524 ltac:(lia)) as E100.
  pose proof (Z.mod_pos_bound r400 36524 ltac:(lia)) as B100.
  assert (P100 : (0 <= r400 / 36524)%Z) by (apply Z.div_pos; lia).
  set (n100 := (r400 / 36524)%Z) in *. set (r100 := (r400 mod 36524)%Z) in *.
  pose proof (Z.div_mod r100 1461 ltac:(lia)) as E4.
  pose proof (Z.mod_pos_bound r100 1461 ltac:(lia)) as B4.
  assert (P4 : (0 <= r100 / 1461)%Z) by (apply Z.div_pos; lia).
  set (n4 := (r100 / 1461)%Z) in *. set (r4 := (r100 mod 1461)%Z) in *.
  pose proof (Z.div_mod r4 365 ltac:(lia)) as E1.
  pose proof (Z.mod_pos_bound r4 365 ltac:(lia)) as B1.
  assert (P1 : (0 <= r4 / 365)%Z) by (apply Z.div_pos; lia).
  set (n1 := (r4 / 365)%Z) in *. set (doy := (r4 mod 365)%Z) in *.
  clearbody n400 r400 n100 r100 n4 r4 n1 doy.
  destruct ((n1 =? 4)%Z || (n100 =? 4)%Z) eqn:Hspecial.
  - (* the last day of a leap year *)
    apply orb_true_iff in Hspecial. rewrite !Z.eqb_eq in Hspecial.
    exists (n400 * 400 + 1 + n100 * 100 + n4 * 4 + n1 - 1)%Z, 12%Z, 31%Z.
    split; [reflexivity|].
    assert (Hy : exists a b : Z,
               (0 <= a <= 3 /\ 0 <= b <= 24 /\ (b <> 24 \/ a = 3)
                /\ n400 * 400 + 1 + n100 * 100 + n4 * 4 + n1 - 1
                   = n400 * 400 + 1 + a * 100 + b * 4 + 3
                /\ 146097 * n400 + 36524 * a + 1461 * b + 365 * 3 + 334 + 1 + 31 = n)%Z).
    { destruct Hspecial as [H|H].
      - exists n100, n4. lia.
      - exists 3%Z, 24%Z. lia. }
    destruct Hy as (a & b & Ha & Hb & Hleap & -> & Hsum).
    destruct (year_arith n400 a b 3 P400 Ha Hb ltac:(lia)) as [Hdby Hl].
    cbv zeta in Hdby, Hl.
    assert (Hl' : is_leap (n400 * 400 + 1 + a * 100 + b * 4 + 3) = true).
    { rewrite Hl. apply andb_true_iff. split; [reflexivity|].
      apply orb_true_iff. rewrite negb_true_iff, Z.eqb_neq, Z.eqb_eq. exact Hleap. }
    unfold days_in_month, ymd2ord, days_before_month. rewrite Hdby, Hl'.
    change (12 =? 2)%Z with false. change (2 <? 12)%Z with true. cbv [andb].
    change (table DAYS_IN_MONTH 12) with 31%Z. change (table DAYS_BEFORE_MONTH 12) with 334%Z.
    lia.
  - apply orb_false_iff in Hspecial. rewrite !Z.eqb_neq in Hspecial.
    destruct Hspecial as [Hn1 Hn100].
    assert (H100 : (0 <= n100 <= 3)%Z) by lia.
    assert (H4 : (0 <= n4 <= 24)%Z) by lia.
    assert (H1 : (0 <= n1 <= 3)%Z) by lia.
    destruct (year_arith n400 n100 n4 n1 P400 H100 H4 H1) as [Hdby Hl].
    cbv zeta in Hdby, Hl. rewrite <- Hl.
    set (year := (n400 * 400 + 1 + n100 * 100 + n4 * 4 + n1)%Z) in *.
    pose proof (month_day_ok_all (is_leap year) doy ltac:(lia)) as Hok.
    unfold month_day_ok in Hok.
    destruct (month_day (is_leap year) doy) as [m d].
    rewrite !andb_true_iff, !Z.leb_le, Z.eqb_eq in Hok.
    destruct Hok as ((((Hm1 & Hm12) & Hd1) & Hdm) & Hsum).
    exists year, m, d. split; [reflexivity|].
    unfold days_in_month, ymd2ord, days_before_month. rewrite Hdby.
    subst year. lia.
Qed.

Lemma expect_cons c rest : expect c (c :: rest) = Some rest.
Proof. unfold expect, ascii_eqb. rewrite Nat.eqb_refl. reflexivity. Qed.

Lemma isoformat_round_trip t : valid_datetime t -> fromisoformat (isoformat t) = Some t.
Proof.
  destruct t as [o u]. unfold valid_datetime. cbn [ordinal usec]. intros [Ho Hu].
  unfold fromisoformat, isoformat. rewrite list_ascii_of_string_of_list_ascii.
  unfold isoformat_chars. cbn [ordinal usec].
  destruct (ord2ymd_spec o Ho) as (y & m & d & -> & Hy & Hm & Hd & Hord).
  cbv zeta.
  set (secs := (u / 1000000)%Z). set (us := (u mod 1000000)%Z).
  set (hh := (secs / 3600)%Z). set (mm := (secs / 60 mod 60)%Z). set (ss := (secs mod 60)%Z).
  assert (Htime : (0 <= hh <= 23 /\ 0 <= mm <= 59 /\ 0 <= ss <= 59 /\ 0 <= us < 1000000
                   /\ ((hh * 60 + mm) * 60 + ss) * 1000000 + us = u)%Z).
  { subst hh mm ss us secs. Z.div_mod_to_equations. lia. }
  clearbody hh mm ss us. clear secs.
  destruct Htime as (Hhh & Hmm & Hss & Hus & Hsum).
  assert (Hdim : (d <= 31)%Z).
  { destruct Hd as [_ Hd]. unfold days_in_month in Hd.
    assert (Ht : (table DAYS_IN_MONTH m <= 31)%Z).
    { assert (Hcases : (m = 1 \/ m = 2 \/ m = 3 \/ m = 4 \/ m = 5 \/ m = 6 \/ m = 7 \/ m = 8
                        \/ m = 9 \/ m = 10 \/ m = 11 \/ m = 12)%Z) by lia.
      repeat destruct Hcases as [->|Hcases]; try subst m; vm_compute; discriminate. }
    destruct (_ && _) in Hd; lia. }
  unfold mbind, option_bind.
  rewrite (read_digits_fmt 4 y) by (change (10 ^ Z.of_nat 4)%Z with 10000%Z; lia).
  cbv beta iota. rewrite expect_cons.
  rewrite (read_digits_fmt 2 m) by (change (10 ^ Z.of_nat 2)%Z with 100%Z; lia).
  cbv beta iota. rewrite expect_cons.
  rewrite (read_digits_fmt 2 d) by (change (10 ^ Z.of_nat 2)%Z with 100%Z; lia).
  cbv beta iota. rewrite expect_cons.
  rewrite (read_digits_fmt 2 hh) by (change (10 ^ Z.of_nat 2)%Z with 100%Z; lia).
  cbv beta iota. rewrite expect_cons.
  rewrite (read_digits_fmt 2 mm) by (change (10 ^ Z.of_nat 2)%Z with 100%Z; lia).
  cbv beta iota. rewrite expect_cons.
  rewrite (read_digits_fmt 2 ss) by (change (10 ^ Z.of_nat 2)%Z with 100%Z; lia).
  cbv beta iota.
  assert (Hcheck : (1 <=? y)%Z && (1 <=? m)%Z && (m <=? 12)%Z && (1 <=? d)%Z
                   && (d <=? days_in_month y m)%Z
                   && (hh <=? 23)%Z && (mm <=? 59)%Z && (ss <=? 59)%Z = true).
  { rewrite !andb_true_iff, !Z.leb_le. lia. }
  destruct (Z.eqb_spec us 0) as [Hz|Hnz].
  - rewrite Hcheck. cbv beta iota. unfold check. cbv beta iota.
    f_equal. f_equal; lia.
  - rewrite expect_cons.
    rewrite <- (app_nil_r (fmt_digits 6 us)).
    rewrite (read_digits_fmt 6 us) by (change (10 ^ Z.of_nat 6)%Z with 1000000%Z; lia).
    cbv beta iota. rewrite Hcheck. unfold check. cbv beta iota.
    f_equal. f_equal; lia.
Qed.

Lemma committed_date w l file_id t :
  l < length (heap w) ->
  submitted_at
    (World (alter (insert "date" (VStr (isoformat t)))
                  l (alter (insert "photo_id" (VStr file_id)) l (heap w)))
           ∅ (updates w ++ [l])) l
  = fromisoformat (isoformat t).
Proof.
  intros Hl. unfold submitted_at.
  set (w1 := World (alter (insert "photo_id" (VStr file_id)) l (heap w))
                   (user_data w) (updates w)).
  erewrite (deref_alter_eq _ l w1);
    [|reflexivity|subst w1; simpl; rewrite length_alter; assumption].
  rewrite lookup_insert_eq. reflexivity.
Qed.

(** X14. The date of a commit reads back. When a photo is taken in the
    state PHOTO of a session, with a clock that shows a valid datetime, the
    record that is appended has a date, written by [isoformat], that
    [fromisoformat] reads as the very time of the clock. *)
Theorem committed_date_reads_back sizes file_id r w l :
  user_data w !! "update_data" = Some l ->
  l < length (heap w) ->
  last sizes = Some file_id ->
  valid_datetime (now r) ->
  exists w' out,
    process_update (Some PHOTO) (Photo sizes) r w = (None, w', out)
    /\ updates w' = updates w ++ [l]
    /\ submitted_at w' l = Some (now r).
Proof.
  intros Hud Hl Hlast Hvalid.
  rewrite (process_PHOTO sizes file_id r w l Hlast Hud).
  eexists. eexists. split; [reflexivity|]. split; [reflexivity|].
  rewrite committed_date by assumption. apply isoformat_round_trip. assumption.
Qed.

Lemma submitted_at_deref w w' u : deref w' u = deref w u -> submitted_at w' u = submitted_at w u.
Proof. unfold submitted_at. intros ->. reflexivity. Qed.

Lemma readable_spec w :
  readable w = true <-> Forall (fun u => is_Some (submitted_at w u)) (updates w).
Proof.
  unfold readable. rewrite forallb_forall, Forall_forall.
  split; intros H u Hu.
  - apply list_elem_of_In in Hu. specialize (H u Hu).
    apply bool_decide_eq_true in H. exact H.
  - apply list_elem_of_In in Hu. apply bool_decide_eq_true. auto.
Qed.

Lemma step_readable c w m r c' w' :
  step c w m r c' w' -> invariant c w -> valid_datetime (now r) ->
  readable w = true -> readable w' = true.
Proof.
  intros Hstep Hinv Hvalid. rewrite !readable_spec. intros Hr.
  destruct (step_appends c w m r c' w' Hstep Hinv) as (news & Hnews & _ & Hold).
  assert (Hkept : Forall (fun u => is_Some (submitted_at w' u)) (updates w)).
  { rewrite Forall_forall in *. intros u Hu.
    rewrite (submitted_at_deref w w' u) by auto. auto. }
  destruct Hinv as (Hwf & Hstore & Hend & Hud).
  destruct Hstep as [c w m r | w m r | s w m r | s w m r | t w r Ht
                     | s key next t l w r Hf Ht Hl
                     | t hours l w r Hh Hl | m file_id l w r Hlast Hl]; try exact Hkept.
  destruct (Hud _ _ Hl) as (_ & Hlen & _).
  simpl updates. apply Forall_app. split; [exact Hkept|].
  apply Forall_singleton. rewrite committed_date by assumption.
  rewrite isoformat_round_trip by assumption. eauto.
Qed.

Lemma run_readable ms : forall c w cs w' out,
  reachable c w -> valid_clocks ms -> readable w = true ->
  run c w ms = (cs, w', out) -> readable w' = true.
Proof.
  induction ms as [|[m r] ms IH]; intros c w cs w' out Hr Hvalid Hread.
  - intros [= _ <- _]. exact Hread.
  - rewrite run_cons.
    destruct (process_update c m r w) as [[c1 w1] out1] eqn:Hstep.
    destruct (run c1 w1 ms) as [[cs1 w2] out2] eqn:Hrun.
    intros [= _ <- _]. apply Forall_cons in Hvalid as [Hv Hvalid].
    eapply (IH c1 w1); [| exact Hvalid | | exact Hrun].
    + eapply reachable_step; eassumption.
    + eapply step_readable; [| apply (reachable_invariant c w Hr) | exact Hv | exact Hread].
      eapply process_update_step. eassumption.
Qed.

(** X15. The reports can always read the store. After any run from the
    start of the bot in which the clocks show valid datetimes, every date of
    the store reads back, and so the selection of the daily report returns,
    for any clock: the [KeyError] of a missing date and the [ValueError] of
    [fromisoformat] do not occur. *)
Theorem reports_can_read_the_store ms cs w out r :
  valid_clocks ms ->
  run None initial_world ms = (cs, w, out) ->
  readable w = true
  /\ todays_updates r w = Ret (select (same_day (now r)) w (updates w)) w [].
Proof.
  intros Hvalid Hrun.
  assert (Hread : readable w = true).
  { eapply (run_readable ms None initial_world); [apply reachable_init | exact Hvalid | | exact Hrun].
    reflexivity. }
  split; [exact Hread|].
  unfold todays_updates. rewrite run_bind. simpl. rewrite run_bind. simpl.
  pose proof (comprehension_select (same_day (now r)) r w _ Hread) as Hc.
  unfold same_day in Hc at 1. rewrite Hc. reflexivity.
Qed.

(** X16. What is logged today is in the report of today. When a
    conversation that the bot can reach is in the state PHOTO and
    [user_data] still refers to a record in the making, a photo commits that
    record, and on a store whose dates read back and with a valid clock the
    daily selection of any clock of the same day is the selection it was
    before the commit followed by the new record. *)
Theorem new_record_is_in_todays_report sizes file_id r r' w l :
  reachable (Some PHOTO) w ->
  user_data w !! "update_data" = Some l ->
  readable w = true ->
  last sizes = Some file_id ->
  valid_datetime (now r) ->
  date (now r') = date (now r) ->
  exists w' out,
    process_update (Some PHOTO) (Photo sizes) r w = (None, w', out)
    /\ updates w' = updates w ++ [l]
    /\ todays_updates r' w'
       = Ret (select (same_day (now r')) w (updates w) ++ [l]) w' [].
Proof.
  intros Hreach Hl Hread Hlast Hvalid Hday.
  pose proof (reachable_invariant _ _ Hreach) as Hinv.
  destruct Hinv as (Hwf & Hstore & Hend & Hud).
  destruct (Hud _ _ Hl) as (_ & Hlen & Hnotin & _).
  pose proof (process_PHOTO sizes file_id r w l Hlast Hl) as Hstep.
  match type of Hstep with
  | _ = (None, ?w1, _) => remember w1 as w' eqn:Hw'
  end.
  pose proof (process_update_step _ _ _ _ _ _ _ Hstep) as Hrel.
  pose proof (step_readable _ _ _ _ _ _ Hrel (reachable_invariant _ _ Hreach) Hvalid Hread)
    as Hread'.
  destruct (step_appends _ _ _ _ _ _ Hrel (reachable_invariant _ _ Hreach))
    as (news & _ & _ & Hold).
  exists w'. eexists. split; [exact Hstep|]. split; [subst w'; reflexivity|].
  transitivity (Ret (select (same_day (now r')) w' (updates w')) w' (@nil event)).
  { unfold todays_updates. rewrite run_bind. simpl. rewrite run_bind. simpl.
    pose proof (comprehension_select (same_day (now r')) r' w' _ Hread') as Hc.
    unfold same_day in Hc at 1. rewrite Hc. reflexivity. }
  f_equal.
  unfold select. subst w'. simpl updates. rewrite List.filter_app. f_equal.
  - apply List.filter_ext_in. intros u Hu. apply list_elem_of_In in Hu.
    rewrite Forall_forall in Hold. rewrite (submitted_at_deref w _ u) by auto. reflexivity.
  - simpl. rewrite committed_date by assumption.
    rewrite isoformat_round_trip by assumption.
    unfold same_day. rewrite Hday, Z.eqb_refl. reflexivity.
Qed.





(** ** The further properties at concrete inputs *)

Lemma photo_world_reachable : reachable (Some PHOTO) photo_world.
Proof.
  unfold photo_world.
  pose proof (run_reaches None initial_world (take 9 a_session) reachable_init) as H.
  assert (Hc : final None (fst (fst (run None initial_world (take 9 a_session)))) = Some PHOTO)
    by (vm_compute; reflexivity).
  rewrite Hc in H. exact H.
Qed.

Lemma update_does_not_restart_a_conversation_witness :
  process_update (Some COMPANY) (Command "Update") a_runtime one_record_world
  = (Some COMPANY, one_record_world, []).
Proof.
  apply (update_does_not_restart_a_conversation COMPANY "Update" a_runtime one_record_world).
  reflexivity.
Defined.

Lemma wrong_kind_of_input_is_ignored_witness :
  process_update (Some PHOTO) (Text "no photo") a_runtime photo_world
  = (Some PHOTO, photo_world, []).
Proof.
  apply (wrong_kind_of_input_is_ignored PHOTO (Text "no photo") a_runtime photo_world);
    reflexivity.
Defined.

Lemma states_advance_one_at_a_time_witness :
  fst (fst (process_update (Some NAME) (Text "Jan") a_runtime initial_world)) = Some NAME
  \/ (fst (fst (process_update (Some NAME) (Text "Jan") a_runtime initial_world))
      = following NAME /\ accepted_kind NAME (Text "Jan") = true)
  \/ (fst (fst (process_update (Some NAME) (Text "Jan") a_runtime initial_world)) = None
      /\ is_command "cancel" (Text "Jan") = true).
Proof.
  destruct (process_update (Some NAME) (Text "Jan") a_runtime initial_world)
    as [[c' w'] out] eqn:Hstep.
  exact (states_advance_one_at_a_time NAME (Text "Jan") a_runtime initial_world c' w' out Hstep).
Defined.

Lemma an_application_reaches : reaches private_chat an_application.
Proof.
  apply application_run_reaches; [constructor|].
  unfold in_chat. rewrite Forall_fmap. apply Forall_forall. intros mr _. reflexivity.
Qed.

Lemma user_data_holds_one_fresh_record_witness :
  (forall chat user,
     conversations an_application !! (chat, user) ≠ Some END
     /\ session_data (world_of an_application user))
  /\ (forall user1 user2 l,
        user_data (world_of an_application user1) !! "update_data" = Some l ->
        user_data (world_of an_application user2) !! "update_data" = Some l -> user1 = user2).
Proof.
  apply (user_data_holds_one_fresh_record private_chat an_application).
  exact an_application_reaches.
Defined.

Lemma conversation_handlers_raise_on_edits_and_lost_records_witness :
  (is_edited (Photo ["s"; "m"; "l"]) = true ->
   exists w', get_photo (Photo ["s"; "m"; "l"]) a_runtime photo_world
              = Raise AttributeError w' [])
  /\ (is_edited (Photo ["s"; "m"; "l"]) = false ->
      stores_field (Some PHOTO) (Photo ["s"; "m"; "l"]) = true ->
      user_data photo_world !! "update_data" = None ->
      get_photo (Photo ["s"; "m"; "l"]) a_runtime photo_world
      = Raise (KeyError "update_data") photo_world [])
  /\ (is_edited (Photo ["s"; "m"; "l"]) = false ->
      stores_field (Some PHOTO) (Photo ["s"; "m"; "l"]) = false
      \/ is_Some (user_data photo_world !! "update_data") ->
      exists s' w' out,
        get_photo (Photo ["s"; "m"; "l"]) a_runtime photo_world = Ret s' w' out).
Proof.
  apply (conversation_handlers_raise_on_edits_and_lost_records (Some PHOTO) photo_world
           (Photo ["s"; "m"; "l"]) a_runtime get_photo).
  reflexivity.
Defined.

Lemma store_is_append_only_witness :
  exists news,
    updates (snd (fst (run None one_record_world another_session)))
    = updates one_record_world ++ news
    /\ length news <= length another_session
    /\ Forall (fun u => deref (snd (fst (run None one_record_world another_session))) u
                        = deref one_record_world u)
         (updates one_record_world).
Proof.
  destruct (run None one_record_world another_session) as [[cs w'] out] eqn:Hrun.
  apply (store_is_append_only None one_record_world another_session cs w' out).
  - exact one_record_world_reachable.
  - exact Hrun.
Defined.

Lemma invalid_hours_can_be_retried_witness :
  run (Some HOURS_WORKED) hours_world [(Text "abc", a_runtime); (Text "1,5,3", a_runtime)]
  = ([Some HOURS_WORKED; Some HOURS_WORKED], hours_world,
     [ReplyText "That doesn't look like a valid number. Please enter the hours again.";
      ReplyText "That doesn't look like a valid number. Please enter the hours again."]).
Proof.
  apply (invalid_hours_can_be_retried hours_world [("abc", a_runtime); ("1,5,3", a_runtime)]).
  repeat constructor; try discriminate; vm_compute; reflexivity.
Defined.

Lemma report_without_photo_references_witness :
  exists prompt,
    generate_and_send_report [0] "Daily" a_runtime no_photo_world =
      Ret tt no_photo_world
        [ReplyText "Generating the Daily Report... The AI is thinking, this may take a moment.";
         GenerateContent prompt;
         ReplyMarkdown "--- *Daily Report* ---";
         ReplyMarkdown "ok";
         ReplyMarkdown "*Submitted Photos for this period:*";
         ReplyText "No photos were submitted in this period."].
Proof.
  destruct (build_prompt_returns [0] "Daily" a_runtime no_photo_world) as [prompt Hp].
  exists prompt.
  apply (report_without_photo_references [0] "Daily" a_runtime no_photo_world prompt "ok" Hp).
  - reflexivity.
  - repeat constructor.
Defined.

Lemma report_with_a_photo_reference_raises_witness :
  exists prompt e,
    generate_and_send_report [0] "Daily" a_runtime one_record_world =
      Raise e one_record_world
        [ReplyText "Generating the Daily Report... The AI is thinking, this may take a moment.";
         GenerateContent prompt;
         ReplyMarkdown "--- *Daily Report* ---";
         ReplyMarkdown "ok";
         ReplyMarkdown "*Submitted Photos for this period:*"].
Proof.
  destruct (build_prompt_returns [0] "Daily" a_runtime one_record_world) as [prompt Hp].
  exists prompt.
  apply (report_with_a_photo_reference_raises [0] "Daily" a_runtime one_record_world
           prompt "ok" Hp).
  - reflexivity.
  - apply Exists_cons_hd. vm_compute. eexists. reflexivity.
Defined.

Lemma daily_window_is_within_weekly_window_witness :
  exists today week,
    todays_updates a_runtime one_record_world = Ret today one_record_world []
    /\ weekly_updates a_runtime one_record_world = Ret week one_record_world []
    /\ forall u, u ∈ today -> u ∈ week.
Proof.
  apply (daily_window_is_within_weekly_window a_runtime one_record_world
           (DateTime 738939 43200000001)); vm_compute; reflexivity.
Defined.

Lemma committed_date_reads_back_witness :
  exists w' out,
    process_update (Some PHOTO) (Photo ["s"; "m"; "l"]) a_runtime photo_world = (None, w', out)
    /\ updates w' = updates photo_world ++ [0]
    /\ submitted_at w' 0 = Some (now a_runtime).
Proof.
  apply (committed_date_reads_back ["s"; "m"; "l"] "l" a_runtime photo_world 0).
  - vm_compute. reflexivity.
  - vm_compute. lia.
  - reflexivity.
  - exact a_runtime_valid.
Defined.

Lemma reports_can_read_the_store_witness :
  readable one_record_world = true
  /\ todays_updates a_runtime one_record_world
     = Ret (select (same_day (now a_runtime)) one_record_world (updates one_record_world))
         one_record_world [].
Proof.
  destruct (run None initial_world a_session) as [[cs w] out] eqn:Hrun.
  assert (Hw : one_record_world = w) by (unfold one_record_world; rewrite Hrun; reflexivity).
  rewrite Hw.
  apply (reports_can_read_the_store a_session cs w out a_runtime); [|exact Hrun].
  unfold valid_clocks, a_session. rewrite Forall_fmap. apply Forall_forall.
  intros m _. exact a_runtime_valid.
Defined.

Lemma new_record_is_in_todays_report_witness :
  exists w' out,
    process_update (Some PHOTO) (Photo ["s"; "m"; "l"]) a_runtime photo_world = (None, w', out)
    /\ updates w' = updates photo_world ++ [0]
    /\ todays_updates a_runtime w'
       = Ret (select (same_day (now a_runtime)) photo_world (updates photo_world) ++ [0]) w' [].
Proof.
  apply (new_record_is_in_todays_report ["s"; "m"; "l"] "l" a_runtime a_runtime photo_world 0).
  - exact photo_world_reachable.
  - vm_compute. reflexivity.
  - vm_compute. reflexivity.
  - reflexivity.
  - exact a_runtime_valid.
  - reflexivity.
Defined.

